(** * goth: external-account credentials and the authorized aiohttp transport

    A shallow embedding of

      - [google/auth/identity_pool.py]              (module [identity_pool]),
      - [google/auth/transport/aiohttp_requests.py] (module [aiohttp_requests]),

    together with the parts of [google.auth.external_account] and of
    [google.auth.transport.requests] that these two files and the tests
    rely on.  Python objects that are mutated in place are threaded as
    explicit state; exceptions are the [Raise] branch of [result]. *)

From Stdlib Require Import ZArith List String Ascii Bool Lia.
From stdpp Require Import base option list strings pretty gmap.

Local Open Scope Z_scope.

(** ** Exceptions and results *)

(** The exception classes that occur in the modelled code.  Python's
    [json.JSONDecodeError] and [UnicodeDecodeError] are subclasses of
    [ValueError] and are represented by it; [TimeoutError] is
    [asyncio.TimeoutError] and [ClientError] is [aiohttp.ClientError];
    [RecursionError] is what the decoder of [json] raises on a text
    that is nested too deeply. *)
Inductive exn : Type :=
| RefreshError (msg : string)
| OAuthError (msg : string)
| TransportError (msg : string)
| TimeoutError
| ValueError (msg : string)
| KeyError (key : string)
| TypeError (msg : string)
| OSError (msg : string)
| ClientError (msg : string)
| RecursionError (msg : string).

Inductive result (A : Type) : Type :=
| Return (a : A)
| Raise (e : exn).
Arguments Return {A} a.
Arguments Raise {A} e.

#[global] Instance result_ret : MRet result := fun _ a => Return a.
#[global] Instance result_bind : MBind result := fun _ _ f m =>
  match m with
  | Return a => f a
  | Raise e => Raise e
  end.

#[global] Instance result_fmap : FMap result := fun _ _ f m =>
  match m with
  | Return a => Return (f a)
  | Raise e => Raise e
  end.

Definition is_RefreshError (e : exn) : bool :=
  match e with RefreshError _ => true | _ => false end.

Definition is_OAuthError (e : exn) : bool :=
  match e with OAuthError _ => true | _ => false end.

(** ** Decoded JSON documents

    What [json.loads] returns: [None], [bool], [int], [str], [list] and
    [dict].  JSON numbers are kept as integers; a [dict] is the list of
    its items, each key occurring once. *)
#[warnings="-register-all"]
Inductive json : Type :=
| JNull
| JBool (b : bool)
| JNum (n : Z)
| JStr (s : string)
| JArr (items : list json)
| JObj (items : list (string * json)).

(** Python truth value of a decoded document ([if not token]). *)
Definition truthy (v : json) : bool :=
  match v with
  | JNull => false
  | JBool b => b
  | JNum n => negb (n =? 0)
  | JStr s => negb (String.eqb s "")
  | JArr items => match items with [] => false | _ => true end
  | JObj items => match items with [] => false | _ => true end
  end.

(** Truth value of an optional string ([None] and [""] are false). *)
Definition str_truthy (o : option string) : bool :=
  match o with
  | Some s => negb (String.eqb s "")
  | None => false
  end.

(** The string behind a true optional string. *)
Definition nonempty (o : option string) : option string :=
  match o with
  | Some s => if String.eqb s "" then None else Some s
  | None => None
  end.

Fixpoint assoc {A : Type} (k : string) (items : list (string * A)) : option A :=
  match items with
  | [] => None
  | (k', v) :: rest => if String.eqb k k' then Some v else assoc k rest
  end.

(** [container[key]] for a decoded document and a key that is a [str]
    or [None].  Only a [dict] can be indexed by such a key: a missing
    key is a [KeyError], and every other container type rejects the key
    with a [TypeError]. *)
Definition getitem (container : json) (key : option string) : result json :=
  match container with
  | JObj items =>
      match key with
      | Some k =>
          match assoc k items with
          | Some v => Return v
          | None => Raise (KeyError k)
          end
      | None => Raise (KeyError "None")
      end
  | JArr _ => Raise (TypeError "list indices must be integers or slices")
  | JStr _ => Raise (TypeError "string indices must be integers")
  | JNull => Raise (TypeError "'NoneType' object is not subscriptable")
  | JBool _ => Raise (TypeError "'bool' object is not subscriptable")
  | JNum _ => Raise (TypeError "'int' object is not subscriptable")
  end.

(** ['{}'.format(x)] for an optional string. *)
Definition format (o : option string) : string :=
  match o with
  | Some s => s
  | None => "None"
  end.

(** ** Library functions taken as given

    Functions of the Python standard library that the code calls and
    whose implementation is not part of the repository. *)
Class Library : Type := {
  (** [json.loads]; [None] stands for the exception it raises. *)
  json_loads : string -> option json;
  (** The exception that [json.loads] raises on a text it does not
      decode: a [ValueError] ([json.JSONDecodeError]) for a text that
      is not JSON, a [RecursionError] for one nested too deeply. *)
  json_loads_error : string -> exn;
  (** Parser of RFC 3339 UTC timestamps, in seconds. *)
  parse_rfc3339 : string -> option Z;
  (** Extraction of the target service-account email from an
      impersonation URL; [None] when the URL has not the expected shape. *)
  target_principal : string -> option string;
}.

(** ** The credential-source configuration

    [credential_source] as documented in the external-account file
    format:
    [{file|url, headers?, format?: {type, subject_token_field_name?}}].
    An absent key is [None]. *)
Module source.
Record format_t : Type := {
  type : option string;
  subject_token_field_name : option string;
}.

Record t : Type := {
  file : option string;
  url : option string;
  headers : option (list (string * string));
  format : option format_t;
}.

(** The empty dictionary [{}], which [format or {}] falls back to. *)
Definition empty_format : format_t :=
  {| type := None; subject_token_field_name := None |}.
End source.

(** ** The HTTP capability

    The plain transport consumed by the credential:
    [send(method, url, headers, body) -> status, body]. *)
Module http.

(** Modelled from the spec: the body of a request sent through the
    missing plain transport (section 6): none, a form, or a JSON
    document. *)
Inductive body : Type :=
| NoBody
| FormBody (fields : list (string * string))
| JsonBody (doc : json).

(** Modelled from the spec: a request sent through the missing plain
    transport (sections 1 and 6).  [basic_auth], when present, is sent
    as the header [Authorization: Basic base64(id:secret)]. *)
Record Request : Type := {
  method : string;
  url : string;
  basic_auth : option (string * string);
  headers : list (string * string);
  payload : body;
}.

(** Modelled from the spec: a response of the missing plain transport
    (sections 1 and 6).  The body is its decoded JSON document, [None]
    when the payload is not JSON. *)
Record Response : Type := {
  status : Z;
  data : option json;
}.

(** [http_client.OK]. *)
Definition OK : Z := 200.

(** Modelled from the spec: the missing plain transport (section 1),
    which answers a request or fails with an exception. *)
Definition transport : Type := Request -> result Response.
End http.

(** ** [google.auth.external_account] *)
Module external_account.

(** Modelled from the spec: the external-account credential of
    [google/auth/external_account.py], which is not among the source
    files; the fields are those of the spec's data model (section 3). *)
Record Credentials : Type := {
  audience : string;
  subjectTokenType : string;
  tokenExchangeURL : string;
  credentialSource : option source.t;
  impersonationURL : option string;
  clientId : option string;
  clientSecret : option string;
  scopes : list string;
  quotaProjectId : option string;
  accessToken : option string;
  expiry : option Z;
  cachedProjectId : option string;
}.

(** Modelled from the spec: the last step of [refresh] in the missing
    [external_account.py], which stores [accessToken] and [expiry]
    (section 4.5). *)
Definition store (c : Credentials) (tok : string) (exp : Z) : Credentials :=
  {| audience := audience c;
     subjectTokenType := subjectTokenType c;
     tokenExchangeURL := tokenExchangeURL c;
     credentialSource := credentialSource c;
     impersonationURL := impersonationURL c;
     clientId := clientId c;
     clientSecret := clientSecret c;
     scopes := scopes c;
     quotaProjectId := quotaProjectId c;
     accessToken := Some tok;
     expiry := Some exp;
     cachedProjectId := cachedProjectId c |}.

(** Modelled from the spec: the grant-type constant of the missing
    token-exchange client (section 6). *)
Definition GRANT_TYPE : string :=
  "urn:ietf:params:oauth:grant-type:token-exchange".

(** Modelled from the spec: the requested-token-type constant of the
    missing token-exchange client (section 6). *)
Definition REQUESTED_TOKEN_TYPE : string :=
  "urn:ietf:params:oauth:token-type:access_token".

(** Modelled from the spec: the broad scope that the missing
    token-exchange client requests when an impersonation hop follows
    (section 4.2); its value is the one the tests expect. *)
Definition IAM_SCOPE : string := "https://www.googleapis.com/auth/iam".

Section WithLibrary.
Context `{Library}.

(** Modelled from the spec: the constructor of the missing
    [external_account.Credentials] (sections 3 and 4.3).  The
    impersonation URL is checked eagerly; no token is held yet. *)
Definition __init__ (audience subject_token_type token_url : string)
    (credential_source : option source.t)
    (service_account_impersonation_url client_id client_secret
       quota_project_id : option string)
    (scopes : option (list string)) : result Credentials :=
  let c :=
    {| audience := audience;
       subjectTokenType := subject_token_type;
       tokenExchangeURL := token_url;
       credentialSource := credential_source;
       impersonationURL := service_account_impersonation_url;
       clientId := client_id;
       clientSecret := client_secret;
       scopes := default [] scopes;
       quotaProjectId := quota_project_id;
       accessToken := None;
       expiry := None;
       cachedProjectId := None |} in
  match service_account_impersonation_url with
  | None => Return c
  | Some u =>
      match target_principal u with
      | Some _ => Return c
      | None =>
          Raise (RefreshError
            "Unable to determine target principal from service account impersonation URL.")
      end
  end.

(** Modelled from the spec: the [scope] field of the missing
    token-exchange call (section 4.2): the caller's scopes, or the
    impersonation scope when an impersonation hop follows. *)
Definition exchange_scope (c : Credentials) : list (string * string) :=
  match impersonationURL c with
  | Some _ => [("scope", IAM_SCOPE)]
  | None =>
      match scopes c with
      | [] => []
      | l => [("scope", String.concat " " l)]
      end
  end.

(** Modelled from the spec: the request of the missing token-exchange
    call (sections 4.2 and 6). *)
Definition exchange_request (c : Credentials) (subject_token : string)
    : http.Request :=
  {| http.method := "POST";
     http.url := tokenExchangeURL c;
     http.basic_auth :=
       match clientId c, clientSecret c with
       | Some id, Some secret => Some (id, secret)
       | _, _ => None
       end;
     http.headers := [("Content-Type", "application/x-www-form-urlencoded")];
     http.payload :=
       http.FormBody
         ([("grant_type", GRANT_TYPE);
           ("audience", audience c);
           ("requested_token_type", REQUESTED_TOKEN_TYPE);
           ("subject_token", subject_token);
           ("subject_token_type", subjectTokenType c)]
          ++ exchange_scope c) |}.

(** Modelled from the spec: reading a string field of a response body
    in the missing exchange and impersonation clients (section 6). *)
Definition str_field (k : string) (doc : option json) : option string :=
  match doc with
  | Some (JObj items) =>
      match assoc k items with
      | Some (JStr s) => Some s
      | _ => None
      end
  | _ => None
  end.

(** Modelled from the spec: reading an integer field of a response
    body in the missing token-exchange client (section 6). *)
Definition int_field (k : string) (doc : option json) : option Z :=
  match doc with
  | Some (JObj items) =>
      match assoc k items with
      | Some (JNum n) => Some n
      | _ => None
      end
  | _ => None
  end.

(** Modelled from the spec: the message of the OAuth-protocol error of
    the missing token-exchange client, which carries [error],
    [error_description] and [error_uri] verbatim (section 4.2); its
    layout is the one the tests match. *)
Definition oauth_message (doc : option json) : string :=
  "Error code " +:+ default "" (str_field "error" doc)
    +:+ ": " +:+ default "" (str_field "error_description" doc)
    +:+ " - " +:+ default "" (str_field "error_uri" doc).

(** Modelled from the spec: the missing token-exchange call (section
    4.2).  It returns the STS access token and its expiry,
    [now + expires_in]; a response other than 200 is an OAuth-protocol
    error, a malformed success body a transport error. *)
Definition exchange (c : Credentials) (request : http.transport)
    (now : Z) (subject_token : string) : result (string * Z) :=
  response ← request (exchange_request c subject_token);
  if negb (http.status response =? http.OK)
  then Raise (OAuthError (oauth_message (http.data response)))
  else
    match str_field "access_token" (http.data response),
          int_field "expires_in" (http.data response) with
    | Some tok, Some expires_in => Return (tok, now + expires_in)
    | _, _ => Raise (TransportError "malformed token-exchange response")
    end.

(** Modelled from the spec: the request of the missing impersonation
    call (sections 4.3 and 6). *)
Definition impersonation_request (c : Credentials) (u sts_token : string)
    : http.Request :=
  {| http.method := "POST";
     http.url := u;
     http.basic_auth := None;
     http.headers :=
       [("Content-Type", "application/json");
        ("authorization", "Bearer " +:+ sts_token)]
       ++ match quotaProjectId c with
          | Some q => [("x-goog-user-project", q)]
          | None => []
          end;
     http.payload :=
       http.JsonBody
         (JObj [("delegates", JNull);
                ("scope", JArr (map JStr (scopes c)));
                ("lifetime", JStr "3600s")]) |}.

(** Modelled from the spec: the missing impersonation call (section
    4.3).  It returns the impersonated access token and the absolute
    expiry read from [expireTime]; a response other than 200 is the
    [RefreshError] with the fixed message. *)
Definition impersonate (c : Credentials) (request : http.transport)
    (u sts_token : string) : result (string * Z) :=
  response ← request (impersonation_request c u sts_token);
  if negb (http.status response =? http.OK)
  then Raise (RefreshError "Unable to acquire impersonated credentials")
  else
    match str_field "accessToken" (http.data response),
          str_field "expireTime" (http.data response) ≫= parse_rfc3339 with
    | Some tok, Some exp => Return (tok, exp)
    | _, _ => Raise (TransportError "malformed impersonation response")
    end.

(** Modelled from the spec: how the missing [refresh] surfaces a
    failure of one of its steps.  A lower-layer failure reaches the
    caller as a refresh failure, an OAuth-protocol error verbatim
    (sections 2, 4.5 and 7). *)
Definition refresh_failure (e : exn) : exn :=
  match e with
  | RefreshError msg => RefreshError msg
  | OAuthError msg => OAuthError msg
  | TransportError msg => RefreshError msg
  | TimeoutError => RefreshError "timeout"
  | ValueError msg => RefreshError msg
  | KeyError k => RefreshError k
  | TypeError msg => RefreshError msg
  | OSError msg => RefreshError msg
  | ClientError msg => RefreshError msg
  | RecursionError msg => RefreshError msg
  end.

(** Modelled from the spec: [refresh] of the missing
    [external_account.Credentials] (section 4.5).  The
    subject-token retrieval is the variant's own ([retrieve], with
    the variant's state [S]); the token and the expiry are stored
    last, once every step has succeeded. *)
Definition refresh {S : Type}
    (retrieve : S -> http.transport -> result string * S)
    (request : http.transport) (now : Z)
    (self : Credentials * S) : result unit * (Credentials * S) :=
  let '(c, s) := self in
  let '(r, s1) := retrieve s request in
  match r with
  | Raise e => (Raise (refresh_failure e), (c, s1))
  | Return subject_token =>
      match exchange c request now subject_token with
      | Raise e => (Raise (refresh_failure e), (c, s1))
      | Return (sts_token, sts_expiry) =>
          match impersonationURL c with
          | None => (Return tt, (store c sts_token sts_expiry, s1))
          | Some u =>
              match impersonate c request u sts_token with
              | Raise e => (Raise (refresh_failure e), (c, s1))
              | Return (tok, exp) => (Return tt, (store c tok exp, s1))
              end
          end
      end
  end.
End WithLibrary.

Section Freshness.
(** The clock-skew tolerance of [google.auth._helpers]. *)
Variable CLOCK_SKEW : Z.

(** Modelled from the spec: the property [expired] of the missing
    credentials base class (section 4.5). *)
Definition expired (c : Credentials) (now : Z) : bool :=
  match expiry c with
  | Some e => now + CLOCK_SKEW >=? e
  | None => false
  end.

(** Modelled from the spec: the property [valid] of the missing
    credentials base class (section 4.5). *)
Definition valid (c : Credentials) (now : Z) : bool :=
  match accessToken c with
  | Some _ => negb (expired c now)
  | None => false
  end.
End Freshness.
End external_account.

(** ** [google/auth/identity_pool.py] *)
Module identity_pool.

(** What the file system and [urllib] answer. *)
Inductive file_state : Type :=
| Missing
| File (content : string)
| Unreadable (e : exn).

(** [Failed]: [urlopen] raises; [Unread]: [urlopen] returns a
    response whose [read] raises. *)
Inductive url_outcome : Type :=
| Fetched (status : Z) (content : string)
| Failed (e : exn)
| Unread (status : Z) (e : exn).

Record environment : Type := {
  files : string -> file_state;
  urlopen : string -> url_outcome;
}.

(** [class Credentials(external_account.Credentials)]: the inherited
    part and the attributes set by [__init__]. *)
Record Credentials : Type := {
  base : external_account.Credentials;
  _credential_source_file : option string;
  _credential_source_url : option string;
  _credential_source_headers : option (list (string * string));
  _success_codes : list Z;
  _credential_source_format_type : string;
  _credential_source_field_name : option string;
}.

Section WithLibrary.
Context `{Library}.

(** The attributes read from a [credential_source] dictionary
    (lines 101-127). *)
Definition source_attributes (b : external_account.Credentials)
    (cs : source.t) (success_codes : list Z) : result Credentials :=
  let credential_source_format :=
    default source.empty_format (source.format cs) in
  let format_type :=
    if str_truthy (source.type credential_source_format)
    then default "text" (source.type credential_source_format)
    else "text" in
  if negb (bool_decide (format_type ∈ ["text"; "json"]))
  then Raise (ValueError
                ("Invalid credential_source format '" +:+ format_type +:+ "'"))
  else
    field_name ←
      (if String.eqb format_type "json"
       then
         match source.subject_token_field_name credential_source_format with
         | None =>
             Raise (ValueError
               "Missing subject_token_field_name for JSON credential_source format")
         | Some name => Return (Some name)
         end
       else Return None);
    Return {| base := b;
              _credential_source_file := source.file cs;
              _credential_source_url := source.url cs;
              _credential_source_headers := source.headers cs;
              _success_codes := success_codes;
              _credential_source_format_type := format_type;
              _credential_source_field_name := field_name |}.

(** [Credentials.__init__].  [credential_source] is [None] when the
    argument is not a dictionary; the object then has neither a file
    nor a url, and its other attributes, which the code leaves
    unset, are never read because construction fails. *)
Definition __init__ (audience subject_token_type token_url : string)
    (credential_source : option source.t)
    (service_account_impersonation_url client_id client_secret
       quota_project_id : option string)
    (scopes : option (list string))
    (success_codes : list Z) : result Credentials :=
  b ← external_account.__init__ audience subject_token_type token_url
        credential_source service_account_impersonation_url client_id
        client_secret quota_project_id scopes;
  self ←
    match credential_source with
    | None =>
        Return {| base := b;
                  _credential_source_file := None;
                  _credential_source_url := None;
                  _credential_source_headers := None;
                  _success_codes := success_codes;
                  _credential_source_format_type := "text";
                  _credential_source_field_name := None |}
    | Some cs => source_attributes b cs success_codes
    end;
  if str_truthy (_credential_source_file self)
     && str_truthy (_credential_source_url self)
  then Raise (ValueError "Ambiguous credential_source")
  else if negb (str_truthy (_credential_source_file self))
          && negb (str_truthy (_credential_source_url self))
  then Raise (ValueError "Missing credential_source")
  else Return self.

Definition _get_file_data (env : environment) (filename : string)
    : result (string * string) :=
  match files env filename with
  | Missing =>
      Raise (RefreshError ("File '" +:+ filename +:+ "' was not found."))
  | File content => Return (content, filename)
  | Unreadable e => Raise e
  end.

Definition _get_url_data (self : Credentials) (env : environment)
    (url : string) : result (string * string) :=
  match urlopen env url with
  | Failed e => Raise e
  | Fetched status content =>
      if negb (bool_decide (status ∈ _success_codes self))
      then Raise (RefreshError ("Url '" +:+ url +:+ "' was not found."))
      else Return (content, url)
  | Unread status e =>
      if negb (bool_decide (status ∈ _success_codes self))
      then Raise (RefreshError ("Url '" +:+ url +:+ "' was not found."))
      else Raise e
  end.

(** Falls through to Python's implicit [return None] when neither
    source is set. *)
Definition _get_token_data (self : Credentials) (env : environment)
    : result (option (string * string)) :=
  match nonempty (_credential_source_file self) with
  | Some filename => Some <$> _get_file_data env filename
  | None =>
      match nonempty (_credential_source_url self) with
      | Some url => Some <$> _get_url_data self env url
      | None => Return None
      end
  end.

Definition loads (content : string) : result json :=
  match json_loads content with
  | Some doc => Return doc
  | None => Raise (json_loads_error content)
  end.

Definition _parse_token_data (token_content : option (string * string))
    (format_type : string) (subject_token_field_name : option string)
    : result json :=
  match token_content with
  | None => Raise (TypeError "cannot unpack non-iterable NoneType object")
  | Some (content, filename) =>
      token ←
        (if String.eqb format_type "text"
         then Return (JStr content)
         else
           match response_data ← loads content;
                 getitem response_data subject_token_field_name with
           | Return token => Return token
           | Raise (KeyError _) | Raise (ValueError _) =>
               Raise (RefreshError
                 ("Unable to parse subject_token from JSON file '"
                    +:+ filename +:+ "' using key '"
                    +:+ format subject_token_field_name +:+ "'"))
           | Raise e => Raise e
           end);
      if negb (truthy token)
      then Raise (RefreshError
                    "Missing subject_token in the credential_source file")
      else Return token
  end.

Definition retrieve_subject_token (self : Credentials) (env : environment)
    : result json :=
  token_content ← _get_token_data self env;
  _parse_token_data token_content
    (_credential_source_format_type self)
    (_credential_source_field_name self).
End WithLibrary.

(** The content that the configured source holds: the file's text, or
    the body fetched from the url with a success status. *)
Definition source_content (self : Credentials) (env : environment)
    (content origin : string) : Prop :=
  (nonempty (_credential_source_file self) = Some origin /\
   files env origin = File content) \/
  (nonempty (_credential_source_file self) = None /\
   nonempty (_credential_source_url self) = Some origin /\
   exists status, urlopen env origin = Fetched status content /\
                  status ∈ _success_codes self).
End identity_pool.

(** ** [google.auth.transport.requests] *)
Module requests.

(** The scoped timing guard [requests.TimeoutGuard], which
    [aiohttp_requests.py] imports and which is not among the source
    files.  Times are integer ticks of the wall clock. *)
Module TimeoutGuard.

(** Modelled from the spec: the state of the missing [TimeoutGuard]
    (section 5): the budget it was given, what is left of it, and the
    time at which the guarded block was entered. *)
Record t : Type := {
  _timeout : option Z;
  remaining_timeout : option Z;
  _start : Z;
}.

(** Modelled from the spec: construction of the missing
    [TimeoutGuard] with an optional budget (section 5). *)
Definition __init__ (timeout : option Z) : t :=
  {| _timeout := timeout; remaining_timeout := timeout; _start := 0 |}.

(** Modelled from the spec: entering the block guarded by the missing
    [TimeoutGuard] (section 5). *)
Definition __enter__ (self : t) (now : Z) : t :=
  {| _timeout := _timeout self;
     remaining_timeout := remaining_timeout self;
     _start := now |}.

(** Modelled from the spec: leaving the block guarded by the missing
    [TimeoutGuard] (section 5).  Without a budget nothing is enforced.
    With one, normal completion decrements the budget by the elapsed
    time, and the timeout error is raised when nothing is left of it;
    an exception of the guarded operation passes through.  The result
    is the guard and the exception that leaves the block, if any. *)
Definition __exit__ (self : t) (exc_value : option exn) (now : Z)
    : t * option exn :=
  match exc_value with
  | Some e => (self, Some e)
  | None =>
      match _timeout self with
      | None => (self, None)
      | Some budget =>
          let remaining := budget - (now - _start self) in
          ({| _timeout := _timeout self;
              remaining_timeout := Some remaining;
              _start := _start self |},
           if remaining <=? 0 then Some TimeoutError else None)
      end
  end.
End TimeoutGuard.
End requests.

(** ** [google/auth/transport/aiohttp_requests.py] *)
Module aiohttp_requests.

Definition _DEFAULT_TIMEOUT : Z := 180.

(** Identity of an [aiohttp.ClientSession] object. *)
Definition session_id : Type := nat.
(** Identity of a [dict] object holding request headers. *)
Definition loc : Type := nat.

(** [aiohttp.ClientResponse]. *)
Record ClientResponse : Type := {
  status : Z;
  headers : gmap string string;
  content : string;
}.

(** One call of [ClientSession.request]. *)
Record http_call : Type := {
  call_session : session_id;
  call_method : string;
  call_url : string;
  call_data : option string;
  call_headers : option (gmap string string);
  call_timeout : option Z;
}.

(** The remote side: what the [n]-th request issued is answered, and
    how long that takes. *)
Record remote : Type := {
  answer : nat -> http_call -> result ClientResponse;
  latency : nat -> http_call -> Z;
}.

(** What the log records: sessions created and closed, entries into
    [AuthorizedSession.request] with the [headers] argument and the
    contents of that dictionary at the time, timing guards with the
    budget they are given, calls of [credentials.before_request] with
    the dictionary they are handed, requests sent, calls of
    [credentials.refresh] made by the session, and the message logged
    before such a call. *)
Inductive event : Type :=
| SessionCreated (s : session_id)
| SessionClosed (s : session_id)
| Entered (attempt : Z) (headers : option loc)
    (contents : option (gmap string string)) (max_allowed_time : option Z)
| Guard (budget : option Z)
| BeforeRequest (request_headers : loc) (contents : gmap string string)
| Sent (c : http_call)
| Refresh
| Info (status attempt max_refresh_attempts : Z).

(** The mutable surroundings of a call: the wall clock, the
    [ClientSession] objects created so far (ids below [sessions]), the
    number of requests issued, the header dictionaries, and a log. *)
Record world : Type := {
  clock : Z;
  sessions : nat;
  issued : nat;
  heap : gmap loc (gmap string string);
  log : list event;
}.

Definition emit (e : event) (w : world) : world :=
  {| clock := clock w; sessions := sessions w; issued := issued w;
     heap := heap w; log := log w ++ [e] |}.

Definition tick (d : Z) (w : world) : world :=
  {| clock := clock w + d; sessions := sessions w; issued := issued w;
     heap := heap w; log := log w |}.

Definition poke (l : loc) (d : gmap string string) (w : world) : world :=
  {| clock := clock w; sessions := sessions w; issued := issued w;
     heap := <[l := d]> (heap w); log := log w |}.

(** [aiohttp.ClientSession()]. *)
Definition new_session (w : world) : session_id * world :=
  (sessions w,
   emit (SessionCreated (sessions w))
     {| clock := clock w; sessions := S (sessions w); issued := issued w;
        heap := heap w; log := log w |}).

(** A new [dict] object with the given contents. *)
Definition new_dict (d : gmap string string) (w : world) : loc * world :=
  let l := fresh (dom (heap w)) in (l, poke l d w).

(** [session.request(method, url, data=..., headers=..., timeout=...)]. *)
Definition session_request (net : remote) (c : http_call) (w : world)
    : result ClientResponse * world :=
  (answer net (issued w) c,
   emit (Sent c)
     (tick (latency net (issued w) c)
        {| clock := clock w; sessions := sessions w; issued := S (issued w);
           heap := heap w; log := log w |})).

(** [class _Response(transport.Response)]. *)
Module _Response.
Record t : Type := { _response : ClientResponse }.
Definition __init__ (response : ClientResponse) : t :=
  {| _response := response |}.
Definition status (self : t) : Z := aiohttp_requests.status (_response self).
Definition headers (self : t) : gmap string string :=
  aiohttp_requests.headers (_response self).
Definition data (self : t) : string := content (_response self).
End _Response.

(** [class Request(transport.Request)]. *)
Module Request.
Record t : Type := { session : option session_id }.

(** The [session] argument is not stored. *)
Definition __init__ (session : option session_id) : t :=
  {| session := None |}.

Definition __call__ (net : remote) (self : t) (url method : string)
    (body : option string) (headers : option (gmap string string))
    (timeout : option Z) (w : world)
    : result _Response.t * (t * world) :=
  let '(s, self, w) :=
    match session self with
    | None =>
        let '(s, w) := new_session w in (s, {| session := Some s |}, w)
    | Some s => (s, self, w)
    end in
  let '(r, w) :=
    session_request net
      {| call_session := s; call_method := method; call_url := url;
         call_data := body; call_headers := headers;
         call_timeout := timeout |} w in
  match r with
  | Return response => (Return (_Response.__init__ response), (self, w))
  | Raise (ClientError msg) => (Raise (TransportError msg), (self, w))
  | Raise TimeoutError => (Raise (TransportError "TimeoutError"), (self, w))
  | Raise e => (Raise e, (self, w))
  end.
End Request.

(** [auth_request]: the adapter itself, or
    [functools.partial(adapter, timeout=timeout)]. *)
Record auth_request_t : Type := {
  adapter : Request.t;
  bound_timeout : option Z;
}.

(** What a method of the credentials did: how long it took, the state
    it left behind, and the exception it raised, if any. *)
Record effect (A : Type) : Type := {
  elapsed : Z;
  after : A;
  raised : option exn;
}.
Arguments elapsed {A} _.
Arguments after {A} _.
Arguments raised {A} _.

(** The interface of [google.auth.credentials_async.Credentials] that
    the session uses.  [before_request] may change the credentials and
    the header dictionary it is given; [refresh] may change the
    credentials.  Both are given the time at which they start. *)
Class Credentials (C : Type) : Type := {
  before_request :
    C -> auth_request_t -> string -> string -> gmap string string -> Z ->
    effect (C * gmap string string);
  refresh : C -> auth_request_t -> Z -> effect C;
}.

(** [class AuthorizedSession(aiohttp.ClientSession)].  The model
    follows one logical call at a time, so [_refresh_lock] is free
    whenever it is acquired and [run_in_executor] amounts to calling
    [credentials.refresh]. *)
Module AuthorizedSession.
Record t (C : Type) : Type := {
  client_session : session_id;
  credentials : C;
  _refresh_status_codes : list Z;
  _max_refresh_attempts : Z;
  _refresh_timeout : option Z;
  _is_mtls : bool;
  _auth_request : option Request.t;
  _auth_request_session : option session_id;
}.
Arguments client_session {C} _.
Arguments credentials {C} _.
Arguments _refresh_status_codes {C} _.
Arguments _max_refresh_attempts {C} _.
Arguments _refresh_timeout {C} _.
Arguments _is_mtls {C} _.
Arguments _auth_request {C} _.
Arguments _auth_request_session {C} _.

Section WithCredentials.
Context {C : Type} `{Credentials C}.
Variable net : remote.

Definition __init__ (credentials : C) (refresh_status_codes : list Z)
    (max_refresh_attempts : Z) (refresh_timeout : option Z)
    (auth_request : option Request.t) (w : world) : t C * world :=
  let '(s, w) := new_session w in
  ({| client_session := s;
      credentials := credentials;
      _refresh_status_codes := refresh_status_codes;
      _max_refresh_attempts := max_refresh_attempts;
      _refresh_timeout := refresh_timeout;
      _is_mtls := false;
      _auth_request := auth_request;
      _auth_request_session := None |}, w).

Definition state : Type := t C * world.

Definition set_credentials (c : C) (self : t C) : t C :=
  {| client_session := client_session self;
     credentials := c;
     _refresh_status_codes := _refresh_status_codes self;
     _max_refresh_attempts := _max_refresh_attempts self;
     _refresh_timeout := _refresh_timeout self;
     _is_mtls := _is_mtls self;
     _auth_request := _auth_request self;
     _auth_request_session := _auth_request_session self |}.

(** [async with aiohttp.ClientSession() as self._auth_request_session:]
    followed by [self._auth_request = Request(self._auth_request_session)]. *)
Definition open_auth_request (st : state) : session_id * Request.t * state :=
  let '(self, w) := st in
  let '(s, w) := new_session w in
  let auth_request := Request.__init__ (Some s) in
  (s, auth_request,
   ({| client_session := client_session self;
       credentials := credentials self;
       _refresh_status_codes := _refresh_status_codes self;
       _max_refresh_attempts := _max_refresh_attempts self;
       _refresh_timeout := _refresh_timeout self;
       _is_mtls := _is_mtls self;
       _auth_request := Some auth_request;
       _auth_request_session := Some s |}, w)).

(** Leaving the [async with] block closes the session. *)
Definition close_auth_session (s : session_id) (st : state) : state :=
  (st.1, emit (SessionClosed s) st.2).

(** [headers.copy() if headers is not None else {}]. *)
Definition copy_headers (headers : option loc) (st : state) : loc * state :=
  let '(self, w) := st in
  let contents :=
    match headers with
    | Some l => default ∅ (heap w !! l)
    | None => ∅
    end in
  let '(l, w) := new_dict contents w in
  (l, (self, w)).

(** [self._auth_request if timeout is None else
     functools.partial(self._auth_request, timeout=timeout)]. *)
Definition bind_timeout (adapter : Request.t) (timeout : option Z)
    : auth_request_t :=
  {| adapter := adapter; bound_timeout := timeout |}.

(** [with requests.TimeoutGuard(budget, asyncio.TimeoutError) as guard: body]. *)
Definition guarded {A : Type} (budget : option Z)
    (body : state -> result A * state) (st : state)
    : result (A * requests.TimeoutGuard.t) * state :=
  let st := (st.1, emit (Guard budget) st.2) in
  let guard :=
    requests.TimeoutGuard.__enter__
      (requests.TimeoutGuard.__init__ budget) (clock st.2) in
  let '(r, st) := body st in
  match r with
  | Raise e =>
      match requests.TimeoutGuard.__exit__ guard (Some e) (clock st.2) with
      | (_, Some e') => (Raise e', st)
      | (_, None) => (Raise e, st)
      end
  | Return a =>
      match requests.TimeoutGuard.__exit__ guard None (clock st.2) with
      | (_, Some e') => (Raise e', st)
      | (guard, None) => (Return (a, guard), st)
      end
  end.

(** [await self.credentials.before_request(auth_request, method,
     url, request_headers)]. *)
Definition call_before_request (auth_request : auth_request_t)
    (method url : string) (request_headers : loc) (st : state)
    : result unit * state :=
  let '(self, w) := st in
  let eff :=
    before_request (credentials self) auth_request method url
      (default ∅ (heap w !! request_headers)) (clock w) in
  let w :=
    emit (BeforeRequest request_headers
            (default ∅ (heap w !! request_headers)))
      (tick (elapsed eff) (poke request_headers (after eff).2 w)) in
  (match raised eff with Some e => Raise e | None => Return tt end,
   (set_credentials (after eff).1 self, w)).

(** [await super(AuthorizedSession, self).request(method, url,
     data=data, headers=request_headers, timeout=timeout)]. *)
Definition super_request (method url : string) (data : option string)
    (request_headers : loc) (timeout : option Z) (st : state)
    : result ClientResponse * state :=
  let '(self, w) := st in
  let '(r, w) :=
    session_request net
      {| call_session := client_session self;
         call_method := method;
         call_url := url;
         call_data := data;
         call_headers := Some (default ∅ (heap w !! request_headers));
         call_timeout := timeout |} w in
  (r, (self, w)).

(** [async with self._refresh_lock: await self._loop.run_in_executor(
     None, self.credentials.refresh, auth_request)]. *)
Definition call_refresh (auth_request : auth_request_t) (st : state)
    : result unit * state :=
  let '(self, w) := st in
  let eff := refresh (credentials self) auth_request (clock w) in
  (match raised eff with Some e => Raise e | None => Return tt end,
   (set_credentials (after eff) self, emit Refresh (tick (elapsed eff) w))).

(** [AuthorizedSession.request].  [headers] is the caller's
    dictionary object, if any; [fuel] bounds the depth of the
    recursion. *)
Fixpoint request_rec (fuel : nat) (method url : string)
    (data : option string) (headers : option loc)
    (max_allowed_time timeout : option Z)
    (_credential_refresh_attempt : Z) (st : state)
    : option (result ClientResponse * state) :=
  match fuel with
  | O => None
  | S fuel =>
      let st :=
        (st.1,
         emit (Entered _credential_refresh_attempt headers
                 (headers ≫= (heap st.2 !!.)) max_allowed_time) st.2) in
      let '(session, auth_request, st) := open_auth_request st in
      let '(request_headers, st) := copy_headers headers st in
      let auth_request := bind_timeout auth_request timeout in
      let remaining_time := max_allowed_time in
      match guarded remaining_time
              (call_before_request auth_request method url request_headers)
              st with
      | (Raise e, st) => Some (Raise e, close_auth_session session st)
      | (Return (_, guard), st) =>
      match guarded remaining_time
              (super_request method url data request_headers timeout)
              st with
      | (Raise e, st) => Some (Raise e, close_auth_session session st)
      | (Return (response, guard), st) =>
          let remaining_time := requests.TimeoutGuard.remaining_timeout guard in
          if bool_decide (status response ∈ _refresh_status_codes st.1)
             && (_credential_refresh_attempt <? _max_refresh_attempts st.1)
          then
            let st :=
              (st.1,
               emit (Info (status response)
                       (_credential_refresh_attempt + 1)
                       (_max_refresh_attempts st.1)) st.2) in
            match guarded remaining_time (call_refresh auth_request) st with
            | (Raise e, st) => Some (Raise e, close_auth_session session st)
            | (Return (_, guard), st) =>
                let remaining_time :=
                  requests.TimeoutGuard.remaining_timeout guard in
                match request_rec fuel method url data headers
                        remaining_time timeout
                        (_credential_refresh_attempt + 1) st with
                | Some (r, st) => Some (r, close_auth_session session st)
                | None => None
                end
            end
          else Some (Return response, close_auth_session session st)
      end
      end
  end.

(** The recursion stops once the attempt counter has reached
    [_max_refresh_attempts], which gives the depth needed. *)
Definition depth (self : t C) (_credential_refresh_attempt : Z) : nat :=
  S (Z.to_nat (_max_refresh_attempts self - _credential_refresh_attempt)).

Definition request (method url : string) (data : option string)
    (headers : option loc) (max_allowed_time timeout : option Z)
    (_credential_refresh_attempt : Z) (st : state)
    : option (result ClientResponse * state) :=
  request_rec (depth st.1 _credential_refresh_attempt) method url data
    headers max_allowed_time timeout _credential_refresh_attempt st.
End WithCredentials.
End AuthorizedSession.
End aiohttp_requests.

(** ** Reading the log of a call *)
Module trace.
Import aiohttp_requests.

Definition is_Sent (e : event) : bool :=
  match e with Sent _ => true | _ => false end.

Definition is_Refresh (e : event) : bool :=
  match e with Refresh => true | _ => false end.

Fixpoint count (p : event -> bool) (evs : list event) : nat :=
  match evs with
  | [] => O
  | e :: evs => ((if p e then 1 else 0) + count p evs)%nat
  end.

(** Calls of the wrapped [ClientSession.request]. *)
Definition sends (evs : list event) : nat := count is_Sent evs.

(** Forced refreshes, that is, calls of [credentials.refresh] made by
    the session itself. *)
Definition refreshes (evs : list event) : nat := count is_Refresh evs.

(** The budgets that the timing guards were given, in order. *)
Fixpoint budgets (evs : list event) : list (option Z) :=
  match evs with
  | [] => []
  | Guard b :: evs => b :: budgets evs
  | _ :: evs => budgets evs
  end.

(** The [headers] argument of every entry into [request], with the
    contents of that dictionary at the time. *)
Fixpoint entries (evs : list event)
    : list (option loc * option (gmap string string)) :=
  match evs with
  | [] => []
  | Entered _ h c _ :: evs => (h, c) :: entries evs
  | _ :: evs => entries evs
  end.

(** The dictionaries that were handed to [before_request], with
    their contents at the time. *)
Fixpoint applied (evs : list event) : list (loc * gmap string string) :=
  match evs with
  | [] => []
  | BeforeRequest l c :: evs => (l, c) :: applied evs
  | _ :: evs => applied evs
  end.

(** [w'] extends [w] by the events [evs] and by [n] requests, and
    leaves every dictionary of [w] other than those in [touched] as
    it was. *)
Record extends (w w' : world) (evs : list event) (n : nat)
    (touched : list loc) : Prop := {
  extends_log : log w' = log w ++ evs;
  extends_issued : issued w' = (issued w + n)%nat;
  extends_heap :
    forall l, l ∉ touched -> is_Some (heap w !! l) -> heap w' !! l = heap w !! l;
  extends_dom : forall l, is_Some (heap w !! l) -> is_Some (heap w' !! l);
}.

(** The decision to refresh and retry (line 284). *)
Definition retries {C : Type} (self : AuthorizedSession.t C)
    (response : ClientResponse) (attempt : Z) : bool :=
  bool_decide (status response ∈ AuthorizedSession._refresh_status_codes self)
  && (attempt <? AuthorizedSession._max_refresh_attempts self).

(** Credentials whose methods never raise. *)
Definition quiet (C : Type) `{Credentials C} : Prop :=
  (forall c ar method url h now,
     raised (before_request c ar method url h now) = None) /\
  (forall c ar now, raised (refresh c ar now) = None).

(** A wrapped call that always answers. *)
Definition answering (net : remote) : Prop :=
  forall n call, exists response, answer net n call = Return response.

(** The configuration of a session, which a call does not change. *)
Definition same_session {C : Type} (s s' : AuthorizedSession.t C) : Prop :=
  AuthorizedSession.client_session s' = AuthorizedSession.client_session s /\
  AuthorizedSession._refresh_status_codes s'
  = AuthorizedSession._refresh_status_codes s /\
  AuthorizedSession._max_refresh_attempts s'
  = AuthorizedSession._max_refresh_attempts s.

(** The [ClientSession] objects created, in order. *)
Fixpoint created (evs : list event) : list session_id :=
  match evs with
  | [] => []
  | SessionCreated s :: evs => s :: created evs
  | _ :: evs => created evs
  end.

(** The [ClientSession] objects closed, in order. *)
Fixpoint closed (evs : list event) : list session_id :=
  match evs with
  | [] => []
  | SessionClosed s :: evs => s :: closed evs
  | _ :: evs => closed evs
  end.

(** The requests sent, in order. *)
Fixpoint sent (evs : list event) : list http_call :=
  match evs with
  | [] => []
  | Sent c :: evs => c :: sent evs
  | _ :: evs => sent evs
  end.

(** How a call threads the credentials.  Each pass applies
    [before_request]; a forced refresh applies [refresh] to what
    [before_request] left, and the next pass starts from what
    [refresh] left.  [threaded ar method url b k c c'] says that [c']
    results from [c] by [b] calls of [before_request] and [k] calls
    of [refresh] in that order of alternation, the first call being
    one of [before_request] and each one being given [ar]. *)
Inductive threaded {C : Type} `{Credentials C} (ar : auth_request_t)
    (method url : string) : nat -> nat -> C -> C -> Prop :=
| threaded_pass c h now :
    threaded ar method url 1 0 c
      (after (before_request c ar method url h now)).1
| threaded_refresh c h now now' :
    threaded ar method url 1 1 c
      (after (refresh (after (before_request c ar method url h now)).1
                ar now'))
| threaded_retry b k c c' h now now' :
    threaded ar method url b k
      (after (refresh (after (before_request c ar method url h now)).1
                ar now')) c' ->
    threaded ar method url (S b) (S k) c c'.

(** Two sessions that hold the same credentials and agree on what
    [same_session] compares; they may differ in [_refresh_timeout],
    [_is_mtls], [_auth_request] and [_auth_request_session]. *)
Definition same_settings {C : Type} (s s' : AuthorizedSession.t C) : Prop :=
  same_session s s' /\
  AuthorizedSession.credentials s' = AuthorizedSession.credentials s.
End trace.

(** ** A caller of the request adapter *)
Module caller.
Import aiohttp_requests.

(** The arguments of one call of a [Request] adapter. *)
Record call_args : Type := {
  arg_url : string;
  arg_method : string;
  arg_body : option string;
  arg_headers : option (gmap string string);
  arg_timeout : option Z;
}.

(** The request that [session.request] is given for these arguments. *)
Definition http_call_of (s : session_id) (a : call_args) : http_call :=
  {| call_session := s; call_method := arg_method a; call_url := arg_url a;
     call_data := arg_body a; call_headers := arg_headers a;
     call_timeout := arg_timeout a |}.

(** A caller that makes the given calls one after the other through
    the same adapter object, whatever their outcomes. *)
Fixpoint calls (net : remote) (self : Request.t) (reqs : list call_args)
    (w : world) : list (result _Response.t) * (Request.t * world) :=
  match reqs with
  | [] => ([], (self, w))
  | a :: reqs =>
      let '(r, (self, w)) :=
        Request.__call__ net self (arg_url a) (arg_method a) (arg_body a)
          (arg_headers a) (arg_timeout a) w in
      let '(rs, st) := calls net self reqs w in
      (r :: rs, st)
  end.
End caller.

(** ** Sample instances

    Concrete libraries, credentials and servers on which the
    definitions above are run in the examples. *)
Module samples.

(** The double-quote character. *)
Definition dq : string := String "034" EmptyString.

(** The document [{"token": "abc"}]. *)
Definition token_document : string :=
  "{" +:+ dq +:+ "token" +:+ dq +:+ ": " +:+ dq +:+ "abc" +:+ dq +:+ "}".

(** [json.loads] on the documents used in the examples; every other
    text used there is not JSON. *)
Definition loads_table (s : string) : option json :=
  if String.eqb s token_document then Some (JObj [("token", JStr "abc")])
  else if String.eqb s "[]" then Some (JArr [])
  else if String.eqb s "{}" then Some (JObj [])
  else None.

Definition digit (a : ascii) : option Z :=
  let n := Z.of_N (N_of_ascii a) - 48 in
  if (0 <=? n) && (n <=? 9) then Some n else None.

Definition two (a b : ascii) : option Z :=
  x ← digit a; y ← digit b; Some (10 * x + y).

(** Days between 1970-01-01 and a date of the proleptic Gregorian
    calendar. *)
Definition days_from_civil (y m d : Z) : Z :=
  let y := if m <=? 2 then y - 1 else y in
  let era := y / 400 in
  let yoe := y - era * 400 in
  let doy := (153 * (if 2 <? m then m - 3 else m + 9) + 2) / 5 + d - 1 in
  let doe := yoe * 365 + yoe / 4 - yoe / 100 + doy in
  era * 146097 + doe - 719468.

(** Seconds since the epoch of a timestamp [YYYY-MM-DDTHH:MM:SSZ]. *)
Definition timestamp (s : string) : option Z :=
  match list_ascii_of_string s with
  | [y1; y2; y3; y4; "-"; m1; m2; "-"; d1; d2; "T";
     h1; h2; ":"; n1; n2; ":"; s1; s2; "Z"]%char =>
      yh ← two y1 y2; yl ← two y3 y4; m ← two m1 m2; d ← two d1 d2;
      h ← two h1 h2; n ← two n1 n2; sec ← two s1 s2;
      if (1 <=? m) && (m <=? 12) && (1 <=? d) && (d <=? 31)
         && (h <=? 23) && (n <=? 59) && (sec <=? 59)
      then Some (days_from_civil (100 * yh + yl) m d * 86400
                 + h * 3600 + n * 60 + sec)
      else None
  | _ => None
  end.

(** The part of [s] after the first occurrence of [marker]. *)
Fixpoint after_marker (marker s : string) : option string :=
  if String.prefix marker s
  then Some (String.substring (String.length marker) (String.length s) s)
  else match s with
       | EmptyString => None
       | String _ s' => after_marker marker s'
       end.

(** The part of [s] before the first occurrence of [marker]. *)
Fixpoint before_marker (marker s : string) : option string :=
  if String.prefix marker s then Some EmptyString
  else match s with
       | EmptyString => None
       | String a s' => String a <$> before_marker marker s'
       end.

Definition service_account (u : string) : option string :=
  nonempty (after_marker "/serviceAccounts/" u
              ≫= before_marker ":generateAccessToken").

#[export] Instance library : Library := {
  json_loads := loads_table;
  json_loads_error _ := ValueError "Expecting value";
  parse_rfc3339 := timestamp;
  target_principal := service_account;
}.

(** A file source in JSON format, the token being under ["token"]. *)
Definition json_file_source : source.t :=
  {| source.file := Some "/var/run/secrets/goog.id/token";
     source.url := None;
     source.headers := None;
     source.format :=
       Some {| source.type := Some "json";
               source.subject_token_field_name := Some "token" |} |}.

(** A file source without a [format] entry. *)
Definition plain_file_source : source.t :=
  {| source.file := Some "/var/run/secrets/goog.id/token";
     source.url := None;
     source.headers := None;
     source.format := None |}.

(** Sources that [__init__] rejects. *)
Definition both_sources : source.t :=
  {| source.file := Some "/var/run/secrets/goog.id/token";
     source.url := Some "http://localhost/token";
     source.headers := None;
     source.format := None |}.

Definition no_source : source.t :=
  {| source.file := None; source.url := Some "";
     source.headers := None; source.format := None |}.

Definition json_without_field : source.t :=
  {| source.file := Some "/var/run/secrets/goog.id/token";
     source.url := None;
     source.headers := None;
     source.format :=
       Some {| source.type := Some "json";
               source.subject_token_field_name := None |} |}.

(** An environment in which every file holds [content] and no url can
    be fetched. *)
Definition holding (content : string) : identity_pool.environment :=
  {| identity_pool.files _ := identity_pool.File content;
     identity_pool.urlopen _ := identity_pool.Failed (OSError "unreachable") |}.

Definition AUDIENCE : string :=
  "//iam.googleapis.com/projects/123456/locations/global/workloadIdentityPools/POOL_ID/providers/PROVIDER_ID".
Definition SUBJECT_TOKEN_TYPE : string := "urn:ietf:params:oauth:token-type:jwt".
Definition TOKEN_URL : string := "https://sts.googleapis.com/v1/token".

Definition pool (cs : source.t) : result identity_pool.Credentials :=
  identity_pool.__init__ AUDIENCE SUBJECT_TOKEN_TYPE TOKEN_URL (Some cs)
    None None None None None [200].

(** The credential that [pool] constructs from a file source. *)
Definition file_pool (cs : source.t) (format_type : string)
    (field_name : option string) : identity_pool.Credentials :=
  {| identity_pool.base :=
       {| external_account.audience := AUDIENCE;
          external_account.subjectTokenType := SUBJECT_TOKEN_TYPE;
          external_account.tokenExchangeURL := TOKEN_URL;
          external_account.credentialSource := Some cs;
          external_account.impersonationURL := None;
          external_account.clientId := None;
          external_account.clientSecret := None;
          external_account.scopes := [];
          external_account.quotaProjectId := None;
          external_account.accessToken := None;
          external_account.expiry := None;
          external_account.cachedProjectId := None |};
     identity_pool._credential_source_file :=
       Some "/var/run/secrets/goog.id/token";
     identity_pool._credential_source_url := None;
     identity_pool._credential_source_headers := None;
     identity_pool._success_codes := [200];
     identity_pool._credential_source_format_type := format_type;
     identity_pool._credential_source_field_name := field_name |}.

(** [CredentialsImpl] of [tests/test_external_account.py]: the
    subject token is numbered by a counter. *)
Definition counting_source (counter : nat) (_ : http.transport)
    : result string * nat :=
  (Return ("subject_token_" +:+ pretty counter), S counter).

Definition SERVICE_ACCOUNT_IMPERSONATION_URL : string :=
  "https://us-east1-iamcredentials.googleapis.com/v1/projects/-/serviceAccounts/service-1234@service-name.iam.gserviceaccount.com:generateAccessToken".

(** [make_credentials] of [tests/test_external_account.py]. *)
Definition make_credentials (service_account_impersonation_url : option string)
    : result external_account.Credentials :=
  external_account.__init__ AUDIENCE SUBJECT_TOKEN_TYPE TOKEN_URL
    (Some plain_file_source) service_account_impersonation_url
    None None None (Some ["scope1"; "scope2"]).

(** The credential that [make_credentials] constructs, holding the
    given token and expiry. *)
Definition credentials_with (impersonation_url token : option string)
    (expiry : option Z) : external_account.Credentials :=
  {| external_account.audience := AUDIENCE;
     external_account.subjectTokenType := SUBJECT_TOKEN_TYPE;
     external_account.tokenExchangeURL := TOKEN_URL;
     external_account.credentialSource := Some plain_file_source;
     external_account.impersonationURL := impersonation_url;
     external_account.clientId := None;
     external_account.clientSecret := None;
     external_account.scopes := ["scope1"; "scope2"];
     external_account.quotaProjectId := None;
     external_account.accessToken := token;
     external_account.expiry := expiry;
     external_account.cachedProjectId := None |}.

(** [SUCCESS_RESPONSE] of the tests, with the given lifetime. *)
Definition SUCCESS_RESPONSE (expires_in : Z) : json :=
  JObj [("access_token", JStr "ACCESS_TOKEN");
        ("issued_token_type", JStr "urn:ietf:params:oauth:token-type:access_token");
        ("token_type", JStr "Bearer");
        ("expires_in", JNum expires_in);
        ("scope", JStr "scope1 scope2")].

Definition ERROR_RESPONSE : json :=
  JObj [("error", JStr "invalid_request");
        ("error_description", JStr "Invalid subject token");
        ("error_uri", JStr "https://tools.ietf.org/html/rfc6749")].

(** A token endpoint that rejects the exchange. *)
Definition rejecting : http.transport := fun _ =>
  Return {| http.status := 400; http.data := Some ERROR_RESPONSE |}.

(** A token endpoint that grants a token for [expires_in] seconds, and
    an impersonation endpoint whose token expires at [expire_time]. *)
Definition granting (expires_in : Z) (expire_time : string) : http.transport :=
  fun req =>
    if String.eqb (http.url req) TOKEN_URL
    then Return {| http.status := 200;
                   http.data := Some (SUCCESS_RESPONSE expires_in) |}
    else Return {| http.status := 200;
                   http.data :=
                     Some (JObj [("accessToken", JStr "SA_ACCESS_TOKEN");
                                 ("expireTime", JStr expire_time)]) |}.

(** [CredentialsStub] of [tests_async/test_aiohttp_req.py], with the
    time its methods take made explicit. *)
Record CredentialsStub : Type := {
  token : string;
  before_request_takes : Z;
  refresh_takes : Z;
}.

#[global] Instance stub : aiohttp_requests.Credentials CredentialsStub := {
  aiohttp_requests.before_request c _ _ _ headers _ :=
    {| aiohttp_requests.elapsed := before_request_takes c;
       aiohttp_requests.after := (c, <["authorization" := token c]> headers);
       aiohttp_requests.raised := None |};
  aiohttp_requests.refresh c _ _ :=
    {| aiohttp_requests.elapsed := refresh_takes c;
       aiohttp_requests.after :=
         {| token := token c +:+ "1";
            before_request_takes := before_request_takes c;
            refresh_takes := refresh_takes c |};
       aiohttp_requests.raised := None |};
}.

(** A server that answers the [n]-th request with the [n]-th status of
    a script, and with 200 once the script is exhausted, each answer
    taking [delay] ticks. *)
Definition scripted (statuses : list Z) (delay : Z) : aiohttp_requests.remote :=
  {| aiohttp_requests.answer n _ :=
       Return {| aiohttp_requests.status := default 200 (statuses !! n);
                 aiohttp_requests.headers := ∅;
                 aiohttp_requests.content := "" |};
     aiohttp_requests.latency _ _ := delay |}.

Definition stub_with (before_request_takes refresh_takes : Z) : CredentialsStub :=
  {| token := "token";
     before_request_takes := before_request_takes;
     refresh_takes := refresh_takes |}.

Definition empty_world : aiohttp_requests.world :=
  {| aiohttp_requests.clock := 0;
     aiohttp_requests.sessions := 0;
     aiohttp_requests.issued := 0;
     aiohttp_requests.heap := ∅;
     aiohttp_requests.log := [] |}.

(** A world in which the caller holds one dictionary of headers, at
    location [0]. *)
Definition caller_world : aiohttp_requests.world :=
  aiohttp_requests.poke 0%nat {["x-test-header" := "value"]} empty_world.

(** [AuthorizedSession(credentials, refresh_status_codes=(401,),
     max_refresh_attempts=2)] in the world [w]. *)
Definition authorized (credentials : CredentialsStub)
    (w : aiohttp_requests.world)
    : aiohttp_requests.AuthorizedSession.t CredentialsStub
      * aiohttp_requests.world :=
  aiohttp_requests.AuthorizedSession.__init__ credentials [401] 2 None None w.

(** [GET http://example.com/] through that session. *)
Definition get (net : aiohttp_requests.remote)
    (headers : option aiohttp_requests.loc) (max_allowed_time : option Z)
    (st : aiohttp_requests.AuthorizedSession.t CredentialsStub
          * aiohttp_requests.world) :=
  aiohttp_requests.AuthorizedSession.request net "GET" "http://example.com/"
    None headers max_allowed_time (Some aiohttp_requests._DEFAULT_TIMEOUT) 0 st.

(** A library whose [json.loads] decodes the listed texts and rejects
    every other one. *)
Definition decoding (table : list (string * json)) : Library :=
  {| json_loads s := assoc s table;
     json_loads_error _ := ValueError "Expecting value";
     parse_rfc3339 := timestamp;
     target_principal := service_account |}.

(** A url source with headers, an empty [file], an empty format type
    and a field name. *)
Definition url_source : source.t :=
  {| source.file := Some "";
     source.url := Some "http://localhost/token";
     source.headers := Some [("Metadata", "True")];
     source.format :=
       Some {| source.type := Some "";
               source.subject_token_field_name := Some "id_token" |} |}.

(** A source with a format type that is neither text nor json, and
    with both a file and a url. *)
Definition xml_source : source.t :=
  {| source.file := Some "/var/run/secrets/goog.id/token";
     source.url := Some "http://localhost/token";
     source.headers := None;
     source.format :=
       Some {| source.type := Some "xml";
               source.subject_token_field_name := None |} |}.

(** A JSON source with both a file and a url and without a field
    name. *)
Definition json_both_sources : source.t :=
  {| source.file := Some "/var/run/secrets/goog.id/token";
     source.url := Some "http://localhost/token";
     source.headers := None;
     source.format :=
       Some {| source.type := Some "json";
               source.subject_token_field_name := None |} |}.

(** The inherited part of the credentials that [pool] constructs. *)
Definition pool_base (cs : source.t) : external_account.Credentials :=
  {| external_account.audience := AUDIENCE;
     external_account.subjectTokenType := SUBJECT_TOKEN_TYPE;
     external_account.tokenExchangeURL := TOKEN_URL;
     external_account.credentialSource := Some cs;
     external_account.impersonationURL := None;
     external_account.clientId := None;
     external_account.clientSecret := None;
     external_account.scopes := [];
     external_account.quotaProjectId := None;
     external_account.accessToken := None;
     external_account.expiry := None;
     external_account.cachedProjectId := None |}.

(** The credential that [pool] constructs from [url_source]. *)
Definition url_pool : identity_pool.Credentials :=
  {| identity_pool.base := pool_base url_source;
     identity_pool._credential_source_file := Some "";
     identity_pool._credential_source_url := Some "http://localhost/token";
     identity_pool._credential_source_headers := Some [("Metadata", "True")];
     identity_pool._success_codes := [200];
     identity_pool._credential_source_format_type := "text";
     identity_pool._credential_source_field_name := None |}.

(** An environment without files in which every url is answered with
    the given status and content. *)
Definition serving (status : Z) (content : string) : identity_pool.environment :=
  {| identity_pool.files _ := identity_pool.Missing;
     identity_pool.urlopen _ := identity_pool.Fetched status content |}.

(** An environment in which every file exists and cannot be read. *)
Definition unreadable : identity_pool.environment :=
  {| identity_pool.files _ :=
       identity_pool.Unreadable (OSError "Permission denied");
     identity_pool.urlopen _ := identity_pool.Failed (OSError "unreachable") |}.

(** The document [{"token": 5}]. *)
Definition number_document : string :=
  "{" +:+ dq +:+ "token" +:+ dq +:+ ": 5}".

(** The document [{"token": null}]. *)
Definition null_document : string :=
  "{" +:+ dq +:+ "token" +:+ dq +:+ ": null}".

(** The text of [n] nested lists, [[[...]]]. *)
Fixpoint nested (n : nat) : string :=
  match n with
  | O => EmptyString
  | S n => "[" +:+ nested n +:+ "]"
  end.

(** A JSON text that is nested more deeply than the decoder goes. *)
Definition deep_document : string := nested 2000.

(** [library] with a decoder that gives up on [deep_document] with a
    [RecursionError]. *)
Definition limited : Library :=
  {| json_loads s :=
       if String.eqb s deep_document then None else loads_table s;
     json_loads_error s :=
       if String.eqb s deep_document
       then RecursionError
              "maximum recursion depth exceeded while decoding a JSON array from a unicode string"
       else ValueError "Expecting value";
     parse_rfc3339 := timestamp;
     target_principal := service_account |}.

(** An environment without files in which every url answers with the
    given status and the read of the response fails. *)
Definition truncated (status : Z) : identity_pool.environment :=
  {| identity_pool.files _ := identity_pool.Missing;
     identity_pool.urlopen _ :=
       identity_pool.Unread status (OSError "Connection reset by peer") |}.

(** What [json.loads] makes of these two documents. *)
Definition value_table : list (string * json) :=
  [(number_document, JObj [("token", JNum 5)]);
   (null_document, JObj [("token", JNull)])].

(** [url_pool] without headers. *)
Definition bare_url_pool : identity_pool.Credentials :=
  {| identity_pool.base := pool_base plain_file_source;
     identity_pool._credential_source_file := Some "";
     identity_pool._credential_source_url := Some "http://localhost/token";
     identity_pool._credential_source_headers := None;
     identity_pool._success_codes := [200];
     identity_pool._credential_source_format_type := "text";
     identity_pool._credential_source_field_name := None |}.

(** An environment that answers every url like [serving] and in which
    every file holds some other text. *)
Definition cluttered (status : Z) (content : string)
    : identity_pool.environment :=
  {| identity_pool.files _ := identity_pool.File "other";
     identity_pool.urlopen _ := identity_pool.Fetched status content |}.

(** A server whose every answer is the exception [e], raised after
    [delay] ticks. *)
Definition failing (e : exn) (delay : Z) : aiohttp_requests.remote :=
  {| aiohttp_requests.answer _ _ := Raise e;
     aiohttp_requests.latency _ _ := delay |}.

(** Credentials whose grant has been revoked: the token they hold is
    still applied to requests, and every refresh fails. *)
Record RevokedStub : Type := { revoked_token : string }.

#[global] Instance revoked : aiohttp_requests.Credentials RevokedStub := {
  aiohttp_requests.before_request c _ _ _ headers _ :=
    {| aiohttp_requests.elapsed := 0;
       aiohttp_requests.after :=
         (c, <["authorization" := revoked_token c]> headers);
       aiohttp_requests.raised := None |};
  aiohttp_requests.refresh c _ _ :=
    {| aiohttp_requests.elapsed := 0;
       aiohttp_requests.after := c;
       aiohttp_requests.raised := Some (RefreshError "invalid_grant") |};
}.

(** Three calls through one adapter. *)
Definition three_calls : list caller.call_args :=
  [ {| caller.arg_url := "http://example.com/a"; caller.arg_method := "GET";
       caller.arg_body := None; caller.arg_headers := None;
       caller.arg_timeout := Some aiohttp_requests._DEFAULT_TIMEOUT |};
    {| caller.arg_url := "http://example.com/b"; caller.arg_method := "POST";
       caller.arg_body := Some "payload"; caller.arg_headers := Some ∅;
       caller.arg_timeout := None |};
    {| caller.arg_url := "http://example.com/c"; caller.arg_method := "GET";
       caller.arg_body := None; caller.arg_headers := None;
       caller.arg_timeout := Some 5 |} ].
End samples.

(** * Properties *)

(** ** Identity-pool credentials *)
Section identity_pool_properties.
Context `{Library}.
Import identity_pool.

(** What [source_attributes] stores when it succeeds. *)
Lemma source_attributes_Return b cs codes self :
  source_attributes b cs codes = Return self ->
  base self = b /\
  _credential_source_file self = source.file cs /\
  _credential_source_url self = source.url cs /\
  _success_codes self = codes /\
  (_credential_source_format_type self = "text" \/
   _credential_source_format_type self = "json") /\
  (_credential_source_format_type self = "text" ->
   _credential_source_field_name self = None) /\
  (_credential_source_format_type self = "json" ->
   exists fmt name,
     source.format cs = Some fmt /\ source.type fmt = Some "json" /\
     source.subject_token_field_name fmt = Some name /\
     _credential_source_field_name self = Some name) /\
  (str_truthy (source.type (default source.empty_format (source.format cs))) = false ->
   _credential_source_format_type self = "text").
Proof.
  unfold source_attributes.
  set (fmt := default source.empty_format (source.format cs)).
  set (ty := if str_truthy (source.type fmt) then _ else _).
  destruct (bool_decide (ty ∈ ["text"; "json"])) eqn:Hty; simpl; [|discriminate].
  apply bool_decide_eq_true in Hty.
  assert (Hcases : ty = "text" \/ ty = "json").
  { apply elem_of_cons in Hty as [?|Hty]; [by left|].
    apply elem_of_cons in Hty as [?|Hty]; [by right|].
    by apply elem_of_nil in Hty. }
  destruct (String.eqb_spec ty "json") as [Hj|Hj].
  - destruct (source.subject_token_field_name fmt) as [name|] eqn:Hname;
      simpl; [|discriminate].
    intros [= <-]; simpl. repeat split; auto.
    + rewrite Hj. discriminate.
    + intros _. subst ty fmt.
      destruct (source.format cs) as [f|] eqn:Hf; simpl in *.
      * exists f, name. repeat split; auto.
        destruct (source.type f) as [t|]; simpl in *; [|discriminate].
        destruct (String.eqb t ""); simpl in *; congruence.
      * discriminate.
    + intros Hfalse. subst ty. rewrite Hfalse in Hj. discriminate.
  - simpl. intros [= <-]; simpl.
    destruct Hcases as [Ht|?]; [|contradiction].
    repeat split; auto. intros ?; contradiction.
Qed.

(** C5. Constructing an identity-pool credential fails when the
    credential source gives both a file and a url, when it gives
    neither (in particular when it is not a dictionary), and when its
    format is [json] without a [subject_token_field_name]; a
    credential that is constructed has exactly one of the two sources
    set and, if its format is [json], a field name. *)
Theorem C5_credential_source_is_checked
    (audience subject_token_type token_url : string)
    (credential_source : option source.t)
    (impersonation_url client_id client_secret quota_project_id : option string)
    (scopes : option (list string)) (success_codes : list Z) :
  let construct :=
    __init__ audience subject_token_type token_url credential_source
      impersonation_url client_id client_secret quota_project_id scopes
      success_codes in
  (forall cs, credential_source = Some cs ->
     str_truthy (source.file cs) = true ->
     str_truthy (source.url cs) = true ->
     exists e, construct = Raise e) /\
  ((forall cs, credential_source = Some cs ->
      str_truthy (source.file cs) = false /\
      str_truthy (source.url cs) = false) ->
   exists e, construct = Raise e) /\
  (forall cs fmt, credential_source = Some cs ->
     source.format cs = Some fmt ->
     source.type fmt = Some "json" ->
     source.subject_token_field_name fmt = None ->
     exists e, construct = Raise e) /\
  (forall self, construct = Return self ->
     exists cs, credential_source = Some cs /\
       _credential_source_file self = source.file cs /\
       _credential_source_url self = source.url cs /\
       xorb (str_truthy (_credential_source_file self))
            (str_truthy (_credential_source_url self)) = true /\
       (_credential_source_format_type self = "json" ->
        exists fmt name,
          source.format cs = Some fmt /\ source.type fmt = Some "json" /\
          source.subject_token_field_name fmt = Some name /\
          _credential_source_field_name self = Some name)).
Proof.
  intros construct. subst construct. unfold __init__.
  destruct (external_account.__init__ _ _ _ _ _ _ _ _ _) as [b|e0]; simpl;
    [|repeat split; intros; try discriminate; eauto].
  repeat split.
  - intros cs -> Hf Hu. simpl.
    destruct (source_attributes b cs success_codes) as [self|e] eqn:Hs;
      simpl; [|eauto].
    apply source_attributes_Return in Hs as (_ & -> & -> & _).
    rewrite Hf, Hu. simpl. eauto.
  - intros Hnone. destruct credential_source as [cs|]; simpl; [|eauto].
    destruct (Hnone cs eq_refl) as [Hf Hu].
    destruct (source_attributes b cs success_codes) as [self|e] eqn:Hs;
      simpl; [|eauto].
    apply source_attributes_Return in Hs as (_ & -> & -> & _).
    rewrite Hf, Hu. simpl. eauto.
  - intros cs fmt -> Hfmt Hty Hname. simpl.
    destruct (source_attributes b cs success_codes) as [self|e] eqn:Hs;
      simpl; [|eauto].
    exfalso. revert Hs. unfold source_attributes.
    rewrite Hfmt. simpl. rewrite Hty, Hname. simpl. discriminate.
  - intros self. destruct credential_source as [cs|]; simpl; [|discriminate].
    destruct (source_attributes b cs success_codes) as [self'|e] eqn:Hs;
      simpl; [|discriminate].
    apply source_attributes_Return in Hs as (_ & Hf & Hu & _ & _ & _ & Hj & _).
    destruct (str_truthy (_credential_source_file self')) eqn:Tf,
             (str_truthy (_credential_source_url self')) eqn:Tu;
      simpl; try discriminate; intros [= <-];
      exists cs; rewrite Tf, Tu; repeat split; auto.
Qed.

(** A decoded document that is not a [dict] makes the lookup of the
    field raise [TypeError], which the [except (KeyError, ValueError)]
    clause lets through. *)
Lemma _parse_token_data_not_a_dict content filename name doc :
  json_loads content = Some doc ->
  (forall items, doc <> JObj items) ->
  exists msg,
    _parse_token_data (Some (content, filename)) "json" name
    = Raise (TypeError msg).
Proof.
  intros Hdoc Hno. unfold _parse_token_data, loads. simpl.
  rewrite Hdoc. simpl.
  destruct doc; simpl; eauto. exfalso. eapply Hno; reflexivity.
Qed.

(** The failures that [retrieve_subject_token] does report as
    [RefreshError]: a missing file, a fetch with a status outside the
    success codes, a text that is not JSON (the [ValueError] of
    [json.loads]), a [dict] without the field, and an empty token. *)
Lemma retrieve_subject_token_refresh_errors self env :
  (forall filename,
     nonempty (_credential_source_file self) = Some filename ->
     files env filename = Missing ->
     retrieve_subject_token self env
     = Raise (RefreshError ("File '" +:+ filename +:+ "' was not found."))) /\
  (forall u status content,
     nonempty (_credential_source_file self) = None ->
     nonempty (_credential_source_url self) = Some u ->
     urlopen env u = Fetched status content ->
     status ∉ _success_codes self ->
     retrieve_subject_token self env
     = Raise (RefreshError ("Url '" +:+ u +:+ "' was not found."))) /\
  (forall content origin,
     _get_token_data self env = Return (Some (content, origin)) ->
     _credential_source_format_type self = "json" ->
     (json_loads content = None /\
      exists msg, json_loads_error content = ValueError msg) \/
     (exists items name,
        json_loads content = Some (JObj items) /\
        _credential_source_field_name self = Some name /\
        assoc name items = None) ->
     retrieve_subject_token self env
     = Raise (RefreshError
                ("Unable to parse subject_token from JSON file '"
                   +:+ origin +:+ "' using key '"
                   +:+ format (_credential_source_field_name self) +:+ "'"))) /\
  (forall content origin,
     _get_token_data self env = Return (Some (content, origin)) ->
     _credential_source_format_type self = "text" ->
     content = "" ->
     retrieve_subject_token self env
     = Raise (RefreshError "Missing subject_token in the credential_source file")) /\
  (forall content origin items name v,
     _get_token_data self env = Return (Some (content, origin)) ->
     _credential_source_format_type self = "json" ->
     json_loads content = Some (JObj items) ->
     _credential_source_field_name self = Some name ->
     assoc name items = Some v ->
     truthy v = false ->
     retrieve_subject_token self env
     = Raise (RefreshError "Missing subject_token in the credential_source file")).
Proof.
  unfold retrieve_subject_token, _get_token_data. repeat split.
  - intros filename -> Hmiss. unfold _get_file_data. rewrite Hmiss. reflexivity.
  - intros u status content -> -> Hfetch Hcode. unfold _get_url_data.
    rewrite Hfetch. rewrite bool_decide_eq_false_2 by assumption. reflexivity.
  - intros content origin -> Hjson Hbad. simpl.
    unfold _parse_token_data, loads. rewrite Hjson. simpl.
    destruct Hbad as [[-> [msg ->]]|(items & name & -> & -> & Hnone)]; simpl;
      [reflexivity|].
    rewrite Hnone. reflexivity.
  - intros content origin -> Htext ->. simpl.
    unfold _parse_token_data. rewrite Htext. reflexivity.
  - intros content origin items name v -> Hjson Hdoc Hname Hv Hfalse. simpl.
    unfold _parse_token_data, loads. rewrite Hjson, Hdoc, Hname. simpl.
    rewrite Hv. simpl. rewrite Hfalse. reflexivity.
Qed.

Lemma _get_token_data_Return self env tc :
  _get_token_data self env = Return tc ->
  match tc with
  | Some (content, origin) => source_content self env content origin
  | None => nonempty (_credential_source_file self) = None /\
            nonempty (_credential_source_url self) = None
  end.
Proof.
  unfold _get_token_data, source_content.
  destruct (nonempty (_credential_source_file self)) as [f|] eqn:Hf.
  - unfold _get_file_data. destruct (files env f) eqn:Hfile; simpl; try discriminate.
    intros [= <-]. left. auto.
  - destruct (nonempty (_credential_source_url self)) as [u|] eqn:Hu.
    + unfold _get_url_data.
      destruct (urlopen env u) as [status content| |status e] eqn:Hurl;
        simpl; try discriminate.
      * destruct (bool_decide (status ∈ _success_codes self)) eqn:Hin;
          simpl; try discriminate.
        apply bool_decide_eq_true in Hin.
        intros [= <-]. right. eauto 6.
      * destruct (bool_decide (status ∈ _success_codes self)); discriminate.
    + intros [= <-]. auto.
Qed.

(** C7. When the retrieval of the subject token succeeds, a source in
    text format yields the content of the file or url verbatim, a
    source in JSON format yields exactly the value stored under the
    configured field of the decoded object; a source constructed
    without a format type is in text format. *)
Theorem C7_retrieve_subject_token_returns self env token :
  retrieve_subject_token self env = Return token ->
  (exists content origin,
     source_content self env content origin /\
     (_credential_source_format_type self = "text" -> token = JStr content) /\
     (_credential_source_format_type self = "json" ->
      exists items name,
        json_loads content = Some (JObj items) /\
        _credential_source_field_name self = Some name /\
        assoc name items = Some token /\
        (forall s, assoc name items = Some (JStr s) -> token = JStr s))) /\
  (forall audience subject_token_type token_url cs impersonation_url
          client_id client_secret quota_project_id scopes success_codes,
     __init__ audience subject_token_type token_url (Some cs)
       impersonation_url client_id client_secret quota_project_id scopes
       success_codes = Return self ->
     source.format cs = None \/
     (exists fmt, source.format cs = Some fmt /\ source.type fmt = None) ->
     _credential_source_format_type self = "text").
Proof.
  intros Hret. split.
  - unfold retrieve_subject_token in Hret.
    destruct (_get_token_data self env) as [tc|] eqn:Htc; simpl in Hret;
      [|discriminate].
    apply _get_token_data_Return in Htc.
    destruct tc as [[content origin]|]; simpl in Hret; [|discriminate].
    exists content, origin. split; [assumption|]. split.
    + intros Htext. rewrite Htext in Hret. simpl in Hret.
      destruct (String.eqb content ""); simpl in Hret; congruence.
    + intros Hjson. rewrite Hjson in Hret. simpl in Hret.
      unfold loads in Hret.
      destruct (json_loads content) as [doc|]; simpl in Hret;
        [|destruct (json_loads_error content); discriminate].
      destruct doc as [| | | | |items]; simpl in Hret; try discriminate.
      destruct (_credential_source_field_name self) as [name|];
        simpl in Hret; [|discriminate].
      destruct (assoc name items) as [v|] eqn:Hv; simpl in Hret; [|discriminate].
      destruct (truthy v); simpl in Hret; [|discriminate].
      injection Hret as ->.
      exists items, name. repeat split; auto. congruence.
  - intros audience subject_token_type token_url cs impersonation_url
      client_id client_secret quota_project_id scopes success_codes Hinit Hfmt.
    unfold __init__ in Hinit.
    destruct (external_account.__init__ _ _ _ _ _ _ _ _ _) as [b|]; simpl in Hinit;
      [|discriminate].
    destruct (source_attributes b cs success_codes) as [self'|] eqn:Hs;
      simpl in Hinit; [|discriminate].
    apply source_attributes_Return in Hs as (_ & _ & _ & _ & _ & _ & _ & Htext).
    assert (self' = self) as ->.
    { destruct (_ && _); [discriminate|].
      destruct (_ && _); [discriminate|]. congruence. }
    apply Htext.
    destruct Hfmt as [->|(fmt & -> & Hty)]; simpl; [reflexivity|].
    rewrite Hty. reflexivity.
Qed.

(** C6. A file in JSON format that holds the JSON text [[]] makes
    [retrieve_subject_token] fail with a [TypeError], not with a
    [RefreshError]. *)
Theorem C6_non_object_document_raises_TypeError :
  exists self,
    samples.pool samples.json_file_source = Return self /\
    retrieve_subject_token (H := samples.library) self (samples.holding "[]")
    = Raise (TypeError "list indices must be integers or slices").
Proof. eexists. split; reflexivity. Qed.

End identity_pool_properties.

Section identity_pool_examples.
Import identity_pool.

Lemma C5_credential_source_is_checked_witness :
  (exists e, samples.pool samples.both_sources = Raise e) /\
  (exists e, samples.pool samples.no_source = Raise e) /\
  (exists e, samples.pool samples.json_without_field = Raise e) /\
  (exists self,
     samples.pool samples.json_file_source = Return self /\
     _credential_source_file self = Some "/var/run/secrets/goog.id/token" /\
     _credential_source_url self = None /\
     _credential_source_field_name self = Some "token").
Proof.
  assert (checked : forall cs, _) by
    exact (fun cs =>
             C5_credential_source_is_checked (H := samples.library)
               samples.AUDIENCE samples.SUBJECT_TOKEN_TYPE samples.TOKEN_URL
               (Some cs) None None None None None [200]).
  split; [|split; [|split]].
  - apply (proj1 (checked samples.both_sources) _ eq_refl); reflexivity.
  - apply (proj1 (proj2 (checked samples.no_source))).
    intros cs [= <-]. split; reflexivity.
  - apply (proj1 (proj2 (proj2 (checked samples.json_without_field)))
             _ _ eq_refl eq_refl); reflexivity.
  - eexists. split; [reflexivity|].
    destruct (proj2 (proj2 (proj2 (checked samples.json_file_source)))
                (samples.file_pool samples.json_file_source "json" (Some "token"))
                eq_refl)
      as (cs & Hcs & Hfile & Hurl & _ & Hname).
    injection Hcs as <-.
    destruct (Hname eq_refl) as (fmt & name & Hfmt & _ & Hfield & Hstored).
    injection Hfmt as <-. injection Hfield as <-.
    split; [exact Hfile|]. split; [exact Hurl|exact Hstored].
Defined.

Lemma C7_retrieve_subject_token_returns_witness :
  let text_pool := samples.file_pool samples.plain_file_source "text" None in
  let json_pool :=
    samples.file_pool samples.json_file_source "json" (Some "token") in
  (samples.pool samples.plain_file_source = Return text_pool /\
   retrieve_subject_token (H := samples.library) text_pool
     (samples.holding "HEADER.PAYLOAD.SIGNATURE")
   = Return (JStr "HEADER.PAYLOAD.SIGNATURE") /\
   _credential_source_format_type text_pool = "text") /\
  (samples.pool samples.json_file_source = Return json_pool /\
   retrieve_subject_token (H := samples.library) json_pool
     (samples.holding samples.token_document)
   = Return (JStr "abc") /\
   exists items,
     json_loads (Library := samples.library) samples.token_document
     = Some (JObj items) /\
     assoc "token" items = Some (JStr "abc")).
Proof.
  intros text_pool json_pool. split.
  - split; [reflexivity|]. split; [reflexivity|].
    apply (proj2 (C7_retrieve_subject_token_returns (H := samples.library)
                    text_pool (samples.holding "HEADER.PAYLOAD.SIGNATURE")
                    (JStr "HEADER.PAYLOAD.SIGNATURE") eq_refl)
             samples.AUDIENCE samples.SUBJECT_TOKEN_TYPE samples.TOKEN_URL
             samples.plain_file_source None None None None None [200]
             eq_refl).
    left. reflexivity.
  - split; [reflexivity|]. split; [reflexivity|].
    destruct (proj1 (C7_retrieve_subject_token_returns (H := samples.library)
                       json_pool (samples.holding samples.token_document)
                       (JStr "abc") eq_refl))
      as (content & origin & Hsrc & _ & Hjson).
    destruct (Hjson eq_refl) as (items & name & Hdoc & Hname & Hval & _).
    injection Hname as <-.
    destruct Hsrc as [[_ Hfile]|[Hnone _]]; [|discriminate Hnone].
    injection Hfile as <-.
    exists items. split; assumption.
Defined.
End identity_pool_examples.

(** ** External-account credentials *)
Section external_account_properties.
Context `{Library}.
Import external_account.

Lemma refresh_failure_kind (e : exn) :
  is_RefreshError (refresh_failure e) = true \/
  is_OAuthError (refresh_failure e) = true.
Proof. destruct e; simpl; auto. Qed.

(** A failed refresh leaves the credential as it was. *)
Lemma refresh_Raise {S : Type} (retrieve : S -> http.transport -> result string * S)
    request now c s e c' s' :
  refresh retrieve request now (c, s) = (Raise e, (c', s')) ->
  c' = c /\
  (is_RefreshError e = true \/ is_OAuthError e = true).
Proof.
  unfold refresh.
  destruct (retrieve s request) as [[subject_token|e0] s1].
  - destruct (exchange c request now subject_token) as [[sts_token sts_expiry]|e1].
    + destruct (impersonationURL c) as [u|].
      * destruct (impersonate c request u sts_token) as [[tok exp]|e2].
        -- discriminate.
        -- intros [= <- <- <-]. split; [reflexivity|apply refresh_failure_kind].
      * discriminate.
    + intros [= <- <- <-]. split; [reflexivity|apply refresh_failure_kind].
  - intros [= <- <- <-]. split; [reflexivity|apply refresh_failure_kind].
Qed.

(** C3. When the retrieval of the subject token, the token exchange
    or the impersonation fails, [refresh] fails as a whole, the
    credential (its token and expiry in particular) is what it was
    before the call, and the exception is a [RefreshError] or an
    OAuth-protocol error. *)
Theorem C3_failed_refresh_keeps_state {S : Type}
    (retrieve : S -> http.transport -> result string * S)
    (request : http.transport) (now : Z) (c : Credentials) (s : S) :
  (exists e0, (retrieve s request).1 = Raise e0) \/
  (exists subject_token,
     (retrieve s request).1 = Return subject_token /\
     ((exists e1, exchange c request now subject_token = Raise e1) \/
      (exists sts_token sts_expiry u e2,
         exchange c request now subject_token = Return (sts_token, sts_expiry) /\
         impersonationURL c = Some u /\
         impersonate c request u sts_token = Raise e2))) ->
  exists e c' s',
    refresh retrieve request now (c, s) = (Raise e, (c', s')) /\
    accessToken c' = accessToken c /\
    expiry c' = expiry c /\
    c' = c /\
    (is_RefreshError e = true \/ is_OAuthError e = true).
Proof.
  intros Hfail.
  assert (Hraise : exists e c' s',
             refresh retrieve request now (c, s) = (Raise e, (c', s'))).
  { unfold refresh.
    destruct (retrieve s request) as [r s1]; simpl in Hfail.
    destruct Hfail as [[e0 ->]|(subject_token & -> & Hstep)]; [eauto|].
    destruct Hstep as [[e1 ->]|(sts_token & sts_expiry & u & e2 & -> & -> & ->)];
      eauto. }
  destruct Hraise as (e & c' & s' & Href).
  exists e, c', s'. split; [assumption|].
  apply refresh_Raise in Href as [-> Hkind]. auto.
Qed.

(** C4. With an impersonation URL, a successful [refresh] stores the
    [accessToken] of the impersonation response, not the token of the
    exchange, and the expiry read from its [expireTime] as an absolute
    timestamp, whatever the time of the call. *)
Theorem C4_impersonation_overrides {S : Type}
    (retrieve : S -> http.transport -> result string * S)
    (request : http.transport) (now : Z) (c : Credentials) (s : S)
    (u : string) (c' : Credentials) (s' : S) :
  impersonationURL c = Some u ->
  refresh retrieve request now (c, s) = (Return tt, (c', s')) ->
  (exists subject_token sts_token sts_expiry response,
     (retrieve s request).1 = Return subject_token /\
     exchange c request now subject_token = Return (sts_token, sts_expiry) /\
     request (impersonation_request c u sts_token) = Return response /\
     http.status response = http.OK /\
     accessToken c' = str_field "accessToken" (http.data response) /\
     is_Some (accessToken c') /\
     expiry c' = str_field "expireTime" (http.data response) ≫= parse_rfc3339 /\
     is_Some (expiry c')) /\
  (forall now', refresh retrieve request now' (c, s)
                = refresh retrieve request now (c, s)).
Proof.
  intros Hurl Href. split.
  - revert Href. unfold refresh.
    destruct (retrieve s request) as [[subject_token|e0] s1]; [|discriminate].
    destruct (exchange c request now subject_token)
      as [[sts_token sts_expiry]|e1] eqn:Hex; [|discriminate].
    rewrite Hurl.
    destruct (impersonate c request u sts_token) as [[tok exp]|e2] eqn:Himp;
      [|discriminate].
    intros [= <- <-].
    exists subject_token, sts_token, sts_expiry.
    revert Himp. unfold impersonate.
    destruct (request (impersonation_request c u sts_token)) as [response|];
      simpl; [|discriminate].
    destruct (http.status response =? http.OK) eqn:Hok; simpl; [|discriminate].
    destruct (str_field "accessToken" (http.data response)) as [tok'|] eqn:Htok;
      [|discriminate].
    destruct (str_field "expireTime" (http.data response) ≫= parse_rfc3339)
      as [exp'|] eqn:Hexp; [|discriminate].
    intros [= <- <-]. exists response. simpl.
    apply Z.eqb_eq in Hok. repeat split; eauto.
  - intros now'. unfold refresh.
    destruct (retrieve s request) as [[subject_token|e0] s1]; [|reflexivity].
    unfold exchange.
    destruct (request (exchange_request c subject_token)) as [response|];
      simpl; [|reflexivity].
    destruct (negb (http.status response =? http.OK)); [reflexivity|].
    destruct (str_field "access_token" (http.data response)); [|reflexivity].
    destruct (int_field "expires_in" (http.data response)); [|reflexivity].
    rewrite Hurl. reflexivity.
Qed.

(** C8. A refresh at time [t0] whose token exchange answers
    [expires_in = N] stores the expiry [t0 + N]; the credential is
    then valid exactly at the times before [t0 + N - CLOCK_SKEW].  In
    general a credential is valid when it holds a token and is not
    expired, and expired when it has an expiry [e] with
    [now + CLOCK_SKEW >= e]. *)
Theorem C8_expiry_and_validity (CLOCK_SKEW : Z) :
  (forall (S : Type) (retrieve : S -> http.transport -> result string * S)
          (request : http.transport) (t0 : Z) (c : Credentials) (s : S)
          subject_token s1 response tok N,
     retrieve s request = (Return subject_token, s1) ->
     impersonationURL c = None ->
     request (exchange_request c subject_token) = Return response ->
     http.status response = http.OK ->
     str_field "access_token" (http.data response) = Some tok ->
     int_field "expires_in" (http.data response) = Some N ->
     exists c',
       refresh retrieve request t0 (c, s) = (Return tt, (c', s1)) /\
       accessToken c' = Some tok /\
       expiry c' = Some (t0 + N) /\
       forall now, valid CLOCK_SKEW c' now = true <-> now < t0 + N - CLOCK_SKEW) /\
  (forall c now,
     (valid CLOCK_SKEW c now = true <->
      is_Some (accessToken c) /\ expired CLOCK_SKEW c now = false) /\
     (expired CLOCK_SKEW c now = true <->
      exists e, expiry c = Some e /\ now + CLOCK_SKEW >= e)).
Proof.
  split.
  - intros S retrieve request t0 c s subject_token s1 response tok N
      Hret Himp Hreq Hok Htok Hn.
    exists (store c tok (t0 + N)). split; [|split; [reflexivity|split; [reflexivity|]]].
    + unfold refresh, exchange. rewrite Hret, Hreq. simpl.
      rewrite Hok. simpl. rewrite Htok, Hn, Himp. reflexivity.
    + intros now. unfold valid, expired. simpl.
      rewrite negb_true_iff, Z.geb_leb, Z.leb_gt. lia.
  - intros c now. unfold valid, expired. split.
    + destruct (accessToken c); split.
      * intros Hv. apply negb_true_iff in Hv. eauto.
      * intros [_ Hv]. apply negb_true_iff. assumption.
      * discriminate.
      * intros [[? [=]] _].
    + destruct (expiry c) as [e|]; split.
      * intros He. exists e. split; [reflexivity|].
        rewrite Z.geb_leb in He. apply Z.leb_le in He. lia.
      * intros (e' & [= <-] & He). rewrite Z.geb_leb. apply Z.leb_le. lia.
      * discriminate.
      * intros (e' & [=] & _).
Qed.

End external_account_properties.

Section external_account_examples.
Import external_account.

Lemma C3_failed_refresh_keeps_state_witness :
  let c := samples.credentials_with None (Some "OLD_TOKEN") (Some 100) in
  exchange c samples.rejecting 0 "subject_token_0"
  = Raise (OAuthError
             "Error code invalid_request: Invalid subject token - https://tools.ietf.org/html/rfc6749") /\
  exists e s',
    refresh (H := samples.library) samples.counting_source samples.rejecting
      0 (c, 0%nat) = (Raise e, (c, s')) /\
    accessToken c = Some "OLD_TOKEN" /\ expiry c = Some 100 /\
    (is_RefreshError e = true \/ is_OAuthError e = true).
Proof.
  intros c. split; [reflexivity|].
  destruct (C3_failed_refresh_keeps_state (H := samples.library)
              samples.counting_source samples.rejecting 0 c 0%nat)
    as (e & c' & s' & Href & _ & _ & -> & Hkind).
  - right. exists "subject_token_0". split; [reflexivity|].
    left. eexists. reflexivity.
  - exists e, s'. split; [exact Href|]. split; [reflexivity|].
    split; [reflexivity|exact Hkind].
Defined.

Lemma C4_impersonation_overrides_witness :
  let c :=
    samples.credentials_with (Some samples.SERVICE_ACCOUNT_IMPERSONATION_URL)
      None None in
  let c' :=
    samples.credentials_with (Some samples.SERVICE_ACCOUNT_IMPERSONATION_URL)
      (Some "SA_ACCESS_TOKEN") (Some 2800) in
  let request := samples.granting 3600 "1970-01-01T00:46:40Z" in
  samples.make_credentials (Some samples.SERVICE_ACCOUNT_IMPERSONATION_URL)
  = Return c /\
  refresh (H := samples.library) samples.counting_source request 5 (c, 0%nat)
  = (Return tt, (c', 1%nat)) /\
  accessToken c' = Some "SA_ACCESS_TOKEN" /\
  expiry c' = parse_rfc3339 (Library := samples.library) "1970-01-01T00:46:40Z" /\
  refresh (H := samples.library) samples.counting_source request 1000 (c, 0%nat)
  = (Return tt, (c', 1%nat)).
Proof.
  intros c c' request. split; [reflexivity|].
  assert (Href : refresh (H := samples.library) samples.counting_source
                   request 5 (c, 0%nat) = (Return tt, (c', 1%nat)))
    by reflexivity.
  split; [exact Href|].
  destruct (C4_impersonation_overrides (H := samples.library)
              samples.counting_source request 5 c 0%nat
              samples.SERVICE_ACCOUNT_IMPERSONATION_URL c' 1%nat
              eq_refl Href)
    as ((subject_token & sts_token & sts_expiry & response & _ & _ & Hresp
         & _ & Htok & _ & Hexp & _) & Hnow).
  injection Hresp as <-.
  split; [exact Htok|]. split; [exact Hexp|].
  rewrite (Hnow 1000). exact Href.
Defined.

Lemma C8_expiry_and_validity_witness :
  let c := samples.credentials_with None None None in
  let request := samples.granting 2800 "" in
  exists c',
    refresh (H := samples.library) samples.counting_source request 0 (c, 0%nat)
    = (Return tt, (c', 1%nat)) /\
    expiry c' = Some 2800 /\
    valid 300 c' 2499 = true /\
    valid 300 c' 2500 = false.
Proof.
  intros c request.
  destruct (proj1 (C8_expiry_and_validity (H := samples.library) 300)
              nat samples.counting_source request 0 c 0%nat
              "subject_token_0" 1%nat
              {| http.status := 200;
                 http.data := Some (samples.SUCCESS_RESPONSE 2800) |}
              "ACCESS_TOKEN" 2800
              eq_refl eq_refl eq_refl eq_refl eq_refl eq_refl)
    as (c' & Href & _ & Hexp & Hvalid).
  exists c'. split; [exact Href|]. split; [exact Hexp|]. split.
  - apply Hvalid. lia.
  - destruct (valid 300 c' 2500) eqn:Hv; [|reflexivity].
    apply Hvalid in Hv. lia.
Defined.
End external_account_examples.

(** ** The authorized transport *)
Section transport_properties.
Import aiohttp_requests AuthorizedSession trace.
Context {C : Type} `{Credentials C}.
Variable net : remote.

Abbreviation state := (AuthorizedSession.state (C := C)).

Lemma count_app p (l l' : list event) :
  count p (l ++ l') = (count p l + count p l')%nat.
Proof. induction l as [|e l IH]; simpl; [reflexivity|]. rewrite IH. lia. Qed.

Lemma budgets_app (l l' : list event) :
  budgets (l ++ l') = budgets l ++ budgets l'.
Proof.
  induction l as [|e l IH]; simpl; [reflexivity|].
  destruct e; simpl; rewrite ?IH; reflexivity.
Qed.

Lemma entries_app (l l' : list event) :
  entries (l ++ l') = entries l ++ entries l'.
Proof.
  induction l as [|e l IH]; simpl; [reflexivity|].
  destruct e; simpl; rewrite ?IH; reflexivity.
Qed.

Lemma applied_app (l l' : list event) :
  applied (l ++ l') = applied l ++ applied l'.
Proof.
  induction l as [|e l IH]; simpl; [reflexivity|].
  destruct e; simpl; rewrite ?IH; reflexivity.
Qed.

Lemma extends_trans w w' w'' evs evs' n n' t t' :
  extends w w' evs n t -> extends w' w'' evs' n' t' ->
  extends w w'' (evs ++ evs') (n + n') (t ++ t').
Proof.
  intros [L1 I1 H1 D1] [L2 I2 H2 D2]. split.
  - rewrite L2, L1. by rewrite app_assoc.
  - lia.
  - intros l Hl Hsome. apply not_elem_of_app in Hl as [Hl Hl'].
    rewrite H2; auto.
  - auto.
Qed.

(** Dictionaries that did not exist before are not among those a
    caller can observe. *)
Lemma extends_untouched w w' evs n t :
  extends w w' evs n t -> (forall l, l ∈ t -> heap w !! l = None) ->
  extends w w' evs n [].
Proof.
  intros [L I Hh D] Hnew. split; auto.
  intros l _ Hsome. apply Hh; [|assumption].
  intros Hin. apply Hnew in Hin. rewrite Hin in Hsome. by destruct Hsome.
Qed.

Lemma extends_emit e w : extends w (emit e w) [e] 0 [].
Proof. split; simpl; auto. Qed.

Lemma extends_poke l d w : extends w (poke l d w) [] 0 [l].
Proof.
  split; simpl; auto.
  - by rewrite app_nil_r.
  - intros l' Hl' _. apply lookup_insert_ne. set_solver.
  - intros l' Hsome. destruct (decide (l = l')) as [->|Hne].
    + rewrite lookup_insert_eq. eauto.
    + by rewrite lookup_insert_ne.
Qed.

Lemma new_dict_fresh d w : heap w !! (new_dict d w).1 = None.
Proof.
  unfold new_dict. simpl. apply not_elem_of_dom. apply is_fresh.
Qed.

Lemma extends_new_dict d w : extends w (new_dict d w).2 [] 0 [].
Proof.
  eapply extends_untouched; [apply extends_poke|].
  intros l Hl. apply list_elem_of_singleton in Hl as ->.
  apply (new_dict_fresh d w).
Qed.

Lemma same_session_trans (s s' s'' : t C) :
  same_session s s' -> same_session s' s'' -> same_session s s''.
Proof. intros (?&?&?) (?&?&?). repeat split; congruence. Qed.

Lemma open_auth_request_spec (st : state) s ar st1 :
  open_auth_request st = (s, ar, st1) ->
  s = sessions st.2 /\ ar = Request.__init__ (Some s) /\
  extends st.2 st1.2 [SessionCreated s] 0 [] /\
  same_session st.1 st1.1 /\ heap st1.2 = heap st.2.
Proof.
  destruct st as [self w]. unfold open_auth_request. simpl.
  intros [= <- <- <-]. simpl. repeat split; auto.
Qed.

Lemma copy_headers_spec headers (st : state) rh st2 :
  copy_headers headers st = (rh, st2) ->
  extends st.2 st2.2 [] 0 [] /\ st2.1 = st.1 /\
  heap st.2 !! rh = None /\
  heap st2.2 !! rh = Some (default ∅ (headers ≫= (heap st.2 !!.))).
Proof.
  destruct st as [self w]. unfold copy_headers. cbn [fst snd].
  set (contents := match headers with Some _ => _ | None => _ end).
  assert (Hc : contents = default ∅ (headers ≫= (heap w !!.)))
    by (by destruct headers).
  rewrite <- Hc.
  intros [= <- <-]. simpl.
  split; [apply (extends_new_dict contents w)|].
  split; [reflexivity|].
  split; [apply (new_dict_fresh contents w)|apply lookup_insert_eq].
Qed.

(** A guard that lets the operation through has seen it complete, and
    holds what is left of the budget. *)
Lemma guarded_spec {A : Type} budget (body : state -> result A * state)
    (st : state) r st' :
  guarded budget body st = (r, st') ->
  exists r0, body (st.1, emit (Guard budget) st.2) = (r0, st') /\
    match r with
    | Return (a, g) =>
        r0 = Return a /\
        requests.TimeoutGuard.remaining_timeout g
        = (fun b => b - (clock st'.2 - clock st.2)) <$> budget
    | Raise e => True
    end.
Proof.
  unfold guarded.
  destruct (body (st.1, emit (Guard budget) st.2)) as [r0 st0] eqn:Hbody.
  destruct r0 as [a|e]; simpl.
  - destruct budget as [b|]; simpl.
    + destruct (b - (clock st0.2 - clock st.2) <=? 0); intros [= <- <-]; eauto.
    + intros [= <- <-]; eauto.
  - intros [= <- <-]; eauto.
Qed.

Lemma call_before_request_spec ar method url rh (st : state) r st' :
  call_before_request ar method url rh st = (r, st') ->
  extends st.2 st'.2 [BeforeRequest rh (default ∅ (heap st.2 !! rh))] 0 [rh]
  /\ same_session st.1 st'.1.
Proof.
  destruct st as [self w]. unfold call_before_request.
  intros [= <- <-]. simpl. split; [|by repeat split].
  split; simpl.
  - reflexivity.
  - lia.
  - intros l Hl _. apply lookup_insert_ne. set_solver.
  - intros l Hsome. destruct (decide (rh = l)) as [->|Hne].
    + rewrite lookup_insert_eq. eauto.
    + by rewrite lookup_insert_ne.
Qed.

Lemma super_request_spec method url data rh timeout (st : state) r st' :
  super_request net method url data rh timeout st = (r, st') ->
  exists call,
    r = answer net (issued st.2) call /\
    extends st.2 st'.2 [Sent call] 1 [] /\ st'.1 = st.1 /\
    clock st'.2 = clock st.2 + latency net (issued st.2) call.
Proof.
  destruct st as [self w]. unfold super_request, session_request.
  intros [= <- <-]. eexists. split; [reflexivity|]. simpl.
  split; [|split; reflexivity]. split; simpl; auto. lia.
Qed.

Lemma call_refresh_spec ar (st : state) r st' :
  call_refresh ar st = (r, st') ->
  extends st.2 st'.2 [Refresh] 0 [] /\ same_session st.1 st'.1.
Proof.
  destruct st as [self w]. unfold call_refresh.
  intros [= <- <-]. simpl. split; [|by repeat split].
  split; simpl; auto.
Qed.

(** One level of [request]: the pass that sends the request once, and
    then either the end of the call or a forced refresh followed by
    the recursive call. *)
Lemma request_rec_cases fuel method url data headers mat timeout attempt
    (st : state) r st' :
  request_rec net (S fuel) method url data headers mat timeout attempt st
  = Some (r, st') ->
  exists session (st4 : state) evs1 n1,
    extends st.2 st4.2 evs1 n1 [] /\ same_session st.1 st4.1 /\
    entries evs1 = [(headers, headers ≫= (heap st.2 !!.))] /\
    (exists rh,
       heap st.2 !! rh = None /\
       applied evs1 = [(rh, default ∅ (headers ≫= (heap st.2 !!.)))]) /\
    refreshes evs1 = O /\ sends evs1 = n1 /\
    budgets evs1 = take (S n1) [mat; mat] /\
    ((st' = close_auth_session session st4 /\
      ((exists e, r = Raise e) \/
       (exists call response,
          n1 = 1%nat /\ r = Return response /\
          answer net (issued st.2) call = Return response /\
          retries st.1 response attempt = false))) \/
     (exists call response (st5 : state) rem,
        n1 = 1%nat /\
        answer net (issued st.2) call = Return response /\
        retries st.1 response attempt = true /\
        extends st4.2 st5.2
          [Info (status response) (attempt + 1) (_max_refresh_attempts st.1);
           Guard ((fun b => b - latency net (issued st.2) call) <$> mat);
           Refresh] 0 [] /\
        same_session st4.1 st5.1 /\
        ((exists e, r = Raise e /\ st' = close_auth_session session st5) \/
         (exists st6,
            request_rec net fuel method url data headers rem timeout
              (attempt + 1) st5 = Some (r, st6) /\
            st' = close_auth_session session st6)))).
Proof.
  cbn [request_rec].
  set (entered := Entered attempt headers (headers ≫= (heap st.2 !!.)) mat).
  set (st0 := (st.1, emit entered st.2)).
  destruct (open_auth_request st0) as [[session ar0] st1] eqn:Hopen.
  destruct (copy_headers headers st1) as [rh st2] eqn:Hcopy.
  apply open_auth_request_spec in Hopen as (_ & _ & E1 & S1 & Hheap1).
  apply copy_headers_spec in Hcopy as (E2 & S2 & Hrh & Hcontents).
  simpl in Hheap1. rewrite Hheap1 in Hcontents.
  set (contents := default ∅ (headers ≫= (heap st.2 !!.))) in *.
  pose proof (extends_emit entered st.2) as E0.
  pose proof (extends_trans _ _ _ _ _ _ _ _ _ E0 E1) as E01.
  pose proof (extends_trans _ _ _ _ _ _ _ _ _ E01 E2) as E02.
  simpl in E02.
  assert (Hnew : heap st.2 !! rh = None).
  { destruct (heap st.2 !! rh) eqn:Hl; [|reflexivity].
    destruct (extends_dom _ _ _ _ _ E01 rh) as [x Hx]; [by rewrite Hl; eauto|].
    simpl in Hx. congruence. }
  assert (S02 : same_session st.1 st2.1) by (rewrite S2; exact S1).
  clear E0 E1 E2 E01 S1 S2 Hrh Hheap1.
  (* the guarded [before_request] *)
  destruct (guarded mat _ st2) as [r1 st3] eqn:Hg1.
  apply guarded_spec in Hg1 as (r1' & Hb1 & Hr1).
  apply call_before_request_spec in Hb1 as (E3 & S3). simpl in E3, S3.
  rewrite Hcontents in E3. simpl in E3.
  pose proof (extends_trans _ _ _ _ _ _ _ _ _
                (extends_emit (Guard mat) st2.2) E3) as E23.
  pose proof (extends_trans _ _ _ _ _ _ _ _ _ E02 E23) as E03. simpl in E03.
  apply extends_untouched in E03;
    [|by intros l Hl; apply list_elem_of_singleton in Hl as ->].
  pose proof (same_session_trans _ _ _ S02 S3) as S03.
  clear E3 E23 E02 S02 S3.
  destruct r1 as [[[] g1]|e1].
  2:{ intros [= <- <-]. exists session, st3. do 2 eexists.
      split; [exact E03|]. split; [exact S03|]. simpl.
      split; [reflexivity|]. split; [by exists rh|].
      split; [reflexivity|]. split; [reflexivity|]. split; [reflexivity|].
      left. split; [reflexivity|]. left. eauto. }
  clear Hr1 r1'.
  (* the guarded request *)
  destruct (guarded mat _ st3) as [r2 st4] eqn:Hg2.
  apply guarded_spec in Hg2 as (r2' & Hb2 & Hr2).
  apply super_request_spec in Hb2 as (call & Hans & E4 & S4 & Hclock).
  simpl in Hans, E4, S4, Hclock.
  pose proof (extends_trans _ _ _ _ _ _ _ _ _
                (extends_emit (Guard mat) st3.2) E4) as E34.
  pose proof (extends_trans _ _ _ _ _ _ _ _ _ E03 E34) as E04. simpl in E04.
  assert (S04 : same_session st.1 st4.1) by (rewrite S4; exact S03).
  assert (Hidx : issued st3.2 = issued st.2)
    by (rewrite (extends_issued _ _ _ _ _ E03); lia).
  rewrite Hidx in Hans, Hclock.
  assert (Hsummary :
    extends st.2 st4.2
      [entered; SessionCreated session; Guard mat;
       BeforeRequest rh contents; Guard mat; Sent call] 1 [] /\
    entries [entered; SessionCreated session; Guard mat;
             BeforeRequest rh contents; Guard mat; Sent call]
    = [(headers, headers ≫= (heap st.2 !!.))] /\
    (exists rh',
       heap st.2 !! rh' = None /\
       applied [entered; SessionCreated session; Guard mat;
                BeforeRequest rh contents; Guard mat; Sent call]
       = [(rh', contents)])).
  { split; [exact E04|]. split; [reflexivity|]. by exists rh. }
  destruct Hsummary as (E & Hentries & Happlied).
  clear E4 E34 E03 E04 S03 S4 Hidx.
  destruct r2 as [[response g2]|e2].
  2:{ intros [= <- <-]. exists session, st4. do 2 eexists.
      split; [exact E|]. split; [exact S04|].
      split; [exact Hentries|]. split; [exact Happlied|].
      split; [reflexivity|]. split; [reflexivity|]. split; [reflexivity|].
      left. split; [reflexivity|]. left. eauto. }
  destruct Hr2 as [-> Hrem2]. symmetry in Hans.
  assert (Hretries :
    bool_decide (status response ∈ _refresh_status_codes st4.1)
    && (attempt <? _max_refresh_attempts st4.1)
    = retries st.1 response attempt).
  { unfold retries. destruct S04 as (_ & -> & ->). reflexivity. }
  rewrite Hretries.
  destruct (retries st.1 response attempt) eqn:Hretry.
  2:{ intros [= <- <-]. exists session, st4. do 2 eexists.
      split; [exact E|]. split; [exact S04|].
      split; [exact Hentries|]. split; [exact Happlied|].
      split; [reflexivity|]. split; [reflexivity|]. split; [reflexivity|].
      left. split; [reflexivity|]. right. exists call, response. auto. }
  (* the forced refresh *)
  set (info := Info _ _ _).
  destruct (guarded _ _ (st4.1, emit info st4.2)) as [r3 st5] eqn:Hg3.
  apply guarded_spec in Hg3 as (r3' & Hb3 & Hr3).
  apply call_refresh_spec in Hb3 as (E5 & S5). simpl in E5, S5.
  pose proof (extends_trans _ _ _ _ _ _ _ _ _
                (extends_emit info st4.2)
                (extends_trans _ _ _ _ _ _ _ _ _
                   (extends_emit
                      (Guard (requests.TimeoutGuard.remaining_timeout g2))
                      (emit info st4.2)) E5)) as E45.
  simpl in E45. clear E5.
  assert (Hinfo : info = Info (status response) (attempt + 1)
                           (_max_refresh_attempts st.1)).
  { subst info. destruct S04 as (_ & _ & ->). reflexivity. }
  assert (Hbudget : requests.TimeoutGuard.remaining_timeout g2
                    = (fun b => b - latency net (issued st.2) call) <$> mat).
  { rewrite Hrem2. destruct mat as [b|]; simpl; [|reflexivity].
    f_equal. lia. }
  rewrite Hinfo, Hbudget in E45.
  intros Hrest. exists session, st4. do 2 eexists.
  split; [exact E|]. split; [exact S04|].
  split; [exact Hentries|]. split; [exact Happlied|].
  split; [reflexivity|]. split; [reflexivity|]. split; [reflexivity|].
  right. destruct r3 as [[[] g3]|e3].
  - destruct (request_rec net fuel _ _ _ _ _ _ _ st5) as [[r4 st6]|] eqn:Hrec;
      [|discriminate].
    injection Hrest as <- <-.
    exists call, response, st5,
      (requests.TimeoutGuard.remaining_timeout g3).
    repeat (split; [first [reflexivity | assumption]|]).
    right. exists st6. auto.
  - injection Hrest as <- <-.
    exists call, response, st5, None.
    repeat (split; [first [reflexivity | assumption]|]).
    left. eauto.
Qed.

(** The recursion runs out of fuel only below a retry. *)
Lemma request_rec_None fuel method url data headers mat timeout attempt
    (st : state) :
  request_rec net (S fuel) method url data headers mat timeout attempt st
  = None ->
  exists response (st5 : state) rem,
    retries st.1 response attempt = true /\ same_session st.1 st5.1 /\
    request_rec net fuel method url data headers rem timeout (attempt + 1) st5
    = None.
Proof.
  cbn [request_rec].
  set (st0 := (st.1, emit _ st.2)).
  destruct (open_auth_request st0) as [[session ar0] st1] eqn:Hopen.
  destruct (copy_headers headers st1) as [rh st2] eqn:Hcopy.
  apply open_auth_request_spec in Hopen as (_ & _ & _ & S1 & _).
  apply copy_headers_spec in Hcopy as (_ & S2 & _).
  destruct (guarded mat _ st2) as [r1 st3] eqn:Hg1.
  apply guarded_spec in Hg1 as (r1' & Hb1 & _).
  apply call_before_request_spec in Hb1 as (_ & S3).
  destruct r1 as [[[] g1]|e1]; [|discriminate].
  destruct (guarded mat _ st3) as [r2 st4] eqn:Hg2.
  apply guarded_spec in Hg2 as (r2' & Hb2 & _).
  apply super_request_spec in Hb2 as (_ & _ & _ & S4 & _).
  destruct r2 as [[response g2]|e2]; [|discriminate].
  assert (S04 : same_session st.1 st4.1).
  { rewrite S4. eapply same_session_trans; [|exact S3].
    simpl. rewrite S2. exact S1. }
  destruct (bool_decide _ && _) eqn:Hretry; [|discriminate].
  destruct (guarded _ _ _) as [r3 st5] eqn:Hg3.
  apply guarded_spec in Hg3 as (r3' & Hb3 & _).
  apply call_refresh_spec in Hb3 as (_ & S5).
  destruct r3 as [[[] g3]|e3]; [|discriminate].
  destruct (request_rec net fuel _ _ _ _ _ _ _ st5) as [[r4 st6]|] eqn:Hrec;
    [discriminate|].
  intros _. exists response, st5, (requests.TimeoutGuard.remaining_timeout g3).
  split; [|split; [|exact Hrec]].
  - unfold retries. destruct S04 as (_ & <- & <-). exact Hretry.
  - eapply same_session_trans; [exact S04|exact S5].
Qed.

Lemma request_rec_total fuel method url data headers mat timeout attempt
    (st : state) :
  (Z.to_nat (_max_refresh_attempts st.1 - attempt) < fuel)%nat ->
  is_Some (request_rec net fuel method url data headers mat timeout attempt st).
Proof.
  revert mat attempt st.
  induction fuel as [|fuel IH]; intros mat attempt st Hfuel; [lia|].
  destruct (request_rec net (S fuel) _ _ _ _ _ _ _ st) eqn:Hreq; [eauto|].
  apply request_rec_None in Hreq as (response & st5 & rem & Hretry & S5 & Hnone).
  unfold retries in Hretry. apply andb_true_iff in Hretry as [_ Hlt].
  apply Z.ltb_lt in Hlt. destruct S5 as (_ & _ & Hmax).
  destruct (IH rem (attempt + 1) st5) as [x Hx]; [rewrite Hmax; lia|].
  congruence.
Qed.

(** [request] always produces an outcome: the depth it is run with
    is never exhausted. *)
Lemma request_total method url data headers mat timeout attempt (st : state) :
  is_Some (request net method url data headers mat timeout attempt st).
Proof. apply request_rec_total. unfold depth. lia. Qed.

Lemma extends_close session (st : state) :
  extends st.2 (close_auth_session session st).2 [SessionClosed session] 0 [].
Proof. apply extends_emit. Qed.

Lemma extends_requests w w' evs n m t :
  extends w w' evs n t -> n = m -> extends w w' evs m t.
Proof. by intros ? <-. Qed.

(** What a call that returns a response has done. *)
Lemma request_rec_Return fuel method url data headers mat timeout attempt
    (st : state) resp st' :
  request_rec net fuel method url data headers mat timeout attempt st
  = Some (Return resp, st') ->
  exists evs,
    extends st.2 st'.2 evs (sends evs) [] /\
    same_session st.1 st'.1 /\
    sends evs = S (refreshes evs) /\
    Z.of_nat (refreshes evs)
    <= Z.max 0 (_max_refresh_attempts st.1 - attempt) /\
    (exists call,
       answer net (issued st.2 + refreshes evs) call = Return resp) /\
    retries st.1 resp (attempt + Z.of_nat (refreshes evs)) = false /\
    (forall i, (i < refreshes evs)%nat ->
       exists call response,
         answer net (issued st.2 + i) call = Return response /\
         retries st.1 response (attempt + Z.of_nat i) = true).
Proof.
  revert mat attempt st st'.
  induction fuel as [|fuel IH]; intros mat attempt st st' Hreq; [discriminate|].
  apply request_rec_cases in Hreq
    as (session & st4 & evs1 & n1 & E & S04 & _ & _ & Hr1 & Hs1 & _ & Hcases).
  destruct Hcases as [[-> Hend]|Hretry].
  - destruct Hend as [[e [=]]|(call & response & -> & [= <-] & Hans & Hno)].
    pose proof (extends_trans _ _ _ _ _ _ _ _ _ E (extends_close session st4))
      as Eall.
    assert (Hsends : sends (evs1 ++ [SessionClosed session]) = 1%nat)
      by (unfold sends in *; rewrite count_app, Hs1; reflexivity).
    assert (Hrefs : refreshes (evs1 ++ [SessionClosed session]) = 0%nat)
      by (unfold refreshes in *; rewrite count_app, Hr1; reflexivity).
    exists (evs1 ++ [SessionClosed session]). rewrite Hsends, Hrefs.
    split; [exact Eall|]. split; [assumption|].
    split; [reflexivity|]. split; [lia|].
    split; [exists call; by rewrite Nat.add_0_r|].
    split; [by rewrite Z.add_0_r|]. intros i Hi. lia.
  - destruct Hretry
      as (call & response & st5 & rem & -> & Hans & Hyes & E5 & S5 & Hrest).
    destruct Hrest as [(e & [=] & _)|(st6 & Hrec & ->)].
    apply IH in Hrec
      as (evs' & E' & S' & Hcount & Hbound & (call' & Hlast) & Hno & Hearlier).
    pose proof (same_session_trans _ _ _ S04 S5) as S05.
    assert (Hidx : issued st5.2 = S (issued st.2)).
    { rewrite (extends_issued _ _ _ _ _ E5), (extends_issued _ _ _ _ _ E). lia. }
    assert (Hlt : attempt < _max_refresh_attempts st.1).
    { unfold retries in Hyes. apply andb_true_iff in Hyes as [_ Hlt].
      by apply Z.ltb_lt. }
    pose proof (extends_trans _ _ _ _ _ _ _ _ _ E
                  (extends_trans _ _ _ _ _ _ _ _ _ E5
                     (extends_trans _ _ _ _ _ _ _ _ _ E'
                        (extends_close session st6)))) as Eall.
    match type of Eall with
    | extends _ _ ?l _ _ => set (evs := l) in *
    end.
    assert (Hsends : sends evs = S (sends evs')).
    { subst evs. unfold sends in *. rewrite !count_app, Hs1. simpl. lia. }
    assert (Hrefs : refreshes evs = S (refreshes evs')).
    { subst evs. unfold refreshes in *. rewrite !count_app, Hr1. simpl. lia. }
    exists evs. rewrite Hsends, Hrefs.
    split; [eapply extends_requests; [exact Eall|lia]|].
    split; [eapply same_session_trans; [exact S05|exact S']|].
    split; [lia|].
    destruct S05 as (_ & Hcodes & Hmax).
    split; [rewrite Hmax in Hbound; lia|].
    split.
    { exists call'. rewrite Hidx in Hlast.
      by replace (issued st.2 + S (refreshes evs'))%nat
           with (S (issued st.2) + refreshes evs')%nat by lia. }
    split.
    { revert Hno. unfold retries. rewrite Hcodes, Hmax.
      by replace (attempt + 1 + Z.of_nat (refreshes evs'))
           with (attempt + Z.of_nat (S (refreshes evs'))) by lia. }
    intros [|i] Hi.
    + exists call, response. by rewrite Nat.add_0_r, Z.add_0_r.
    + destruct (Hearlier i) as (c & rsp & Ha & Hr); [lia|].
      exists c, rsp. split.
      * rewrite Hidx in Ha.
        by replace (issued st.2 + S i)%nat with (S (issued st.2) + i)%nat by lia.
      * revert Hr. unfold retries. rewrite Hcodes, Hmax.
        by replace (attempt + 1 + Z.of_nat i)
             with (attempt + Z.of_nat (S i)) by lia.
Qed.

(** What any call leaves behind: the dictionaries that existed are
    unchanged, every entry into [request] was given the caller's
    [headers], and the credentials were applied to new dictionaries
    that started as copies of the caller's. *)
Lemma request_rec_frame fuel method url data headers mat timeout attempt
    (st : state) r st' :
  (forall l, headers = Some l -> is_Some (heap st.2 !! l)) ->
  request_rec net fuel method url data headers mat timeout attempt st
  = Some (r, st') ->
  exists evs n,
    extends st.2 st'.2 evs n [] /\
    entries evs <> [] /\
    (forall e, e ∈ entries evs -> e = (headers, headers ≫= (heap st.2 !!.))) /\
    applied evs <> [] /\
    (forall p, p ∈ applied evs ->
       heap st.2 !! p.1 = None /\
       p.2 = default ∅ (headers ≫= (heap st.2 !!.))).
Proof.
  revert mat attempt st r st'.
  induction fuel as [|fuel IH]; intros mat attempt st r st' Hcaller Hreq;
    [discriminate|].
  apply request_rec_cases in Hreq
    as (session & st4 & evs1 & n1 & E & _ & Hent & (rh & Hrh & Happ) & _ & _
        & _ & Hcases).
  assert (Happ1 : forall p, p ∈ applied evs1 ->
            heap st.2 !! p.1 = None /\
            p.2 = default ∅ (headers ≫= (heap st.2 !!.))).
  { rewrite Happ. intros p Hp. by apply list_elem_of_singleton in Hp as ->. }
  destruct Hcases as [[-> _]|Hretry].
  - pose proof (extends_trans _ _ _ _ _ _ _ _ _ E (extends_close session st4))
      as Eall.
    eexists _, _. split; [exact Eall|].
    rewrite entries_app, applied_app, Hent. simpl. rewrite app_nil_r.
    split; [discriminate|]. split.
    { intros e He. by apply list_elem_of_singleton in He. }
    split; [by rewrite Happ|exact Happ1].
  - destruct Hretry
      as (call & response & st5 & rem & -> & _ & _ & E5 & _ & Hrest).
    pose proof (extends_trans _ _ _ _ _ _ _ _ _ E E5) as E05.
    assert (Hsame : headers ≫= (heap st5.2 !!.) = headers ≫= (heap st.2 !!.)).
    { destruct headers as [l|]; simpl; [|reflexivity].
      apply (extends_heap _ _ _ _ _ E05); [apply not_elem_of_nil|].
      by apply Hcaller. }
    destruct Hrest as [(e & -> & ->)|(st6 & Hrec & ->)].
    + pose proof (extends_trans _ _ _ _ _ _ _ _ _ E05
                    (extends_close session st5)) as Eall.
      eexists _, _. split; [exact Eall|].
      rewrite !entries_app, !applied_app, Hent. simpl. rewrite !app_nil_r.
      split; [discriminate|]. split.
      { intros e' He. by apply list_elem_of_singleton in He. }
      split; [by rewrite Happ|exact Happ1].
    + apply IH in Hrec as (evs' & n' & E' & _ & Hent' & _ & Happ').
      2:{ intros l Hl. apply (extends_dom _ _ _ _ _ E05). by apply Hcaller. }
      pose proof (extends_trans _ _ _ _ _ _ _ _ _ E05
                    (extends_trans _ _ _ _ _ _ _ _ _ E'
                       (extends_close session st6))) as Eall.
      eexists _, _. split; [exact Eall|].
      rewrite !entries_app, !applied_app, Hent. simpl. rewrite !app_nil_r.
      split; [discriminate|]. split; [|split].
      * intros e He. apply elem_of_cons in He as [->|He]; [reflexivity|].
        rewrite (Hent' e He). by rewrite Hsame.
      * rewrite Happ. discriminate.
      * intros p Hp. apply elem_of_app in Hp as [Hp|Hp]; [by apply Happ1|].
        destruct (Happ' p Hp) as [Hnone ->]. rewrite Hsame. split; [|reflexivity].
        destruct (heap st.2 !! p.1) eqn:Hl; [|reflexivity].
        destruct (extends_dom _ _ _ _ _ E05 p.1) as [x Hx]; [by rewrite Hl; eauto|].
        congruence.
Qed.

(** Without a budget a guard lets every completed operation through. *)
Lemma guarded_None {A : Type} (body : state -> result A * state) (st : state)
    a st' :
  body (st.1, emit (Guard None) st.2) = (Return a, st') ->
  exists g,
    guarded None body st = (Return (a, g), st') /\
    requests.TimeoutGuard.remaining_timeout g = None.
Proof.
  intros Hbody. unfold guarded. rewrite Hbody. simpl. eauto.
Qed.

(** Without a time budget, with credentials that do not raise and a
    wrapped call that answers, [request] returns a response. *)
Lemma request_rec_returns fuel method url data headers timeout attempt
    (st : state) :
  quiet C -> answering net ->
  (Z.to_nat (_max_refresh_attempts st.1 - attempt) < fuel)%nat ->
  exists resp st',
    request_rec net fuel method url data headers None timeout attempt st
    = Some (Return resp, st').
Proof.
  intros [Hbefore Hrefresh] Hanswer. revert attempt st.
  induction fuel as [|fuel IH]; intros attempt st Hfuel; [lia|].
  cbn [request_rec].
  set (st0 := (st.1, emit _ st.2)).
  destruct (open_auth_request st0) as [[session ar0] st1] eqn:Hopen.
  destruct (copy_headers headers st1) as [rh st2] eqn:Hcopy.
  apply open_auth_request_spec in Hopen as (_ & _ & _ & S1 & _).
  apply copy_headers_spec in Hcopy as (_ & S2 & _).
  (* the guarded [before_request] *)
  destruct (call_before_request (bind_timeout ar0 timeout) method url rh
              (st2.1, emit (Guard None) st2.2)) as [r1 st3] eqn:Hb1.
  assert (r1 = Return tt) as ->.
  { revert Hb1. destruct st2 as [self2 w2]. unfold call_before_request.
    cbn [fst snd]. rewrite Hbefore. by intros [= <- _]. }
  pose proof Hb1 as Hs1. apply call_before_request_spec in Hs1 as (_ & S3).
  apply guarded_None in Hb1 as (g1 & -> & _).
  (* the guarded request *)
  destruct (super_request net method url data rh timeout
              (st3.1, emit (Guard None) st3.2)) as [r2 st4] eqn:Hb2.
  pose proof Hb2 as Hs2.
  apply super_request_spec in Hs2 as (call & Hans & _ & S4 & _).
  destruct (Hanswer (issued (emit (Guard None) st3.2)) call) as [response Hresp].
  simpl in Hans. simpl in Hresp. rewrite Hresp in Hans. subst r2.
  apply guarded_None in Hb2 as (g2 & -> & Hrem2).
  assert (S04 : same_session st.1 st4.1).
  { rewrite S4. eapply same_session_trans; [|exact S3].
    simpl. rewrite S2. exact S1. }
  destruct (bool_decide _ && _) eqn:Hretry; [|eauto].
  (* the forced refresh *)
  rewrite Hrem2.
  set (info := Info _ _ _).
  destruct (call_refresh (bind_timeout ar0 timeout)
              ((st4.1, emit info st4.2).1,
               emit (Guard None) (st4.1, emit info st4.2).2))
    as [r3 st5] eqn:Hb3.
  assert (r3 = Return tt) as ->.
  { revert Hb3. destruct st4 as [self4 w4]. unfold call_refresh.
    cbn [fst snd]. rewrite Hrefresh. by intros [= <- _]. }
  pose proof Hb3 as Hs3. apply call_refresh_spec in Hs3 as (_ & S5).
  apply guarded_None in Hb3 as (g3 & -> & ->).
  apply andb_true_iff in Hretry as [_ Hlt]. apply Z.ltb_lt in Hlt.
  destruct S04 as (_ & _ & Hmax04).
  destruct (IH (attempt + 1) st5) as (resp & st6 & ->); [|eauto].
  destruct S5 as (_ & _ & Hmax5). simpl in Hmax5.
  rewrite Hmax5, Hmax04. rewrite Hmax04 in Hlt. lia.
Qed.

(** The guard around the request is given [max_allowed_time] itself:
    the time that [before_request] took is not deducted from it. *)
Lemma request_guard_gets_whole_budget fuel method url data headers mat timeout
    attempt (st : state) r st' :
  request_rec net fuel method url data headers mat timeout attempt st
  = Some (r, st') ->
  exists evs n,
    extends st.2 st'.2 evs n [] /\
    ((0 < n)%nat -> exists rest, budgets evs = mat :: mat :: rest).
Proof.
  revert mat attempt st r st'.
  induction fuel as [|fuel IH]; intros mat attempt st r st' Hreq; [discriminate|].
  apply request_rec_cases in Hreq
    as (session & st4 & evs1 & n1 & E & _ & _ & _ & _ & _ & Hb & Hcases).
  destruct Hcases as [[-> _]|Hretry].
  - pose proof (extends_trans _ _ _ _ _ _ _ _ _ E (extends_close session st4))
      as Eall.
    eexists _, _. split; [exact Eall|].
    intros Hn. rewrite budgets_app, Hb.
    destruct n1 as [|n1]; [lia|]. simpl. eauto.
  - destruct Hretry
      as (call & response & st5 & rem & -> & _ & _ & E5 & _ & Hrest).
    pose proof (extends_trans _ _ _ _ _ _ _ _ _ E E5) as E05.
    destruct Hrest as [(e & -> & ->)|(st6 & Hrec & ->)].
    + pose proof (extends_trans _ _ _ _ _ _ _ _ _ E05
                    (extends_close session st5)) as Eall.
      eexists _, _. split; [exact Eall|].
      intros _. rewrite !budgets_app, Hb. simpl. eauto.
    + apply IH in Hrec as (evs' & n' & E' & _).
      pose proof (extends_trans _ _ _ _ _ _ _ _ _ E05
                    (extends_trans _ _ _ _ _ _ _ _ _ E'
                       (extends_close session st6))) as Eall.
      eexists _, _. split; [exact Eall|].
      intros _. rewrite !budgets_app, Hb. simpl. eauto.
Qed.

Lemma created_app (l l' : list event) :
  created (l ++ l') = created l ++ created l'.
Proof.
  induction l as [|e l IH]; simpl; [reflexivity|].
  destruct e; simpl; rewrite ?IH; reflexivity.
Qed.

Lemma closed_app (l l' : list event) :
  closed (l ++ l') = closed l ++ closed l'.
Proof.
  induction l as [|e l IH]; simpl; [reflexivity|].
  destruct e; simpl; rewrite ?IH; reflexivity.
Qed.

Lemma sent_app (l l' : list event) : sent (l ++ l') = sent l ++ sent l'.
Proof.
  induction l as [|e l IH]; simpl; [reflexivity|].
  destruct e; simpl; rewrite ?IH; reflexivity.
Qed.

(** Why a guarded operation fails: the operation itself raised, or it
    completed and the budget, which there was, is used up. *)
Lemma guarded_cases {A : Type} budget (body : state -> result A * state)
    (st : state) r st' :
  guarded budget body st = (r, st') ->
  exists r0, body (st.1, emit (Guard budget) st.2) = (r0, st') /\
    match r with
    | Return (a, g) => r0 = Return a
    | Raise e =>
        r0 = Raise e \/
        (e = TimeoutError /\ is_Some budget /\ exists a, r0 = Return a)
    end.
Proof.
  unfold guarded.
  destruct (body (st.1, emit (Guard budget) st.2)) as [r0 st0] eqn:Hbody.
  destruct r0 as [a|e]; simpl.
  - destruct budget as [b|]; simpl.
    + destruct (b - (clock st0.2 - clock st.2) <=? 0); intros [= <- <-];
        eauto 7.
    + intros [= <- <-]; eauto.
  - intros [= <- <-]; eauto.
Qed.

Lemma open_auth_request_keeps (st : state) s ar st1 :
  open_auth_request st = (s, ar, st1) ->
  credentials st1.1 = credentials st.1 /\ clock st1.2 = clock st.2.
Proof.
  destruct st as [self w]. unfold open_auth_request. simpl.
  by intros [= <- <- <-].
Qed.

Lemma copy_headers_clock headers (st : state) rh st2 :
  copy_headers headers st = (rh, st2) -> clock st2.2 = clock st.2.
Proof.
  destruct st as [self w]. unfold copy_headers. cbn [fst snd].
  by intros [= <- <-].
Qed.

Lemma call_before_request_effect ar method url rh (st : state) r st' :
  call_before_request ar method url rh st = (r, st') ->
  let eff :=
    before_request (credentials st.1) ar method url
      (default ∅ (heap st.2 !! rh)) (clock st.2) in
  r = match raised eff with Some e => Raise e | None => Return tt end /\
  heap st'.2 !! rh = Some (after eff).2 /\
  credentials st'.1 = (after eff).1.
Proof.
  destruct st as [self w]. unfold call_before_request.
  intros [= <- <-]. simpl. split; [reflexivity|].
  split; [apply lookup_insert_eq|reflexivity].
Qed.

Lemma super_request_call method url data rh timeout (st : state) r st' :
  super_request net method url data rh timeout st = (r, st') ->
  let call :=
    {| call_session := client_session st.1; call_method := method;
       call_url := url; call_data := data;
       call_headers := Some (default ∅ (heap st.2 !! rh));
       call_timeout := timeout |} in
  r = answer net (issued st.2) call /\
  extends st.2 st'.2 [Sent call] 1 [] /\ st'.1 = st.1.
Proof.
  destruct st as [self w]. unfold super_request, session_request.
  intros [= <- <-]. simpl. split; [reflexivity|].
  split; [|reflexivity]. split; simpl; auto. lia.
Qed.

Lemma call_refresh_effect ar (st : state) r st' :
  call_refresh ar st = (r, st') ->
  r = match raised (refresh (credentials st.1) ar (clock st.2)) with
      | Some e => Raise e
      | None => Return tt
      end /\
  credentials st'.1 = after (refresh (credentials st.1) ar (clock st.2)).
Proof.
  destruct st as [self w]. unfold call_refresh. by intros [= <- <-].
Qed.
(** One pass of [request], with what it logs: the entry, the new
    session, the guarded [before_request] on a copy of the caller's
    headers and, unless that fails, the guarded request, which
    carries the headers that [before_request] left; then the end of
    the call, or a forced refresh followed by the recursive call. *)
Lemma request_rec_pass fuel method url data headers mat timeout attempt
    (st : state) r st' :
  request_rec net (S fuel) method url data headers mat timeout attempt st
  = Some (r, st') ->
  let contents := default ∅ (headers ≫= (heap st.2 !!.)) in
  let session := sessions st.2 in
  let ar := bind_timeout (Request.__init__ (Some session)) timeout in
  let eff :=
    before_request (credentials st.1) ar method url contents (clock st.2) in
  let call :=
    {| call_session := client_session st.1; call_method := method;
       call_url := url; call_data := data;
       call_headers := Some (after eff).2; call_timeout := timeout |} in
  exists (st4 : state) rh,
    let before :=
      [Entered attempt headers (headers ≫= (heap st.2 !!.)) mat;
       SessionCreated session; Guard mat; BeforeRequest rh contents] in
    same_session st.1 st4.1 /\
    ((extends st.2 st4.2 before 0 [] /\
      credentials st4.1 = (after eff).1 /\
      st' = close_auth_session session st4 /\
      exists e, r = Raise e /\
        (raised eff = Some e \/ (e = TimeoutError /\ is_Some mat))) \/
     (raised eff = None /\
      credentials st4.1 = (after eff).1 /\
      extends st.2 st4.2 (before ++ [Guard mat; Sent call]) 1 [] /\
      ((st' = close_auth_session session st4 /\
        ((exists e, r = Raise e /\
            (answer net (issued st.2) call = Raise e \/
             (e = TimeoutError /\ is_Some mat))) \/
         (exists response,
            r = Return response /\
            answer net (issued st.2) call = Return response /\
            retries st.1 response attempt = false))) \/
       (exists response (st5 : state) rem budget,
          answer net (issued st.2) call = Return response /\
          retries st.1 response attempt = true /\
          extends st4.2 st5.2
            [Info (status response) (attempt + 1) (_max_refresh_attempts st.1);
             Guard budget; Refresh] 0 [] /\
          same_session st4.1 st5.1 /\
          credentials st5.1
          = after (refresh (credentials st4.1) ar (clock st4.2)) /\
          ((is_Some budget -> is_Some mat) /\
           (is_Some rem -> is_Some mat)) /\
          ((st' = close_auth_session session st5 /\
            exists e, r = Raise e /\
              (raised (refresh (credentials st4.1) ar (clock st4.2)) = Some e \/
               (e = TimeoutError /\ is_Some budget))) \/
           (exists st6,
              raised (refresh (credentials st4.1) ar (clock st4.2)) = None /\
              request_rec net fuel method url data headers rem timeout
                (attempt + 1) st5 = Some (r, st6) /\
              st' = close_auth_session session st6)))))).
Proof.
  intros Hreq contents session ar eff call. revert Hreq.
  cbn [request_rec].
  set (entered := Entered attempt headers (headers ≫= (heap st.2 !!.)) mat).
  set (st0 := (st.1, emit entered st.2)).
  destruct (open_auth_request st0) as [[session' ar0] st1] eqn:Hopen.
  destruct (copy_headers headers st1) as [rh st2] eqn:Hcopy.
  pose proof (open_auth_request_keeps _ _ _ _ Hopen) as [Hcred1 Hclock1].
  pose proof (copy_headers_clock _ _ _ _ Hcopy) as Hclock2.
  apply open_auth_request_spec in Hopen as (Hsess & Har & E1 & S1 & Hheap1).
  apply copy_headers_spec in Hcopy as (E2 & S2 & Hrh & Hcontents).
  simpl in Hsess, Hheap1, Hcred1, Hclock1.
  rewrite Hheap1 in Hcontents. fold contents in Hcontents.
  subst session' ar0. fold session in E1 |- *.
  pose proof (extends_emit entered st.2) as E0.
  pose proof (extends_trans _ _ _ _ _ _ _ _ _ E0 E1) as E01.
  pose proof (extends_trans _ _ _ _ _ _ _ _ _ E01 E2) as E02.
  simpl in E02.
  assert (Hnew : heap st.2 !! rh = None).
  { destruct (heap st.2 !! rh) eqn:Hl; [|reflexivity].
    destruct (extends_dom _ _ _ _ _ E01 rh) as [x Hx]; [by rewrite Hl; eauto|].
    simpl in Hx. congruence. }
  assert (S02 : same_session st.1 st2.1) by (rewrite S2; exact S1).
  assert (Hcred2 : credentials st2.1 = credentials st.1) by congruence.
  assert (Hclock02 : clock st2.2 = clock st.2) by congruence.
  clear E0 E1 E2 E01 S1 S2 Hrh Hheap1 Hcred1 Hclock1 Hclock2.
  (* the guarded [before_request] *)
  fold ar.
  destruct (guarded mat _ st2) as [r1 st3] eqn:Hg1.
  apply guarded_cases in Hg1 as (r1' & Hb1 & Hr1).
  pose proof (call_before_request_effect _ _ _ _ _ _ _ Hb1)
    as (Hr1' & Hheap3 & Hcred3).
  simpl in Hr1', Hheap3, Hcred3.
  rewrite Hcontents, Hcred2, Hclock02 in Hr1', Hheap3, Hcred3.
  change (before_request _ _ _ _ _ _) with eff in Hr1', Hheap3, Hcred3.
  apply call_before_request_spec in Hb1 as (E3 & S3). simpl in E3, S3.
  rewrite Hcontents in E3. simpl in E3.
  pose proof (extends_trans _ _ _ _ _ _ _ _ _
                (extends_emit (Guard mat) st2.2) E3) as E23.
  pose proof (extends_trans _ _ _ _ _ _ _ _ _ E02 E23) as E03. simpl in E03.
  apply extends_untouched in E03;
    [|by intros l Hl; apply list_elem_of_singleton in Hl as ->].
  pose proof (same_session_trans _ _ _ S02 S3) as S03.
  clear E3 E23 E02 S02 S3.
  destruct r1 as [[[] g1]|e1].
  2:{ intros [= <- <-]. exists st3, rh. split; [exact S03|]. left.
      split; [exact E03|]. split; [exact Hcred3|]. split; [reflexivity|].
      exists e1.
      split; [reflexivity|].
      destruct Hr1 as [->|(-> & Hmat & _)]; [|by right].
      left. destruct (raised eff); congruence. }
  assert (Hquiet : raised eff = None).
  { subst r1'. destruct (raised eff); [discriminate|reflexivity]. }
  clear Hr1 Hr1' r1'.
  (* the guarded request *)
  destruct (guarded mat _ st3) as [r2 st4] eqn:Hg2.
  assert (Hbudget : forall response g2,
            r2 = Return (response, g2) ->
            is_Some (requests.TimeoutGuard.remaining_timeout g2) ->
            is_Some mat).
  { intros response g2 ->.
    apply guarded_spec in Hg2 as (_ & _ & _ & ->).
    by destruct mat; [eauto|intros [? [=]]]. }
  apply guarded_cases in Hg2 as (r2' & Hb2 & Hr2).
  apply super_request_call in Hb2 as (Hans & E4 & S4).
  simpl in Hans, E4, S4.
  assert (Hidx : issued st3.2 = issued st.2)
    by (rewrite (extends_issued _ _ _ _ _ E03); lia).
  assert (Hclient : client_session st3.1 = client_session st.1)
    by (by destruct S03 as (-> & _)).
  rewrite Hheap3, Hidx, Hclient in Hans. rewrite Hheap3, Hclient in E4.
  simpl in Hans, E4.
  change (Build_http_call _ _ _ _ _ _) with call in Hans, E4.
  pose proof (extends_trans _ _ _ _ _ _ _ _ _
                (extends_emit (Guard mat) st3.2) E4) as E34.
  pose proof (extends_trans _ _ _ _ _ _ _ _ _ E03 E34) as E04. simpl in E04.
  assert (S04 : same_session st.1 st4.1) by (rewrite S4; exact S03).
  assert (Hcred4 : credentials st4.1 = (after eff).1) by congruence.
  clear E4 E34 E03 S03 Hidx Hclient.
  destruct r2 as [[response g2]|e2].
  2:{ intros [= <- <-]. exists st4, rh. split; [exact S04|]. right.
      split; [exact Hquiet|]. split; [exact Hcred4|]. split; [exact E04|].
      left.
      split; [reflexivity|]. left. exists e2. split; [reflexivity|].
      destruct Hr2 as [Hr2|(-> & Hmat & _)]; [left; congruence|by right]. }
  rewrite Hr2 in Hans. symmetry in Hans.
  assert (Hretries :
    bool_decide (status response ∈ _refresh_status_codes st4.1)
    && (attempt <? _max_refresh_attempts st4.1)
    = retries st.1 response attempt).
  { unfold retries. destruct S04 as (_ & -> & ->). reflexivity. }
  rewrite Hretries.
  destruct (retries st.1 response attempt) eqn:Hretry.
  2:{ intros [= <- <-]. exists st4, rh. split; [exact S04|]. right.
      split; [exact Hquiet|]. split; [exact Hcred4|]. split; [exact E04|].
      left.
      split; [reflexivity|]. right. exists response. auto. }
  (* the forced refresh *)
  set (info := Info _ _ _).
  destruct (guarded _ _ (st4.1, emit info st4.2)) as [r3 st5] eqn:Hg3.
  assert (Hrem : forall u g3,
            r3 = Return (u, g3) ->
            is_Some (requests.TimeoutGuard.remaining_timeout g3) ->
            is_Some (requests.TimeoutGuard.remaining_timeout g2)).
  { intros u g3 ->.
    apply guarded_spec in Hg3 as (_ & _ & _ & ->).
    by destruct (requests.TimeoutGuard.remaining_timeout g2);
      [eauto|intros [? [=]]]. }
  apply guarded_cases in Hg3 as (r3' & Hb3 & Hr3).
  pose proof (call_refresh_effect _ _ _ _ Hb3) as [Hr3' Hcred5].
  simpl in Hr3', Hcred5.
  apply call_refresh_spec in Hb3 as (E5 & S5). simpl in E5, S5.
  pose proof (extends_trans _ _ _ _ _ _ _ _ _
                (extends_emit info st4.2)
                (extends_trans _ _ _ _ _ _ _ _ _
                   (extends_emit
                      (Guard (requests.TimeoutGuard.remaining_timeout g2))
                      (emit info st4.2)) E5)) as E45.
  simpl in E45. clear E5.
  assert (Hinfo : info = Info (status response) (attempt + 1)
                           (_max_refresh_attempts st.1)).
  { subst info. destruct S04 as (_ & _ & ->). reflexivity. }
  rewrite Hinfo in E45.
  intros Hrest. exists st4, rh. split; [exact S04|]. right.
  split; [exact Hquiet|]. split; [exact Hcred4|]. split; [exact E04|]. right.
  destruct r3 as [[[] g3]|e3].
  - destruct (request_rec net fuel _ _ _ _ _ _ _ st5) as [[r4 st6]|] eqn:Hrec;
      [|discriminate].
    injection Hrest as <- <-.
    exists response, st5, (requests.TimeoutGuard.remaining_timeout g3),
      (requests.TimeoutGuard.remaining_timeout g2).
    split; [exact Hans|]. split; [exact Hretry|]. split; [exact E45|].
    split; [exact S5|]. split; [exact Hcred5|].
    split.
    { split; [exact (Hbudget _ _ eq_refl)|].
      intros Hsome. exact (Hbudget _ _ eq_refl (Hrem _ _ eq_refl Hsome)). }
    right. exists st6.
    split; [|auto]. unfold ar. destruct (raised (refresh _ _ _)); congruence.
  - injection Hrest as <- <-.
    exists response, st5, None, (requests.TimeoutGuard.remaining_timeout g2).
    split; [exact Hans|]. split; [exact Hretry|]. split; [exact E45|].
    split; [exact S5|]. split; [exact Hcred5|].
    split; [split; [exact (Hbudget _ _ eq_refl)|by intros [? [=]]]|].
    left. split; [reflexivity|]. exists e3.
    split; [reflexivity|].
    destruct Hr3 as [->|(-> & Hb & _)]; [|by right].
    left. unfold ar. destruct (raised (refresh _ _ _)); congruence.
Qed.
Lemma sends_length (evs : list event) : length (sent evs) = sends evs.
Proof.
  unfold sends. induction evs as [|e evs IH]; simpl; [reflexivity|].
  destruct e; simpl; rewrite ?IH; reflexivity.
Qed.

(** What any call has done when it ends, with a response or with an
    exception: how it threaded the credentials, how many requests it
    sent and refreshes it forced, and which answers led to a
    refresh. *)
Lemma request_rec_outcome fuel method url data headers mat timeout attempt
    (st : state) r st' :
  request_rec net fuel method url data headers mat timeout attempt st
  = Some (r, st') ->
  exists evs,
    extends st.2 st'.2 evs (sends evs) [] /\
    same_session st.1 st'.1 /\
    threaded
      {| adapter := {| Request.session := None |}; bound_timeout := timeout |}
      method url (length (applied evs)) (refreshes evs)
      (credentials st.1) (credentials st'.1) /\
    ((refreshes evs <= sends evs)%nat /\
     (sends evs <= length (applied evs) <= S (refreshes evs))%nat) /\
    Z.of_nat (refreshes evs)
    <= Z.max 0 (_max_refresh_attempts st.1 - attempt) /\
    (forall i, (i < refreshes evs)%nat ->
       exists c response,
         sent evs !! i = Some c /\
         answer net (issued st.2 + i) c = Return response /\
         retries st.1 response (attempt + Z.of_nat i) = true) /\
    (forall i c response,
       sent evs !! i = Some c ->
       answer net (issued st.2 + i) c = Return response ->
       retries st.1 response (attempt + Z.of_nat i) = true ->
       (i < refreshes evs)%nat \/ (r = Raise TimeoutError /\ is_Some mat)) /\
    (forall i c response,
       sent evs !! i = Some c ->
       answer net (issued st.2 + i) c = Return response ->
       retries st.1 response (attempt + Z.of_nat i) = false ->
       r = Return response \/ (r = Raise TimeoutError /\ is_Some mat)) /\
    (forall resp, r = Return resp ->
       sends evs = S (refreshes evs) /\
       exists c,
         sent evs !! refreshes evs = Some c /\
         answer net (issued st.2 + refreshes evs) c = Return resp /\
         retries st.1 resp (attempt + Z.of_nat (refreshes evs)) = false).
Proof.
  revert mat attempt st r st'.
  induction fuel as [|fuel IH]; intros mat attempt st r st' Hreq;
    [discriminate|].
  apply request_rec_pass in Hreq. cbv zeta in Hreq.
  destruct Hreq as (st4 & rh & S04 & Hcases).
  set (session := sessions st.2) in *.
  destruct Hcases as [(E & Hcred & -> & e & -> & _)|(_ & Hcred4 & E & Hcases)].
  { pose proof (extends_trans _ _ _ _ _ _ _ _ _ E (extends_close session st4))
      as Eall.
    eexists. split; [exact Eall|]. split; [exact S04|].
    unfold sends, refreshes. simpl.
    split; [rewrite Hcred; apply threaded_pass|].
    split; [lia|]. split; [lia|]. split; [intros i Hi; lia|].
    split; [intros i c response Hc; by destruct i|].
    split; [intros i c response Hc; by destruct i|].
    discriminate. }
  match type of E with
  | extends _ _ (_ ++ [_; Sent ?c]) _ _ => set (call := c) in *
  end.
  destruct Hcases as [[-> Hend]|Hretry].
  { pose proof (extends_trans _ _ _ _ _ _ _ _ _ E (extends_close session st4))
      as Eall.
    eexists. split; [exact Eall|]. split; [exact S04|].
    unfold sends, refreshes. simpl.
    split; [rewrite Hcred4; apply threaded_pass|].
    split; [lia|]. split; [lia|]. split; [intros i Hi; lia|].
    split.
    - intros [|i] c response Hc Hans Hyes; [|by destruct i].
      injection Hc as <-. rewrite Nat.add_0_r in Hans.
      rewrite Z.add_0_r in Hyes. right.
      destruct Hend as [(e & -> & [Hraise|[-> Hmat]])
                       |(response' & _ & Hans' & Hno)].
      + congruence.
      + by split.
      + congruence.
    - split.
      { intros [|i] c response Hc Hans Hno; [|by destruct i].
        injection Hc as <-. rewrite Nat.add_0_r in Hans.
        destruct Hend as [(e & -> & [Hraise|[-> Hmat]])
                         |(response' & -> & Hans' & _)].
        - congruence.
        - right. by split.
        - left. congruence. }
      intros resp ->.
      destruct Hend as [(e & [=] & _)|(response' & [= <-] & Hans' & Hno)].
      split; [reflexivity|]. exists call.
      rewrite Nat.add_0_r, Z.add_0_r. by repeat split. }
  destruct Hretry
    as (response & st5 & rem & budget & Hans & Hyes & E5 & S5 & Hcred5
        & [_ Hrem] & Hrest).
  pose proof (extends_trans _ _ _ _ _ _ _ _ _ E E5) as E05.
  pose proof (same_session_trans _ _ _ S04 S5) as S05.
  assert (Hlt : attempt < _max_refresh_attempts st.1).
  { unfold retries in Hyes. apply andb_true_iff in Hyes as [_ Hlt].
    by apply Z.ltb_lt. }
  rewrite Hcred4 in Hcred5.
  destruct Hrest as [(-> & e & -> & _)|(st6 & _ & Hrec & ->)].
  { pose proof (extends_trans _ _ _ _ _ _ _ _ _ E05
                  (extends_close session st5)) as Eall.
    eexists. split; [exact Eall|]. split; [exact S05|].
    unfold sends, refreshes. simpl.
    split; [rewrite Hcred5; apply threaded_refresh|].
    split; [lia|]. split; [lia|]. split.
    - intros [|i] Hi; [|lia]. exists call, response.
      rewrite Nat.add_0_r, Z.add_0_r. by repeat split.
    - split; [|split; [|discriminate]].
      + intros [|i] c response' Hc _ _; [left; lia|by destruct i].
      + intros [|i] c response' Hc Ha Hno; [|by destruct i].
        injection Hc as <-. rewrite Nat.add_0_r in Ha.
        rewrite Z.add_0_r in Hno. congruence. }
  apply IH in Hrec
    as (evs' & E' & S' & Hth & Hcnt & Hbound & Hearlier & Hconv & Hother
        & Hret).
  pose proof (extends_trans _ _ _ _ _ _ _ _ _ E05
                (extends_trans _ _ _ _ _ _ _ _ _ E'
                   (extends_close session st6))) as Eall.
  match type of Eall with
  | extends _ _ ?l _ _ => set (evs := l) in *
  end.
  assert (Hsends : sends evs = S (sends evs')).
  { subst evs. unfold sends. rewrite !count_app. simpl. lia. }
  assert (Hrefs : refreshes evs = S (refreshes evs')).
  { subst evs. unfold refreshes. rewrite !count_app. simpl. lia. }
  assert (Happlied : length (applied evs) = S (length (applied evs'))).
  { subst evs. rewrite !applied_app. simpl. rewrite app_nil_r. reflexivity. }
  assert (Hsent : sent evs = call :: sent evs').
  { subst evs. rewrite !sent_app. simpl. rewrite app_nil_r. reflexivity. }
  assert (Hidx : issued st5.2 = S (issued st.2)).
  { rewrite (extends_issued _ _ _ _ _ E5), (extends_issued _ _ _ _ _ E). lia. }
  destruct S05 as (Hclient & Hcodes & Hmax).
  assert (Hsame : forall response' i,
            retries st5.1 response' (attempt + 1 + Z.of_nat i)
            = retries st.1 response' (attempt + Z.of_nat (S i))).
  { intros response' i. unfold retries. rewrite Hcodes, Hmax.
    by replace (attempt + 1 + Z.of_nat i)
         with (attempt + Z.of_nat (S i)) by lia. }
  exists evs. rewrite Hsends, Hrefs, Happlied, Hsent.
  split; [eapply extends_requests; [exact Eall|lia]|].
  split; [eapply same_session_trans; [|exact S']; by repeat split|].
  split.
  { rewrite Hcred5 in Hth. simpl. eapply threaded_retry. exact Hth. }
  split; [lia|]. split; [rewrite Hmax in Hbound; lia|].
  split.
  { intros [|i] Hi.
    - exists call, response. rewrite Nat.add_0_r, Z.add_0_r. by repeat split.
    - destruct (Hearlier i) as (c & response' & Hc & Ha & Hr); [lia|].
      exists c, response'. split; [exact Hc|]. split.
      + rewrite Hidx in Ha.
        by replace (issued st.2 + S i)%nat with (S (issued st.2) + i)%nat
          by lia.
      + by rewrite <- Hsame. }
  split.
  { intros [|i] c response' Hc Ha Hr; [left; lia|].
    simpl in Hc.
    destruct (Hconv i c response' Hc) as [Hi|[-> Hsome]].
    - rewrite Hidx.
      by replace (S (issued st.2) + i)%nat with (issued st.2 + S i)%nat
        by lia.
    - by rewrite Hsame.
    - left. lia.
    - right. split; [reflexivity|]. simpl. exact (Hrem Hsome). }
  split.
  { intros [|i] c response' Hc Ha Hno.
    - injection Hc as <-. rewrite Nat.add_0_r in Ha.
      rewrite Z.add_0_r in Hno. congruence.
    - simpl in Hc.
      destruct (Hother i c response' Hc) as [Hr|[-> Hsome]].
      + rewrite Hidx.
        by replace (S (issued st.2) + i)%nat with (issued st.2 + S i)%nat
          by lia.
      + by rewrite Hsame.
      + by left.
      + right. split; [reflexivity|]. exact (Hrem Hsome). }
  intros resp ->. destruct (Hret resp eq_refl) as (Hs & c & Hc & Ha & Hr).
  split; [lia|]. exists c. split; [exact Hc|]. split.
  - rewrite Hidx in Ha.
    by replace (issued st.2 + S (refreshes evs'))%nat
      with (S (issued st.2) + refreshes evs')%nat by lia.
  - by rewrite <- Hsame.
Qed.

Lemma threaded_once {C' : Type} `{Credentials C'} ar method url (c c' : C') :
  threaded ar method url 2 1 c c' ->
  exists h1 now1 now2 h2 now3,
    c' = (after
            (before_request
               (after (refresh (after (before_request c ar method url h1 now1)).1
                         ar now2))
               ar method url h2 now3)).1.
Proof.
  intros Hth. inversion Hth as [| |b k c0 c0' h1 now1 now2 Hin]; subst.
  inversion Hin; subst. eauto 6.
Qed.

(** C1. A call always has an outcome, and without a time budget, with
    credentials that do not raise and a wrapped call that answers, the
    outcome is a response.  When the call returns a response, the
    session has sent the request once more than it has forced a
    refresh, at most [_max_refresh_attempts - attempt] refreshes were
    forced, every response but the last was in the refresh set with
    attempts left, and the last one, which is returned as it is, was
    not; and the credentials that the session holds afterwards are
    the result of calling [credentials.before_request] for every
    request and [credentials.refresh] exactly once between two
    requests.  In particular, when the wrapped call answers a status
    of the refresh set and then one outside of it, and
    [_max_refresh_attempts >= 1], the request is sent exactly twice
    and [credentials.refresh] is called exactly once, on the
    credentials that the first [before_request] left.  Whatever the
    outcome, a response or an exception: each refresh follows a
    request, the credentials are threaded through as many calls of
    [refresh] as were forced, an answer in the refresh set with
    attempts left has forced one, and an answer that is not is
    returned as it is, unless the timeout error of a time budget ends
    the call. *)
Theorem C1_refresh_and_retry method url data headers mat timeout attempt
    (st : state) :
  let ar :=
    {| adapter := {| Request.session := None |}; bound_timeout := timeout |} in
  is_Some (request net method url data headers mat timeout attempt st) /\
  (quiet C -> answering net -> mat = None ->
   exists resp st',
     request net method url data headers mat timeout attempt st
     = Some (Return resp, st')) /\
  (forall resp st',
    request net method url data headers mat timeout attempt st
    = Some (Return resp, st') ->
    exists evs,
      log st'.2 = log st.2 ++ evs /\
      sends evs = S (refreshes evs) /\
      Z.of_nat (refreshes evs)
      <= Z.max 0 (_max_refresh_attempts st.1 - attempt) /\
      (exists call,
         answer net (issued st.2 + refreshes evs) call = Return resp) /\
      retries st.1 resp (attempt + Z.of_nat (refreshes evs)) = false /\
      (forall i, (i < refreshes evs)%nat ->
         exists call response,
           answer net (issued st.2 + i) call = Return response /\
           retries st.1 response (attempt + Z.of_nat i) = true) /\
      threaded ar method url (S (refreshes evs)) (refreshes evs)
        (credentials st.1) (credentials st'.1) /\
      (forall r1 r2,
         attempt = 0 -> 1 <= _max_refresh_attempts st.1 ->
         (forall call, answer net (issued st.2) call = Return r1) ->
         (forall call, answer net (S (issued st.2)) call = Return r2) ->
         status r1 ∈ _refresh_status_codes st.1 ->
         status r2 ∉ _refresh_status_codes st.1 ->
         resp = r2 /\ sends evs = 2%nat /\ refreshes evs = 1%nat /\
         exists h1 now1 now2 h2 now3,
           credentials st'.1
           = (after
                (before_request
                   (after
                      (refresh
                         (after
                            (before_request (credentials st.1) ar method url
                               h1 now1)).1
                         ar now2))
                   ar method url h2 now3)).1)) /\
  (forall r st',
    request net method url data headers mat timeout attempt st
    = Some (r, st') ->
    exists evs,
      log st'.2 = log st.2 ++ evs /\
      length (sent evs) = sends evs /\
      (refreshes evs <= sends evs <= S (refreshes evs))%nat /\
      Z.of_nat (refreshes evs)
      <= Z.max 0 (_max_refresh_attempts st.1 - attempt) /\
      threaded ar method url (length (applied evs)) (refreshes evs)
        (credentials st.1) (credentials st'.1) /\
      (forall i, (i < refreshes evs)%nat ->
         exists c response,
           sent evs !! i = Some c /\
           answer net (issued st.2 + i) c = Return response /\
           retries st.1 response (attempt + Z.of_nat i) = true) /\
      (forall i c response,
         sent evs !! i = Some c ->
         answer net (issued st.2 + i) c = Return response ->
         retries st.1 response (attempt + Z.of_nat i) = true ->
         (i < refreshes evs)%nat \/ (r = Raise TimeoutError /\ is_Some mat)) /\
      (forall i c response,
         sent evs !! i = Some c ->
         answer net (issued st.2 + i) c = Return response ->
         retries st.1 response (attempt + Z.of_nat i) = false ->
         r = Return response \/ (r = Raise TimeoutError /\ is_Some mat))).
Proof.
  intros ar.
  split; [apply request_total|]. split.
  { intros Hquiet Hanswer ->. apply request_rec_returns; try assumption.
    unfold depth. lia. }
  split.
  2:{ intros r st' Hreq. unfold request in Hreq.
      apply request_rec_outcome in Hreq
        as (evs & E & _ & Hth & Hcnt & Hbound & Hearlier & Hconv & Hother & _).
      exists evs. split; [exact (extends_log _ _ _ _ _ E)|].
      split; [apply sends_length|]. split; [lia|].
      by repeat (split; [assumption|]). }
  intros resp st' Hreq. unfold request in Hreq.
  pose proof Hreq as Hreq'.
  apply request_rec_outcome in Hreq'
    as (evs' & E' & _ & Hth & Hcnt & _ & _ & _ & _ & Hret).
  destruct (Hret resp eq_refl) as (Hsends' & _).
  apply request_rec_Return in Hreq
    as (evs & E & _ & Hcount & Hbound & Hlast & Hno & Hearlier).
  assert (evs' = evs) as ->.
  { pose proof (extends_log _ _ _ _ _ E) as L.
    rewrite (extends_log _ _ _ _ _ E') in L. by apply app_inv_head in L. }
  assert (Happlied : length (applied evs) = S (refreshes evs)) by lia.
  rewrite Happlied in Hth.
  exists evs. split; [exact (extends_log _ _ _ _ _ E)|].
  do 5 (split; [assumption|]). split; [exact Hth|].
  intros r1 r2 -> Hmax Hfirst Hsecond Hin Hout.
  assert (Hone : refreshes evs = 1%nat).
  { destruct (refreshes evs) as [|[|k]] eqn:Hk; [| reflexivity |].
    - destruct Hlast as [call Hlast].
      rewrite Nat.add_0_r, Hfirst in Hlast. injection Hlast as <-.
      exfalso. revert Hno. unfold retries.
      rewrite bool_decide_eq_true_2 by assumption.
      rewrite andb_true_l, Z.ltb_ge. lia.
    - destruct (Hearlier 1%nat) as (call & response & Hans & Hyes); [lia|].
      rewrite Nat.add_1_r, Hsecond in Hans. injection Hans as <-.
      exfalso. revert Hyes. unfold retries.
      rewrite bool_decide_eq_false_2 by assumption. discriminate. }
  rewrite Hone in *.
  split; [|split; [assumption|split; [reflexivity|]]].
  - destruct Hlast as [call Hlast].
    rewrite Nat.add_1_r, Hsecond in Hlast. congruence.
  - exact (threaded_once _ _ _ _ _ Hth).
Qed.

(** C9. The caller's dictionary of headers is copied before the
    credentials are applied: whatever the outcome of the call, no
    dictionary that existed before has changed, the credentials were
    only applied to new dictionaries whose contents at that time were
    those of the caller's, and every entry into [request], retries
    included, was given the caller's dictionary with its original
    contents. *)
Theorem C9_caller_headers_are_not_mutated method url data headers mat
    timeout attempt (st : state) :
  (forall l, headers = Some l -> is_Some (heap st.2 !! l)) ->
  exists r st' evs,
    request net method url data headers mat timeout attempt st = Some (r, st') /\
    log st'.2 = log st.2 ++ evs /\
    (forall l, is_Some (heap st.2 !! l) -> heap st'.2 !! l = heap st.2 !! l) /\
    applied evs <> [] /\
    (forall p, p ∈ applied evs ->
       heap st.2 !! p.1 = None /\
       headers <> Some p.1 /\
       p.2 = default ∅ (headers ≫= (heap st.2 !!.))) /\
    entries evs <> [] /\
    (forall e, e ∈ entries evs -> e = (headers, headers ≫= (heap st.2 !!.))).
Proof.
  intros Hcaller.
  destruct (request_total method url data headers mat timeout attempt st)
    as [[r st'] Hreq].
  exists r, st'. pose proof Hreq as Hrun. unfold request in Hreq.
  apply request_rec_frame in Hreq
    as (evs & n & E & Hne & Hent & Hne' & Happ); [|assumption].
  exists evs. split; [exact Hrun|].
  split; [exact (extends_log _ _ _ _ _ E)|].
  split.
  { intros l Hl. apply (extends_heap _ _ _ _ _ E); [apply not_elem_of_nil|].
    assumption. }
  split; [assumption|].
  split; [|split; assumption].
  intros p Hp. destruct (Happ p Hp) as [Hnone Hc].
  split; [assumption|]. split; [|assumption].
  intros Heq. destruct (Hcaller _ Heq) as [x Hx]. congruence.
Qed.
End transport_properties.

(** ** The request adapter *)
Section request_adapter_properties.
Import aiohttp_requests.

(** C10. Whatever session is passed to the constructor of the request
    adapter, the adapter stores none; its first call therefore creates
    a new [ClientSession], keeps it, and sends the request through
    it, never through the session that was supplied. *)
Theorem C10_supplied_session_is_not_used (supplied : option session_id) :
  Request.session (Request.__init__ supplied) = None /\
  forall net url method body headers timeout w,
    let made := sessions w in
    exists r w',
      Request.__call__ net (Request.__init__ supplied) url method body
        headers timeout w
      = (r, ({| Request.session := Some made |}, w')) /\
      sessions w' = S made /\
      log w' = log w ++
               [SessionCreated made;
                Sent {| call_session := made; call_method := method;
                        call_url := url; call_data := body;
                        call_headers := headers;
                        call_timeout := timeout |}] /\
      (forall s, supplied = Some s -> (s < sessions w)%nat -> made <> s).
Proof.
  split; [reflexivity|].
  intros net url method body headers timeout w made.
  unfold Request.__call__, Request.__init__. simpl.
  set (call := {| call_session := sessions w; call_method := method;
                  call_url := url; call_data := body;
                  call_headers := headers; call_timeout := timeout |}).
  destruct (answer net (issued w) call) as [response|e] eqn:Hans.
  - eexists _, _. split; [reflexivity|]. simpl.
    split; [reflexivity|]. split; [by rewrite <- app_assoc|].
    intros s _ Hlt. subst made. lia.
  - assert (Hraise : exists e',
              match e with
              | ClientError msg => (Raise (TransportError msg) : result _Response.t)
              | TimeoutError => Raise (TransportError "TimeoutError")
              | _ => Raise e
              end = Raise e') by (destruct e; eauto).
    destruct Hraise as [e' He'].
    exists (Raise e'). eexists. split.
    { destruct e; injection He' as <-; reflexivity. }
    simpl. split; [reflexivity|]. split; [by rewrite <- app_assoc|].
    intros s _ Hlt. subst made. lia.
Qed.
End request_adapter_properties.

Section transport_examples.
Import aiohttp_requests AuthorizedSession trace.

Lemma C10_supplied_session_is_not_used_witness :
  let w := (new_session samples.empty_world).2 in
  sessions w = 1%nat /\
  Request.session (Request.__init__ (Some 0%nat)) = None /\
  exists r w',
    Request.__call__ (samples.scripted [200] 1) (Request.__init__ (Some 0%nat))
      "http://example.com/" "GET" None None (Some _DEFAULT_TIMEOUT) w
    = (r, ({| Request.session := Some 1%nat |}, w')) /\
    1%nat <> 0%nat.
Proof.
  intros w. split; [reflexivity|].
  destruct (C10_supplied_session_is_not_used (Some 0%nat)) as [Hnone Hcall].
  split; [exact Hnone|].
  destruct (Hcall (samples.scripted [200] 1) "http://example.com/" "GET"
              None None (Some _DEFAULT_TIMEOUT) w)
    as (r & w' & Hrun & _ & _ & Hfresh).
  exists r, w'. split; [exact Hrun|].
  apply (Hfresh 0%nat eq_refl). simpl. lia.
Defined.

(** C2. With a budget of 10 ticks, a [before_request] that takes 4, a
    request that takes 3 and a forced refresh that takes 2, the guard
    of the first request is given the whole budget of 10 rather than
    the 6 that are left, the recursive call is given 5 rather than 1,
    and the call returns after 16 ticks without a timeout error. *)
Theorem C2_before_request_time_is_not_deducted :
  let st := samples.authorized (samples.stub_with 4 2) samples.empty_world in
  exists resp st',
    samples.get (samples.scripted [401; 200] 3) None (Some 10) st
    = Some (Return resp, st') /\
    status resp = 200 /\
    budgets (log st'.2) = [Some 10; Some 10; Some 7; Some 5; Some 5] /\
    sends (log st'.2) = 2%nat /\ refreshes (log st'.2) = 1%nat /\
    clock st'.2 - clock st.2 = 16.
Proof.
  intros st. eexists _, _. split; [vm_compute; reflexivity|].
  repeat split; reflexivity.
Qed.

Lemma C1_refresh_and_retry_witness :
  let st := samples.authorized (samples.stub_with 0 0) samples.empty_world in
  let net := samples.scripted [401; 200] 1 in
  quiet samples.CredentialsStub /\ answering net /\
  1 <= _max_refresh_attempts st.1 /\
  samples.token (credentials st.1) = "token" /\
  exists resp st' evs,
    samples.get net None None st = Some (Return resp, st') /\
    log st'.2 = log st.2 ++ evs /\
    status resp = 200 /\ sends evs = 2%nat /\ refreshes evs = 1%nat /\
    samples.token (credentials st'.1) = "token1".
Proof.
  intros st net. unfold samples.get.
  assert (Hquiet : quiet samples.CredentialsStub) by (split; reflexivity).
  assert (Hanswer : answering net) by (intros n call; eexists; reflexivity).
  assert (Hmax : _max_refresh_attempts st.1 = 2) by reflexivity.
  assert (Hcodes : _refresh_status_codes st.1 = [401]) by reflexivity.
  assert (Hissued : issued st.2 = 0%nat) by reflexivity.
  assert (Htoken : samples.token (credentials st.1) = "token") by reflexivity.
  assert (Hfirst : forall call,
            answer net 0 call
            = Return {| status := 401; headers := ∅; content := "" |})
    by reflexivity.
  assert (Hsecond : forall call,
            answer net 1 call
            = Return {| status := 200; headers := ∅; content := "" |})
    by reflexivity.
  clearbody st net.
  split; [exact Hquiet|]. split; [exact Hanswer|].
  split; [rewrite Hmax; lia|]. split; [exact Htoken|].
  destruct (C1_refresh_and_retry (H := samples.stub) net "GET"
              "http://example.com/" None None None
              (Some _DEFAULT_TIMEOUT) 0 st)
    as (_ & Hreturns & Hshape & _).
  destruct (Hreturns Hquiet Hanswer eq_refl) as (resp & st' & Hrun).
  destruct (Hshape resp st' Hrun)
    as (evs & Hlog & _ & _ & _ & _ & _ & _ & Hscenario).
  destruct (Hscenario
              {| status := 401; headers := ∅; content := "" |}
              {| status := 200; headers := ∅; content := "" |})
    as (-> & Hsends & Hrefreshes & h1 & now1 & now2 & h2 & now3 & Hcred).
  - reflexivity.
  - rewrite Hmax. lia.
  - rewrite Hissued. exact Hfirst.
  - rewrite Hissued. exact Hsecond.
  - rewrite Hcodes. apply list_elem_of_singleton. reflexivity.
  - rewrite Hcodes. intros Hin.
    apply list_elem_of_singleton in Hin. discriminate.
  - exists {| status := 200; headers := ∅; content := "" |}, st', evs.
    split; [exact Hrun|]. split; [exact Hlog|]. split; [reflexivity|].
    split; [exact Hsends|]. split; [exact Hrefreshes|].
    rewrite Hcred. cbn. rewrite Htoken. reflexivity.
Defined.

Lemma C9_caller_headers_are_not_mutated_witness :
  let st :=
    samples.authorized (samples.stub_with 0 0) samples.caller_world in
  is_Some (heap st.2 !! (0%nat : loc)) /\
  exists r st' evs,
    samples.get (samples.scripted [401; 200] 1) (Some 0%nat) None st
    = Some (r, st') /\
    log st'.2 = log st.2 ++ evs /\
    heap st'.2 !! (0%nat : loc) = Some {["x-test-header" := "value"]} /\
    (forall p, p ∈ applied evs ->
       p.1 <> 0%nat /\ p.2 = {["x-test-header" := "value"]}) /\
    (forall e, e ∈ entries evs ->
       e = (Some 0%nat, Some {["x-test-header" := "value"]})).
Proof.
  intros st. unfold samples.get.
  assert (Hheld : heap st.2 !! (0%nat : loc)
                  = Some {["x-test-header" := "value"]})
    by (vm_compute; reflexivity).
  clearbody st.
  split; [eexists; exact Hheld|].
  destruct (C9_caller_headers_are_not_mutated (H := samples.stub)
              (samples.scripted [401; 200] 1) "GET" "http://example.com/"
              None (Some 0%nat) None (Some _DEFAULT_TIMEOUT) 0 st)
    as (r & st' & evs & Hrun & Hlog & Hsame & _ & Happ & _ & Hent).
  - intros l Hl. injection Hl as Hl. subst l. eexists; exact Hheld.
  - exists r, st', evs. split; [exact Hrun|]. split; [exact Hlog|].
    split.
    { etransitivity; [apply Hsame; eexists; exact Hheld|exact Hheld]. }
    split.
    + intros p Hp. destruct (Happ p Hp) as (_ & Hne & Hc). split.
      * intros Heq. apply Hne. exact (f_equal Some (eq_sym Heq)).
      * etransitivity; [exact Hc|].
        change (default ∅ (heap st.2 !! (0%nat : loc))
                = {["x-test-header" := "value"]}).
        etransitivity; [exact (f_equal (default ∅) Hheld)|reflexivity].
    + intros e He. etransitivity; [exact (Hent e He)|].
      exact (f_equal (pair (Some 0%nat)) Hheld).
Defined.
End transport_examples.

(** ** More on identity-pool credentials *)
Section identity_pool_construction.
Context `{Library}.
Import identity_pool.

Lemma format_type_cases (ty : string) :
  bool_decide (ty ∈ ["text"; "json"]) = true <-> ty = "text" \/ ty = "json".
Proof.
  rewrite bool_decide_eq_true. split.
  - intros Hty. apply elem_of_cons in Hty as [?|Hty]; [by left|].
    apply elem_of_cons in Hty as [?|Hty]; [by right|].
    by apply elem_of_nil in Hty.
  - intros [->| ->]; [by left|]. right. by left.
Qed.

(** X1. A credential source with exactly one true source and a valid
    format is accepted, given that the base constructor accepts the
    arguments.  The credential holds [file], [url], [headers] and the
    success codes as they were given; its format type is ["text"]
    when the source names none or an empty one, and a
    [subject_token_field_name] is kept for the [json] format only. *)
Theorem init_stores_the_source
    (audience subject_token_type token_url : string) (cs : source.t)
    (impersonation_url client_id client_secret quota_project_id : option string)
    (scopes : option (list string)) (success_codes : list Z)
    (b : external_account.Credentials) :
  let fmt := default source.empty_format (source.format cs) in
  let format_type :=
    if str_truthy (source.type fmt) then default "text" (source.type fmt)
    else "text" in
  external_account.__init__ audience subject_token_type token_url (Some cs)
    impersonation_url client_id client_secret quota_project_id scopes
  = Return b ->
  format_type = "text" \/
  (format_type = "json" /\ is_Some (source.subject_token_field_name fmt)) ->
  xorb (str_truthy (source.file cs)) (str_truthy (source.url cs)) = true ->
  __init__ audience subject_token_type token_url (Some cs)
    impersonation_url client_id client_secret quota_project_id scopes
    success_codes
  = Return {| base := b;
              _credential_source_file := source.file cs;
              _credential_source_url := source.url cs;
              _credential_source_headers := source.headers cs;
              _success_codes := success_codes;
              _credential_source_format_type := format_type;
              _credential_source_field_name :=
                if String.eqb format_type "json"
                then source.subject_token_field_name fmt
                else None |}.
Proof.
  intros fmt format_type Hbase Hformat Hone.
  unfold __init__. rewrite Hbase. simpl.
  unfold source_attributes. fold fmt. fold format_type.
  assert (Hin : bool_decide (format_type ∈ ["text"; "json"]) = true).
  { apply format_type_cases. tauto. }
  rewrite Hin. simpl.
  destruct Hformat as [Ht|[Hj [name Hname]]].
  - rewrite Ht. simpl.
    destruct (str_truthy (source.file cs)), (str_truthy (source.url cs));
      simpl in *; try discriminate; reflexivity.
  - rewrite Hj, Hname. simpl.
    destruct (str_truthy (source.file cs)), (str_truthy (source.url cs));
      simpl in *; try discriminate; reflexivity.
Qed.

(** X2. Which error [__init__] raises, and in which order the checks
    are made: a failure of the base constructor comes first; then a
    format type other than [text] and [json] is a [ValueError] that
    names it, and the [json] format without a field name is a
    [ValueError], both whatever the file and url are; only then are a
    source with both a file and a url ("Ambiguous") and one with
    neither ("Missing", also for a source that is not a dictionary)
    rejected. *)
Theorem init_errors
    (audience subject_token_type token_url : string)
    (credential_source : option source.t)
    (impersonation_url client_id client_secret quota_project_id : option string)
    (scopes : option (list string)) (success_codes : list Z) :
  let construct :=
    __init__ audience subject_token_type token_url credential_source
      impersonation_url client_id client_secret quota_project_id scopes
      success_codes in
  let base :=
    external_account.__init__ audience subject_token_type token_url
      credential_source impersonation_url client_id client_secret
      quota_project_id scopes in
  (forall e, base = Raise e -> construct = Raise e) /\
  (forall b, base = Return b ->
     (credential_source = None ->
      construct = Raise (ValueError "Missing credential_source")) /\
     (forall cs, credential_source = Some cs ->
        let fmt := default source.empty_format (source.format cs) in
        let format_type :=
          if str_truthy (source.type fmt) then default "text" (source.type fmt)
          else "text" in
        (format_type <> "text" -> format_type <> "json" ->
         construct
         = Raise (ValueError ("Invalid credential_source format '"
                                +:+ format_type +:+ "'"))) /\
        (format_type = "json" ->
         source.subject_token_field_name fmt = None ->
         construct
         = Raise (ValueError
             "Missing subject_token_field_name for JSON credential_source format")) /\
        (format_type = "text" \/
         (format_type = "json" /\
          is_Some (source.subject_token_field_name fmt)) ->
         (str_truthy (source.file cs) = true ->
          str_truthy (source.url cs) = true ->
          construct = Raise (ValueError "Ambiguous credential_source")) /\
         (str_truthy (source.file cs) = false ->
          str_truthy (source.url cs) = false ->
          construct = Raise (ValueError "Missing credential_source"))))).
Proof.
  intros construct base0. subst construct base0. unfold __init__. split.
  { intros e ->. reflexivity. }
  intros b ->. simpl. split.
  { intros ->. reflexivity. }
  intros cs ->.
  set (fmt := default source.empty_format (source.format cs)).
  set (format_type := if str_truthy (source.type fmt) then _ else _).
  unfold source_attributes. fold fmt. fold format_type. split; [|split].
  - intros Ht Hj.
    assert (Hin : bool_decide (format_type ∈ ["text"; "json"]) = false).
    { apply not_true_is_false. rewrite format_type_cases. tauto. }
    rewrite Hin. reflexivity.
  - intros Hj Hname. rewrite Hj, Hname. reflexivity.
  - intros Hformat.
    assert (Hin : bool_decide (format_type ∈ ["text"; "json"]) = true).
    { apply format_type_cases. tauto. }
    rewrite Hin. simpl.
    destruct Hformat as [Ht|[Hj [name Hname]]].
    + rewrite Ht. simpl. split; intros -> ->; reflexivity.
    + rewrite Hj, Hname. simpl. split; intros -> ->; reflexivity.
Qed.
End identity_pool_construction.

Section identity_pool_retrieval.
Context `{Library}.
Import identity_pool.

(** The content of the configured source is what [_get_token_data]
    returns. *)
Lemma source_content_get_token_data self env content origin :
  source_content self env content origin ->
  _get_token_data self env = Return (Some (content, origin)).
Proof.
  unfold source_content, _get_token_data.
  intros [[-> Hfile]|(-> & -> & status & Hurl & Hcode)].
  - unfold _get_file_data. rewrite Hfile. reflexivity.
  - unfold _get_url_data. rewrite Hurl.
    rewrite bool_decide_eq_true_2 by assumption. reflexivity.
Qed.

(** X3. The exceptions of [retrieve_subject_token].  Whatever it
    raises is a [RefreshError]; or the very exception raised by
    reading the file, by opening the url or by reading its response,
    which is not converted; or the exception of [json.loads] itself
    when that is neither a [ValueError] nor a [KeyError] (a
    [RecursionError], say), which the [except] clause lets through;
    or a [TypeError], which of its own only arises when the
    credential has no source at all or when the configured source, in
    a format other than text, holds a JSON document that is not an
    object. *)
Theorem retrieve_subject_token_exceptions self env e :
  retrieve_subject_token self env = Raise e ->
  is_RefreshError e = true \/
  (exists filename,
     nonempty (_credential_source_file self) = Some filename /\
     files env filename = Unreadable e) \/
  (exists u,
     nonempty (_credential_source_file self) = None /\
     nonempty (_credential_source_url self) = Some u /\
     (urlopen env u = Failed e \/
      exists status,
        urlopen env u = Unread status e /\ status ∈ _success_codes self)) \/
  (_credential_source_format_type self <> "text" /\
   (exists content origin,
      source_content self env content origin /\
      json_loads content = None /\ json_loads_error content = e) /\
   (forall msg, e <> ValueError msg) /\ (forall key, e <> KeyError key)) \/
  (exists msg, e = TypeError msg /\
     ((nonempty (_credential_source_file self) = None /\
       nonempty (_credential_source_url self) = None) \/
      (_credential_source_format_type self <> "text" /\
       exists content origin doc,
         source_content self env content origin /\
         json_loads content = Some doc /\
         forall items, doc <> JObj items))).
Proof.
  unfold retrieve_subject_token.
  destruct (_get_token_data self env) as [tc|e0] eqn:Htc; simpl.
  - apply _get_token_data_Return in Htc.
    destruct tc as [[content origin]|]; simpl.
    + destruct (String.eqb_spec (_credential_source_format_type self) "text")
        as [Ht|Ht]; simpl.
      * destruct (String.eqb content ""); simpl; [|discriminate].
        intros [= <-]. by left.
      * unfold loads.
        destruct (json_loads content) as [doc|] eqn:Hdoc; simpl.
        2:{ destruct (json_loads_error content) eqn:Herr; simpl;
              intros [= <-]; try (by left);
              right; right; right; left;
              (split; [assumption|]); (split; [eauto|]);
              split; discriminate. }
        destruct doc as [| | | | |items]; simpl;
          try (intros [= <-]; right; right; right; right; eexists;
               split; [reflexivity|]; right; split; [assumption|];
               eexists _, _, _; split; [eassumption|];
               split; [eassumption|]; discriminate).
        destruct (_credential_source_field_name self) as [name|]; simpl.
        2:{ intros [= <-]; by left. }
        destruct (assoc name items) as [v|]; simpl.
        2:{ intros [= <-]; by left. }
        destruct (truthy v); simpl; [discriminate|].
        intros [= <-]. by left.
    + intros [= <-]. right. right. right. right. eexists.
      split; [reflexivity|]. by left.
  - intros [= <-]. revert Htc. unfold _get_token_data.
    destruct (nonempty (_credential_source_file self)) as [f|] eqn:Hf.
    + unfold _get_file_data. destruct (files env f) eqn:Hfile; simpl;
        try discriminate.
      * intros [= <-]. by left.
      * intros [= <-]. right. left. eauto.
    + destruct (nonempty (_credential_source_url self)) as [u|] eqn:Hu;
        [|discriminate].
      unfold _get_url_data.
      destruct (urlopen env u) as [status content|e1|status e1] eqn:Hurl;
        simpl.
      * destruct (bool_decide _); simpl; [discriminate|].
        intros [= <-]. by left.
      * intros [= <-]. right. right. left. eauto.
      * destruct (bool_decide (status ∈ _success_codes self)) eqn:Hin; simpl.
        -- apply bool_decide_eq_true in Hin.
           intros [= <-]. right. right. left. eauto 7.
        -- intros [= <-]. by left.
Qed.

(** X4. In the JSON format the token is whatever value the decoded
    object holds under the configured key, of any type, as long as
    that value is true in Python's sense; a value that is false
    there ([null], [false], [0], an empty string, list or object) is
    reported like a missing token. *)
Theorem retrieve_subject_token_json_value self env content origin items name v :
  source_content self env content origin ->
  _credential_source_format_type self = "json" ->
  _credential_source_field_name self = Some name ->
  json_loads content = Some (JObj items) ->
  assoc name items = Some v ->
  retrieve_subject_token self env
  = if truthy v then Return v
    else Raise (RefreshError
                  "Missing subject_token in the credential_source file").
Proof.
  intros Hsrc Hjson Hname Hdoc Hv.
  unfold retrieve_subject_token.
  rewrite (source_content_get_token_data _ _ _ _ Hsrc). simpl.
  unfold loads. rewrite Hjson, Hname, Hdoc. simpl. rewrite Hv. simpl.
  by destruct (truthy v).
Qed.

(** X6. [retrieve_subject_token] reads one source only and ignores
    the configured headers: two credentials with the same file, url,
    success codes and format, in two environments that agree on the
    file when there is one and on the url otherwise, give the same
    result, whatever [_credential_source_headers] and the inherited
    attributes are and whatever the other source would answer. *)
Theorem retrieve_subject_token_reads_one_source self self' env env' :
  _credential_source_file self' = _credential_source_file self ->
  _credential_source_url self' = _credential_source_url self ->
  _success_codes self' = _success_codes self ->
  _credential_source_format_type self' = _credential_source_format_type self ->
  _credential_source_field_name self' = _credential_source_field_name self ->
  (forall filename,
     nonempty (_credential_source_file self) = Some filename ->
     files env' filename = files env filename) ->
  (forall u,
     nonempty (_credential_source_file self) = None ->
     nonempty (_credential_source_url self) = Some u ->
     urlopen env' u = urlopen env u) ->
  retrieve_subject_token self' env' = retrieve_subject_token self env.
Proof.
  intros Hfile Hurl Hcodes Hty Hname Hfiles Hurls.
  unfold retrieve_subject_token, _get_token_data.
  rewrite Hfile, Hurl, Hty, Hname.
  destruct (nonempty (_credential_source_file self)) as [f|] eqn:Hf.
  - unfold _get_file_data. rewrite (Hfiles f eq_refl). reflexivity.
  - destruct (nonempty (_credential_source_url self)) as [u|] eqn:Hu;
      [|reflexivity].
    unfold _get_url_data. rewrite (Hurls u eq_refl eq_refl), Hcodes.
    reflexivity.
Qed.
End identity_pool_retrieval.

Section identity_pool_text.
Import identity_pool.

(** X5. In the text format [json.loads] plays no role: with any
    library, the token is the content of the source, even when that
    content is a JSON document, and an empty content is reported as a
    missing token. *)
Theorem retrieve_subject_token_text (L : Library) self env content origin :
  source_content self env content origin ->
  _credential_source_format_type self = "text" ->
  retrieve_subject_token (H := L) self env
  = if String.eqb content ""
    then Raise (RefreshError
                  "Missing subject_token in the credential_source file")
    else Return (JStr content).
Proof.
  intros Hsrc Htext. unfold retrieve_subject_token.
  rewrite (source_content_get_token_data _ _ _ _ Hsrc). simpl.
  rewrite Htext. simpl. by destruct (String.eqb content "").
Qed.
End identity_pool_text.

Section identity_pool_more_examples.
Import identity_pool.

Lemma init_stores_the_source_witness :
  samples.pool samples.url_source = Return samples.url_pool.
Proof.
  apply (init_stores_the_source (H := samples.library)
           samples.AUDIENCE samples.SUBJECT_TOKEN_TYPE samples.TOKEN_URL
           samples.url_source None None None None None [200]
           (samples.pool_base samples.url_source)).
  - reflexivity.
  - left. reflexivity.
  - reflexivity.
Defined.

Lemma init_errors_witness :
  samples.pool samples.xml_source
  = Raise (ValueError "Invalid credential_source format 'xml'") /\
  samples.pool samples.json_both_sources
  = Raise (ValueError
      "Missing subject_token_field_name for JSON credential_source format") /\
  samples.pool samples.both_sources
  = Raise (ValueError "Ambiguous credential_source") /\
  samples.pool samples.no_source
  = Raise (ValueError "Missing credential_source").
Proof.
  assert (errors : forall cs, _) by
    exact (fun cs =>
             proj2 (init_errors (H := samples.library)
                      samples.AUDIENCE samples.SUBJECT_TOKEN_TYPE
                      samples.TOKEN_URL (Some cs) None None None None None
                      [200])
               (samples.pool_base cs) eq_refl).
  split; [|split; [|split]].
  - apply (proj1 (proj2 (errors samples.xml_source) _ eq_refl));
      discriminate.
  - apply (proj1 (proj2 (proj2 (errors samples.json_both_sources) _ eq_refl)));
      reflexivity.
  - apply (proj1 (proj2 (proj2 (proj2 (errors samples.both_sources) _ eq_refl))
                    (or_introl eq_refl))); reflexivity.
  - apply (proj2 (proj2 (proj2 (proj2 (errors samples.no_source) _ eq_refl))
                    (or_introl eq_refl))); reflexivity.
Defined.

Lemma retrieve_subject_token_exceptions_witness :
  let self := samples.file_pool samples.plain_file_source "text" None in
  let json_pool :=
    samples.file_pool samples.json_file_source "json" (Some "token") in
  let deep :=
    RecursionError
      "maximum recursion depth exceeded while decoding a JSON array from a unicode string" in
  (retrieve_subject_token (H := samples.library) self samples.unreadable
   = Raise (OSError "Permission denied") /\
   exists filename,
     nonempty (_credential_source_file self) = Some filename /\
     files samples.unreadable filename
     = Unreadable (OSError "Permission denied")) /\
  (retrieve_subject_token (H := samples.limited) json_pool
     (samples.holding samples.deep_document)
   = Raise deep /\
   exists content origin,
     source_content json_pool (samples.holding samples.deep_document)
       content origin /\
     json_loads (Library := samples.limited) content = None /\
     json_loads_error (Library := samples.limited) content = deep) /\
  (retrieve_subject_token (H := samples.library) samples.url_pool
     (samples.truncated 200)
   = Raise (OSError "Connection reset by peer") /\
   exists u status,
     urlopen (samples.truncated 200) u
     = Unread status (OSError "Connection reset by peer") /\
     status ∈ _success_codes samples.url_pool).
Proof.
  intros self json_pool deep. split; [|split].
  - split; [reflexivity|].
    destruct (retrieve_subject_token_exceptions (H := samples.library)
                self samples.unreadable (OSError "Permission denied") eq_refl)
      as [Hrefresh|[Hfile|[(u & Hnone & _)|[(Htext & _)
          |(msg & Htype & _)]]]].
    + discriminate Hrefresh.
    + exact Hfile.
    + discriminate Hnone.
    + destruct (Htext eq_refl).
    + discriminate Htype.
  - assert (Hrun : retrieve_subject_token (H := samples.limited) json_pool
                     (samples.holding samples.deep_document) = Raise deep)
      by (vm_compute; reflexivity).
    split; [exact Hrun|].
    destruct (retrieve_subject_token_exceptions (H := samples.limited)
                json_pool (samples.holding samples.deep_document) deep Hrun)
      as [Hrefresh|[(f & _ & Hfile)|[(u & Hnone & _)|[(_ & Hloads & _)
          |(msg & Htype & _)]]]].
    + discriminate Hrefresh.
    + discriminate Hfile.
    + discriminate Hnone.
    + exact Hloads.
    + discriminate Htype.
  - split; [reflexivity|].
    destruct (retrieve_subject_token_exceptions (H := samples.library)
                samples.url_pool (samples.truncated 200)
                (OSError "Connection reset by peer") eq_refl)
      as [Hrefresh|[(f & Hfile & _)|[(u & _ & _ & Hurl)|[(Htext & _)
          |(msg & Htype & _)]]]].
    + discriminate Hrefresh.
    + discriminate Hfile.
    + destruct Hurl as [Hfailed|(status & Hunread & Hin)];
        [discriminate Hfailed|]. eauto.
    + destruct (Htext eq_refl).
    + discriminate Htype.
Defined.

Lemma retrieve_subject_token_json_value_witness :
  let self :=
    samples.file_pool samples.json_file_source "json" (Some "token") in
  retrieve_subject_token (H := samples.decoding samples.value_table) self
    (samples.holding samples.number_document)
  = Return (JNum 5) /\
  retrieve_subject_token (H := samples.decoding samples.value_table) self
    (samples.holding samples.null_document)
  = Raise (RefreshError "Missing subject_token in the credential_source file").
Proof.
  intros self. split.
  - apply (retrieve_subject_token_json_value
             (H := samples.decoding samples.value_table) self
             (samples.holding samples.number_document)
             samples.number_document "/var/run/secrets/goog.id/token"
             [("token", JNum 5)] "token" (JNum 5));
      try reflexivity.
    left. split; reflexivity.
  - apply (retrieve_subject_token_json_value
             (H := samples.decoding samples.value_table) self
             (samples.holding samples.null_document)
             samples.null_document "/var/run/secrets/goog.id/token"
             [("token", JNull)] "token" JNull);
      try reflexivity.
    left. split; reflexivity.
Defined.

Lemma retrieve_subject_token_text_witness :
  retrieve_subject_token (H := samples.library) samples.url_pool
    (samples.serving 200 samples.token_document)
  = Return (JStr samples.token_document) /\
  retrieve_subject_token (H := samples.library) samples.url_pool
    (samples.serving 200 "")
  = Raise (RefreshError "Missing subject_token in the credential_source file").
Proof.
  split.
  - apply (retrieve_subject_token_text samples.library samples.url_pool
             (samples.serving 200 samples.token_document)
             samples.token_document "http://localhost/token");
      [|reflexivity].
    right. split; [reflexivity|]. split; [reflexivity|].
    exists 200. split; [reflexivity|]. by left.
  - apply (retrieve_subject_token_text samples.library samples.url_pool
             (samples.serving 200 "") "" "http://localhost/token");
      [|reflexivity].
    right. split; [reflexivity|]. split; [reflexivity|].
    exists 200. split; [reflexivity|]. by left.
Defined.

Lemma retrieve_subject_token_reads_one_source_witness :
  retrieve_subject_token (H := samples.library) samples.bare_url_pool
    (samples.cluttered 200 "HEADER.PAYLOAD.SIGNATURE")
  = retrieve_subject_token (H := samples.library) samples.url_pool
      (samples.serving 200 "HEADER.PAYLOAD.SIGNATURE").
Proof.
  apply (retrieve_subject_token_reads_one_source (H := samples.library));
    try reflexivity.
  intros filename Hfile. discriminate Hfile.
Defined.
End identity_pool_more_examples.

(** ** More on the request adapter *)
Section request_adapter_calls.
Import aiohttp_requests.

(** X7. What a call of the adapter makes of the answer of the
    session: a response is wrapped, its status, headers and data being
    those of the response; [aiohttp.ClientError] and
    [asyncio.TimeoutError] become [TransportError]; every other
    exception passes unchanged.  So the adapter raises neither of the
    two, and in every case it has issued exactly one request and
    holds a session afterwards. *)
Theorem call_maps_exceptions (net : remote) (self : Request.t)
    (url method : string) (body : option string)
    (hdrs : option (gmap string string)) (timeout : option Z) (w : world) :
  let s := default (sessions w) (Request.session self) in
  let call :=
    {| call_session := s; call_method := method; call_url := url;
       call_data := body; call_headers := hdrs; call_timeout := timeout |} in
  exists r w',
    Request.__call__ net self url method body hdrs timeout w
    = (r, ({| Request.session := Some s |}, w')) /\
    issued w' = S (issued w) /\
    (forall response,
       answer net (issued w) call = Return response ->
       exists x,
         r = Return x /\ _Response.status x = status response /\
         _Response.headers x = headers response /\
         _Response.data x = content response) /\
    (forall msg,
       answer net (issued w) call = Raise (ClientError msg) ->
       r = Raise (TransportError msg)) /\
    (answer net (issued w) call = Raise TimeoutError ->
     exists msg, r = Raise (TransportError msg)) /\
    (forall e,
       answer net (issued w) call = Raise e ->
       e <> TimeoutError -> (forall msg, e <> ClientError msg) ->
       r = Raise e) /\
    (forall e, r = Raise e ->
       e <> TimeoutError /\ forall msg, e <> ClientError msg).
Proof.
  intros s call. subst s call.
  destruct self as [[s0|]];
    unfold Request.__call__, new_session, session_request; simpl;
    destruct (answer net (issued w) _) as [response|e].
  1,3: eexists _, _; split; [reflexivity|]; split; [reflexivity|];
    split; [intros ? [= <-]; eauto|]; repeat split; discriminate.
  all: destruct e; eexists _, _; (split; [reflexivity|]);
    (split; [reflexivity|]);
    (split; [intros; discriminate|]);
    (split; [intros; congruence|]);
    (split; [intros; first [discriminate | eauto]|]);
    (split; [intros e' [= <-] Ht Hc;
             first [reflexivity | by destruct Ht | by destruct (Hc _ eq_refl)]|]);
    intros e' [= <-]; (split; [|intros ?]); discriminate.
Qed.
End request_adapter_calls.

Section request_adapter_sessions.
Import aiohttp_requests.

(** A call of an adapter that holds a session leaves the adapter as
    it is and sends the request through that session. *)
Lemma call_with_session (net : remote) (s : session_id) (a : caller.call_args)
    (w : world) :
  exists r w',
    Request.__call__ net {| Request.session := Some s |} (caller.arg_url a)
      (caller.arg_method a) (caller.arg_body a) (caller.arg_headers a)
      (caller.arg_timeout a) w
    = (r, ({| Request.session := Some s |}, w')) /\
    sessions w' = sessions w /\ issued w' = S (issued w) /\
    log w' = log w ++ [Sent (caller.http_call_of s a)].
Proof.
  unfold Request.__call__, session_request, caller.http_call_of. simpl.
  destruct (answer net (issued w) _) as [response|e].
  - eexists _, _. split; [reflexivity|]. by repeat split.
  - destruct e; eexists _, _; (split; [reflexivity|]); by repeat split.
Qed.

Lemma calls_with_session (net : remote) (s : session_id)
    (reqs : list caller.call_args) (w : world) :
  exists rs w',
    caller.calls net {| Request.session := Some s |} reqs w
    = (rs, ({| Request.session := Some s |}, w')) /\
    length rs = length reqs /\
    sessions w' = sessions w /\
    issued w' = (issued w + length reqs)%nat /\
    log w' = log w ++ map (fun a => Sent (caller.http_call_of s a)) reqs.
Proof.
  revert w. induction reqs as [|a reqs IH]; intros w.
  - exists [], w. simpl. rewrite app_nil_r. repeat split. lia.
  - destruct (call_with_session net s a w) as (r & w1 & Hcall & Hs1 & Hi1 & Hl1).
    destruct (IH w1) as (rs & w' & Hcalls & Hlen & Hs & Hi & Hl).
    exists (r :: rs), w'. cbn [caller.calls]. rewrite Hcall, Hcalls.
    split; [reflexivity|]. simpl. split; [by rewrite Hlen|].
    split; [congruence|]. split; [lia|].
    rewrite Hl, Hl1, <- app_assoc. reflexivity.
Qed.

(** The first call of an adapter creates the session it then holds. *)
Lemma call_without_session (net : remote) (supplied : option session_id)
    (a : caller.call_args) (w : world) :
  exists r w',
    Request.__call__ net (Request.__init__ supplied) (caller.arg_url a)
      (caller.arg_method a) (caller.arg_body a) (caller.arg_headers a)
      (caller.arg_timeout a) w
    = (r, ({| Request.session := Some (sessions w) |}, w')) /\
    sessions w' = S (sessions w) /\ issued w' = S (issued w) /\
    log w' = log w ++ [SessionCreated (sessions w);
                       Sent (caller.http_call_of (sessions w) a)].
Proof.
  unfold Request.__call__, Request.__init__, new_session, session_request,
    caller.http_call_of.
  simpl. destruct (answer net (issued w) _) as [response|e].
  - eexists _, _. split; [reflexivity|]. simpl. by rewrite <- app_assoc.
  - destruct e; eexists _, _; (split; [reflexivity|]); simpl;
      by rewrite <- app_assoc.
Qed.

(** X8. An adapter creates its session once.  Whatever session its
    constructor was given, a caller that makes one call or more
    through the adapter ends with exactly one more [ClientSession]
    than before; every request, also one that follows a failed call,
    is sent through that session, one request per call, and the
    adapter never closes it. *)
Theorem adapter_keeps_one_session (net : remote) (supplied : option session_id)
    (reqs : list caller.call_args) (w : world) :
  reqs <> [] ->
  exists rs w',
    caller.calls net (Request.__init__ supplied) reqs w
    = (rs, ({| Request.session := Some (sessions w) |}, w')) /\
    length rs = length reqs /\
    sessions w' = S (sessions w) /\
    issued w' = (issued w + length reqs)%nat /\
    log w' = log w ++
             SessionCreated (sessions w)
             :: map (fun a => Sent (caller.http_call_of (sessions w) a)) reqs.
Proof.
  destruct reqs as [|a reqs]; [congruence|]. intros _.
  destruct (call_without_session net supplied a w)
    as (r & w1 & Hcall & Hs1 & Hi1 & Hl1).
  destruct (calls_with_session net (sessions w) reqs w1)
    as (rs & w' & Hcalls & Hlen & Hs & Hi & Hl).
  exists (r :: rs), w'. cbn [caller.calls]. rewrite Hcall.
  unfold session_id in Hcalls. rewrite Hcalls.
  split; [reflexivity|]. simpl. split; [by rewrite Hlen|].
  split; [congruence|]. split; [lia|].
  rewrite Hl, Hl1, <- app_assoc. reflexivity.
Qed.
End request_adapter_sessions.

(** ** More on the authorized transport *)
Section transport_passes.
Import aiohttp_requests AuthorizedSession trace.
Context {C : Type} `{Credentials C}.
Variable net : remote.

Abbreviation state := (AuthorizedSession.state (C := C)).

(** What the log of any call looks like. *)
Lemma request_rec_log fuel method url data headers mat timeout attempt
    (st : state) r st' :
  request_rec net fuel method url data headers mat timeout attempt st
  = Some (r, st') ->
  exists evs n,
    extends st.2 st'.2 evs n [] /\
    closed evs = rev (created evs) /\
    length (created evs) = length (entries evs) /\
    (0 < length (entries evs))%nat /\
    (sends evs <= length (entries evs))%nat /\
    ((forall l, headers = Some l -> is_Some (heap st.2 !! l)) ->
     Forall
       (fun c =>
          call_session c = client_session st.1 /\
          call_method c = method /\ call_url c = url /\
          call_data c = data /\ call_timeout c = timeout /\
          exists creds now,
            call_headers c
            = Some (after
                      (before_request creds
                         {| adapter := {| Request.session := None |};
                            bound_timeout := timeout |}
                         method url
                         (default ∅ (headers ≫= (heap st.2 !!.))) now)).2)
       (sent evs)).
Proof.
  revert mat attempt st r st'.
  induction fuel as [|fuel IH]; intros mat attempt st r st' Hreq;
    [discriminate|].
  apply request_rec_pass in Hreq. cbv zeta in Hreq.
  destruct Hreq as (st4 & rh & S04 & Hcases).
  set (session := sessions st.2) in *.
  set (before := [Entered _ _ _ _; SessionCreated session; Guard mat;
                  BeforeRequest rh _]) in *.
  destruct Hcases as [(E & _ & -> & _)|(_ & _ & E & Hcases)].
  { pose proof (extends_trans _ _ _ _ _ _ _ _ _ E (extends_close session st4))
      as Eall.
    eexists _, _. split; [exact Eall|]. unfold sends. simpl.
    split; [reflexivity|]. split; [reflexivity|]. split; [lia|].
    split; [lia|].
    intros _. constructor. }
  match type of E with
  | extends _ _ (_ ++ [_; Sent ?c]) _ _ => set (call := c) in *
  end.
  assert (Hcall :
    call_session call = client_session st.1 /\
    call_method call = method /\ call_url call = url /\
    call_data call = data /\ call_timeout call = timeout /\
    exists creds now,
      call_headers call
      = Some (after
                (before_request creds
                   {| adapter := {| Request.session := None |};
                      bound_timeout := timeout |}
                   method url
                   (default ∅ (headers ≫= (heap st.2 !!.))) now)).2).
  { repeat (split; [reflexivity|]). eexists _, _. reflexivity. }
  clearbody call.
  destruct Hcases as [[-> _]|Hretry].
  { pose proof (extends_trans _ _ _ _ _ _ _ _ _ E (extends_close session st4))
      as Eall.
    eexists _, _. split; [exact Eall|]. unfold sends. simpl.
    split; [reflexivity|]. split; [reflexivity|]. split; [lia|].
    split; [lia|].
    intros _. constructor; [exact Hcall|constructor]. }
  destruct Hretry
    as (response & st5 & rem & budget & _ & _ & E5 & S5 & _ & _ & Hrest).
  pose proof (extends_trans _ _ _ _ _ _ _ _ _ E E5) as E05.
  destruct Hrest as [(-> & _)|(st6 & _ & Hrec & ->)].
  { pose proof (extends_trans _ _ _ _ _ _ _ _ _ E05
                  (extends_close session st5)) as Eall.
    eexists _, _. split; [exact Eall|]. unfold sends. simpl.
    split; [reflexivity|]. split; [reflexivity|]. split; [lia|].
    split; [lia|].
    intros _. constructor; [exact Hcall|constructor]. }
  apply IH in Hrec
    as (evs' & n' & E' & Hclosed & Hlen & _ & Hsends & Hsent).
  pose proof (extends_trans _ _ _ _ _ _ _ _ _ E05
                (extends_trans _ _ _ _ _ _ _ _ _ E'
                   (extends_close session st6))) as Eall.
  eexists _, _. split; [exact Eall|].
  subst before.
  rewrite !closed_app, !created_app, !entries_app, !sent_app.
  unfold sends in *. rewrite !count_app. simpl.
  rewrite !app_nil_r, Hclosed, Hlen.
  split; [reflexivity|]. split; [reflexivity|]. split; [lia|]. split; [lia|].
  intros Hcaller. constructor; [exact Hcall|].
  assert (Hsame : headers ≫= (heap st5.2 !!.) = headers ≫= (heap st.2 !!.)).
  { destruct headers as [l|]; simpl; [|reflexivity].
    apply (extends_heap _ _ _ _ _ E05); [apply not_elem_of_nil|].
    by apply Hcaller. }
  assert (Hclient : client_session st5.1 = client_session st.1).
  { destruct S04 as (Ha & _), S5 as (Hb & _). congruence. }
  rewrite Hsame, Hclient in Hsent. apply Hsent.
  intros l Hl. apply (extends_dom _ _ _ _ _ E05). by apply Hcaller.
Qed.

(** X12. Every request that a call sends, retries included, goes
    through the session itself with the caller's method, url, data
    and timeout, the per-request timeout never being reduced by the
    time already spent; and its headers are what [before_request],
    given a new adapter bound to that timeout, made of a copy of the
    caller's original headers, so that nothing of an earlier attempt
    is carried over. *)
Theorem sent_requests_repeat_the_arguments method url data headers mat
    timeout attempt (st : state) r st' :
  (forall l, headers = Some l -> is_Some (heap st.2 !! l)) ->
  request net method url data headers mat timeout attempt st = Some (r, st') ->
  exists evs,
    log st'.2 = log st.2 ++ evs /\
    Forall
      (fun c =>
         call_session c = client_session st.1 /\
         call_method c = method /\ call_url c = url /\
         call_data c = data /\ call_timeout c = timeout /\
         exists creds now,
           call_headers c
           = Some (after
                     (before_request creds
                        {| adapter := {| Request.session := None |};
                           bound_timeout := timeout |}
                        method url
                        (default ∅ (headers ≫= (heap st.2 !!.))) now)).2)
      (sent evs).
Proof.
  intros Hcaller Hreq. unfold request in Hreq.
  apply request_rec_log in Hreq as (evs & n & E & _ & _ & _ & _ & Hsent).
  exists evs. split; [exact (extends_log _ _ _ _ _ E)|]. by apply Hsent.
Qed.

(** X13. Every entry into [request] opens one [ClientSession] for
    the credentials, and all of them are closed again when the call
    ends, the innermost first, whether the call returns a response
    or raises. *)
Theorem auth_sessions_are_closed method url data headers mat timeout attempt
    (st : state) :
  exists r st' evs,
    request net method url data headers mat timeout attempt st = Some (r, st') /\
    log st'.2 = log st.2 ++ evs /\
    created evs <> [] /\
    length (created evs) = length (entries evs) /\
    closed evs = rev (created evs).
Proof.
  destruct (request_total net method url data headers mat timeout attempt st)
    as [[r st'] Hreq].
  exists r, st'. pose proof Hreq as Hrun. unfold request, depth in Hreq.
  apply request_rec_log in Hreq as (evs & n & E & Hclosed & Hlen & Hpos & _).
  exists evs. split; [exact Hrun|].
  split; [exact (extends_log _ _ _ _ _ E)|].
  split; [|split; assumption].
  intros Hnil. rewrite Hnil in Hlen. simpl in Hlen. lia.
Qed.
(** X10. Without attempts left ([_max_refresh_attempts] not above
    the attempt counter, for instance 0) or without refresh status
    codes, a call makes a single pass: it never refreshes the
    credentials, sends at most one request, and a response that it
    returns is the answer to that request, whatever its status. *)
Theorem request_without_attempts_left method url data headers mat timeout
    attempt (st : state) r st' :
  _max_refresh_attempts st.1 <= attempt \/ _refresh_status_codes st.1 = [] ->
  request net method url data headers mat timeout attempt st = Some (r, st') ->
  exists evs,
    log st'.2 = log st.2 ++ evs /\
    refreshes evs = 0%nat /\ (sends evs <= 1)%nat /\
    length (entries evs) = 1%nat /\
    forall response, r = Return response ->
      sends evs = 1%nat /\
      exists call, answer net (issued st.2) call = Return response.
Proof.
  intros Hleft Hreq. unfold request, depth in Hreq.
  assert (Hno : forall response, retries st.1 response attempt = false).
  { intros response. unfold retries. destruct Hleft as [Hmax| ->].
    - replace (attempt <? _max_refresh_attempts st.1) with false
        by (symmetry; apply Z.ltb_ge; lia).
      apply andb_false_r.
    - rewrite bool_decide_eq_false_2; [reflexivity|apply not_elem_of_nil]. }
  apply request_rec_pass in Hreq. cbv zeta in Hreq.
  destruct Hreq as (st4 & rh & _ & Hcases).
  destruct Hcases as [(E & _ & -> & e & -> & _)|(_ & _ & E & Hcases)].
  { pose proof (extends_trans _ _ _ _ _ _ _ _ _ E
                  (extends_close (sessions st.2) st4)) as Eall.
    eexists. split; [exact (extends_log _ _ _ _ _ Eall)|].
    unfold refreshes, sends. simpl.
    split; [reflexivity|]. split; [lia|]. split; [reflexivity|].
    discriminate. }
  destruct Hcases as [[-> Hend]|Hretry].
  2:{ destruct Hretry as (response & _ & _ & _ & _ & Hyes & _).
      rewrite Hno in Hyes. discriminate. }
  pose proof (extends_trans _ _ _ _ _ _ _ _ _ E
                (extends_close (sessions st.2) st4)) as Eall.
  eexists. split; [exact (extends_log _ _ _ _ _ Eall)|].
  unfold refreshes, sends. simpl.
  split; [reflexivity|]. split; [lia|]. split; [reflexivity|].
  destruct Hend as [(e & -> & _)|(response' & -> & Hans & _)]; [discriminate|].
  intros response [= <-]. eauto.
Qed.

(** X11. A wrapped request that raises is not retried.  The call
    raises: the exception of the request itself, unchanged, after one
    request; or [before_request]'s exception, in which case no request
    was sent; or, with a time budget only, the timeout error.  In
    no case are the credentials refreshed. *)
Theorem failed_request_is_not_retried method url data headers mat timeout
    attempt (st : state) e :
  (forall call, answer net (issued st.2) call = Raise e) ->
  exists e' st' evs,
    request net method url data headers mat timeout attempt st
    = Some (Raise e', st') /\
    log st'.2 = log st.2 ++ evs /\
    refreshes evs = 0%nat /\ (sends evs <= 1)%nat /\
    ((e' = e /\ sends evs = 1%nat) \/
     (e' = TimeoutError /\ is_Some mat) \/
     (sends evs = 0%nat /\
      raised
        (before_request (credentials st.1)
           (bind_timeout (Request.__init__ (Some (sessions st.2))) timeout)
           method url (default ∅ (headers ≫= (heap st.2 !!.))) (clock st.2))
      = Some e')).
Proof.
  intros Hfails.
  destruct (request_total net method url data headers mat timeout attempt st)
    as [[r st'] Hreq].
  pose proof Hreq as Hrun. unfold request, depth in Hreq.
  apply request_rec_pass in Hreq. cbv zeta in Hreq.
  destruct Hreq as (st4 & rh & _ & Hcases).
  destruct Hcases as [(E & _ & -> & e' & -> & Hwhy)|(_ & _ & E & Hcases)].
  { pose proof (extends_trans _ _ _ _ _ _ _ _ _ E
                  (extends_close (sessions st.2) st4)) as Eall.
    eexists e', _, _. split; [exact Hrun|].
    split; [exact (extends_log _ _ _ _ _ Eall)|].
    unfold refreshes, sends. simpl.
    split; [reflexivity|]. split; [lia|].
    destruct Hwhy as [Hraised|[-> Hmat]]; [|by right; left].
    right. right. split; [reflexivity|exact Hraised]. }
  destruct Hcases as [[-> Hend]|Hretry].
  2:{ destruct Hretry as (response & _ & _ & _ & Hans & _).
      rewrite Hfails in Hans. discriminate. }
  pose proof (extends_trans _ _ _ _ _ _ _ _ _ E
                (extends_close (sessions st.2) st4)) as Eall.
  destruct Hend as [(e' & -> & Hwhy)|(response & _ & Hans & _)].
  2:{ rewrite Hfails in Hans. discriminate. }
  eexists e', _, _. split; [exact Hrun|].
  split; [exact (extends_log _ _ _ _ _ Eall)|].
  unfold refreshes, sends. simpl.
  split; [reflexivity|]. split; [lia|].
  destruct Hwhy as [Hans|[-> Hmat]]; [|by right; left].
  left. rewrite Hfails in Hans. split; [congruence|reflexivity].
Qed.

Abbreviation alike body :=
  (forall (s1 s2 : t C) (w : world),
     same_settings s1 s2 ->
     exists r s1' s2' w',
       body (s1, w) = (r, (s1', w')) /\ body (s2, w) = (r, (s2', w')) /\
       same_settings s1' s2').

Lemma open_auth_request_settings (s1 s2 : t C) (w : world) :
  same_settings s1 s2 ->
  exists session ar s1' s2' w',
    open_auth_request (s1, w) = (session, ar, (s1', w')) /\
    open_auth_request (s2, w) = (session, ar, (s2', w')) /\
    session = sessions w /\ same_settings s1' s2'.
Proof.
  intros ((Hc & Hcodes & Hmax) & Hcred). unfold open_auth_request. simpl.
  eexists _, _, _, _, _. split; [reflexivity|]. split; [reflexivity|].
  split; [reflexivity|]. by repeat split.
Qed.

Lemma copy_headers_settings headers (s1 s2 : t C) (w : world) :
  exists l w',
    copy_headers headers (s1, w) = (l, (s1, w')) /\
    copy_headers headers (s2, w) = (l, (s2, w')).
Proof. unfold copy_headers. simpl. eauto. Qed.

Lemma guarded_settings {A : Type} budget (body : state -> result A * state) :
  alike body -> alike (guarded budget body).
Proof.
  intros Hbody s1 s2 w Hs. unfold guarded. cbn [fst snd].
  destruct (Hbody s1 s2 (emit (Guard budget) w) Hs)
    as (r & s1' & s2' & w' & -> & -> & Hs').
  cbn [fst snd]. destruct r as [a|e].
  - destruct (requests.TimeoutGuard.__exit__ _ None (clock w')) as [g [e'|]];
      eauto 10.
  - destruct (requests.TimeoutGuard.__exit__ _ (Some e) (clock w'))
      as [g [e'|]]; eauto 10.
Qed.

Lemma call_before_request_settings ar method url rh :
  alike (call_before_request ar method url rh).
Proof.
  intros s1 s2 w ((Hc & Hcodes & Hmax) & Hcred). unfold call_before_request.
  rewrite Hcred. eexists _, _, _, _. split; [reflexivity|].
  split; [reflexivity|]. by repeat split.
Qed.

Lemma super_request_settings method url data rh timeout :
  alike (super_request net method url data rh timeout).
Proof.
  intros s1 s2 w Hs. pose proof Hs as ((Hc & _) & _).
  unfold super_request, session_request. rewrite Hc.
  eexists _, _, _, _. split; [reflexivity|]. split; [reflexivity|]. exact Hs.
Qed.

Lemma call_refresh_settings ar : alike (call_refresh ar).
Proof.
  intros s1 s2 w ((Hc & Hcodes & Hmax) & Hcred). unfold call_refresh.
  rewrite Hcred. eexists _, _, _, _. split; [reflexivity|].
  split; [reflexivity|]. by repeat split.
Qed.

Lemma request_rec_settings fuel method url data headers mat timeout attempt
    (s1 s2 : t C) (w : world) r s1' w' :
  same_settings s1 s2 ->
  request_rec net fuel method url data headers mat timeout attempt (s1, w)
  = Some (r, (s1', w')) ->
  exists s2',
    request_rec net fuel method url data headers mat timeout attempt (s2, w)
    = Some (r, (s2', w')) /\
    same_settings s1' s2'.
Proof.
  revert mat attempt s1 s2 w r s1' w'.
  induction fuel as [|fuel IH]; intros mat attempt s1 s2 w r s1' w' Hs;
    [discriminate|].
  cbn [request_rec fst snd].
  destruct (open_auth_request_settings s1 s2 (emit (Entered attempt headers
              (headers ≫= (heap w !!.)) mat) w) Hs)
    as (session & ar & a1 & a2 & w1 & -> & -> & _ & Ha).
  destruct (copy_headers_settings headers a1 a2 w1) as (rh & w2 & -> & ->).
  destruct (guarded_settings mat _
              (call_before_request_settings (bind_timeout ar timeout)
                 method url rh) a1 a2 w2 Ha)
    as (r1 & b1 & b2 & w3 & -> & -> & Hb).
  destruct r1 as [[[] g1]|e1].
  2:{ intros [= <- <- <-]. eauto. }
  destruct (guarded_settings mat _
              (super_request_settings method url data rh timeout) b1 b2 w3 Hb)
    as (r2 & c1 & c2 & w4 & -> & -> & Hc).
  destruct r2 as [[response g2]|e2].
  2:{ intros [= <- <- <-]. eauto. }
  cbn [fst snd].
  pose proof Hc as ((_ & Hcodes & Hmax) & _). rewrite Hcodes, Hmax.
  destruct (bool_decide _ && _).
  2:{ intros [= <- <- <-]. eauto. }
  destruct (guarded_settings (requests.TimeoutGuard.remaining_timeout g2) _
              (call_refresh_settings (bind_timeout ar timeout)) c1 c2
              (emit (Info (status response) (attempt + 1)
                       (_max_refresh_attempts c1)) w4) Hc)
    as (r3 & d1 & d2 & w5 & -> & -> & Hd).
  destruct r3 as [[[] g3]|e3].
  2:{ intros [= <- <- <-]. eauto. }
  destruct (request_rec net fuel _ _ _ _ _ _ _ (d1, w5))
    as [[r4 [f1 w6]]|] eqn:Hrec; [|discriminate].
  intros [= <- <- <-].
  destruct (IH _ _ _ _ _ _ _ _ Hd Hrec) as (f2 & -> & Hf). eauto.
Qed.

(** X9. [request] reads neither [_refresh_timeout] nor [_is_mtls],
    and it replaces [_auth_request] before using it: two sessions
    with the same credentials, refresh status codes and number of
    attempts, that differ in the [refresh_timeout] and the
    [auth_request] they were constructed with, give the same
    outcome, log the same events and leave the same credentials. *)
Theorem request_ignores_unused_attributes method url data headers mat timeout
    attempt (s1 s2 : t C) (w : world) :
  same_settings s1 s2 ->
  exists r s1' s2' w',
    request net method url data headers mat timeout attempt (s1, w)
    = Some (r, (s1', w')) /\
    request net method url data headers mat timeout attempt (s2, w)
    = Some (r, (s2', w')) /\
    same_settings s1' s2'.
Proof.
  intros Hs.
  destruct (request_total net method url data headers mat timeout attempt
              (s1, w)) as [[r [s1' w']] Hreq].
  exists r, s1'. pose proof Hreq as Hrun. unfold request in Hreq.
  destruct (request_rec_settings _ _ _ _ _ _ _ _ _ _ _ _ _ _ Hs Hreq)
    as (s2' & Hreq2 & Hs').
  exists s2', w'. split; [exact Hrun|]. split; [|exact Hs'].
  unfold request, depth. cbn [fst]. pose proof Hs as ((_ & _ & Hmax) & _).
  rewrite Hmax. exact Hreq2.
Qed.
(** The first request of a call carries what [before_request] made
    of the caller's headers with the credentials of the session. *)
Lemma request_rec_first_sent fuel method url data headers mat timeout attempt
    (st : state) r st' :
  request_rec net fuel method url data headers mat timeout attempt st
  = Some (r, st') ->
  exists evs,
    log st'.2 = log st.2 ++ evs /\
    forall c rest, sent evs = c :: rest ->
      call_headers c
      = Some (after
                (before_request (credentials st.1)
                   {| adapter := {| Request.session := None |};
                      bound_timeout := timeout |}
                   method url (default ∅ (headers ≫= (heap st.2 !!.)))
                   (clock st.2))).2.
Proof.
  destruct fuel as [|fuel]; [discriminate|]. intros Hreq.
  apply request_rec_pass in Hreq. cbv zeta in Hreq.
  destruct Hreq as (st4 & rh & _ & Hcases).
  destruct Hcases as [(E & _ & -> & _)|(_ & _ & E & Hcases)].
  { pose proof (extends_trans _ _ _ _ _ _ _ _ _ E
                  (extends_close (sessions st.2) st4)) as Eall.
    eexists. split; [exact (extends_log _ _ _ _ _ Eall)|].
    simpl. discriminate. }
  destruct Hcases as [[-> _]|Hretry].
  { pose proof (extends_trans _ _ _ _ _ _ _ _ _ E
                  (extends_close (sessions st.2) st4)) as Eall.
    eexists. split; [exact (extends_log _ _ _ _ _ Eall)|].
    simpl. by intros c rest [= <- _]. }
  destruct Hretry
    as (response & st5 & rem & budget & _ & _ & E5 & _ & _ & _ & Hrest).
  pose proof (extends_trans _ _ _ _ _ _ _ _ _ E E5) as E05.
  destruct Hrest as [(-> & _)|(st6 & _ & Hrec & ->)].
  { pose proof (extends_trans _ _ _ _ _ _ _ _ _ E05
                  (extends_close (sessions st.2) st5)) as Eall.
    eexists. split; [exact (extends_log _ _ _ _ _ Eall)|].
    simpl. by intros c rest [= <- _]. }
  apply request_rec_log in Hrec as (evs' & n' & E' & _).
  pose proof (extends_trans _ _ _ _ _ _ _ _ _ E05
                (extends_trans _ _ _ _ _ _ _ _ _ E'
                   (extends_close (sessions st.2) st6))) as Eall.
  eexists. split; [exact (extends_log _ _ _ _ _ Eall)|].
  simpl. by intros c rest [= <- _].
Qed.

(** X14. A retry is authorized by the refreshed credentials.  When a
    call sends a second request, its headers are what
    [before_request] of the credentials that the forced [refresh]
    left, the refresh having started from the credentials that the
    first [before_request] left, makes of a copy of the caller's
    original headers. *)
Theorem retry_uses_refreshed_credentials method url data headers mat timeout
    attempt (st : state) r st' :
  (forall l, headers = Some l -> is_Some (heap st.2 !! l)) ->
  request net method url data headers mat timeout attempt st = Some (r, st') ->
  exists evs,
    log st'.2 = log st.2 ++ evs /\
    forall c1 c2 rest, sent evs = c1 :: c2 :: rest ->
      exists now2 now3,
        let ar :=
          {| adapter := {| Request.session := None |};
             bound_timeout := timeout |} in
        let contents := default ∅ (headers ≫= (heap st.2 !!.)) in
        let first :=
          before_request (credentials st.1) ar method url contents
            (clock st.2) in
        call_headers c1 = Some (after first).2 /\
        call_headers c2
        = Some (after
                  (before_request (after (refresh (after first).1 ar now2))
                     ar method url contents now3)).2.
Proof.
  intros Hcaller Hreq. unfold request, depth in Hreq.
  apply request_rec_pass in Hreq. cbv zeta in Hreq.
  destruct Hreq as (st4 & rh & _ & Hcases).
  destruct Hcases as [(E & _ & -> & _)|(_ & Hcred4 & E & Hcases)].
  { pose proof (extends_trans _ _ _ _ _ _ _ _ _ E
                  (extends_close (sessions st.2) st4)) as Eall.
    eexists. split; [exact (extends_log _ _ _ _ _ Eall)|].
    simpl. discriminate. }
  destruct Hcases as [[-> _]|Hretry].
  { pose proof (extends_trans _ _ _ _ _ _ _ _ _ E
                  (extends_close (sessions st.2) st4)) as Eall.
    eexists. split; [exact (extends_log _ _ _ _ _ Eall)|].
    simpl. discriminate. }
  destruct Hretry
    as (response & st5 & rem & budget & _ & _ & E5 & _ & Hcred5 & _ & Hrest).
  pose proof (extends_trans _ _ _ _ _ _ _ _ _ E E5) as E05.
  destruct Hrest as [(-> & _)|(st6 & _ & Hrec & ->)].
  { pose proof (extends_trans _ _ _ _ _ _ _ _ _ E05
                  (extends_close (sessions st.2) st5)) as Eall.
    eexists. split; [exact (extends_log _ _ _ _ _ Eall)|].
    simpl. discriminate. }
  apply request_rec_first_sent in Hrec as (evs' & Hlog' & Hfirst).
  assert (Hsame : headers ≫= (heap st5.2 !!.) = headers ≫= (heap st.2 !!.)).
  { destruct headers as [l|]; simpl; [|reflexivity].
    apply (extends_heap _ _ _ _ _ E05); [apply not_elem_of_nil|].
    by apply Hcaller. }
  rewrite Hsame, Hcred5, Hcred4 in Hfirst.
  eexists. split.
  { simpl. rewrite Hlog', (extends_log _ _ _ _ _ E05), <- !app_assoc.
    reflexivity. }
  rewrite !sent_app. simpl. rewrite app_nil_r.
  intros c1 c2 rest [= <- Hrest]. eexists _, _. split; [reflexivity|].
  exact (Hfirst _ _ Hrest).
Qed.

(** X15. A forced refresh that raises ends the call.  When the
    answer to the request asks for a refresh and [refresh] raises,
    the call raises that exception, unchanged, after one request and
    one refresh, and the response is lost; with a time budget the
    timeout error may be raised instead.  Nothing is sent again. *)
Theorem failed_refresh_ends_the_call method url data headers mat timeout
    attempt (st : state) response e :
  let ar := bind_timeout (Request.__init__ (Some (sessions st.2))) timeout in
  let first :=
    before_request (credentials st.1) ar method url
      (default ∅ (headers ≫= (heap st.2 !!.))) (clock st.2) in
  raised first = None ->
  (forall call, answer net (issued st.2) call = Return response) ->
  retries st.1 response attempt = true ->
  (forall now, raised (refresh (after first).1 ar now) = Some e) ->
  exists e' st' evs,
    request net method url data headers mat timeout attempt st
    = Some (Raise e', st') /\
    log st'.2 = log st.2 ++ evs /\
    (sends evs <= 1)%nat /\
    ((e' = e /\ sends evs = 1%nat /\ refreshes evs = 1%nat) \/
     (e' = TimeoutError /\ is_Some mat)).
Proof.
  intros ar first Hquiet Hanswer Hyes Hrefresh.
  destruct (request_total net method url data headers mat timeout attempt st)
    as [[r st'] Hreq].
  pose proof Hreq as Hrun. unfold request, depth in Hreq.
  apply request_rec_pass in Hreq. cbv zeta in Hreq.
  fold ar in Hreq. fold first in Hreq.
  destruct Hreq as (st4 & rh & _ & Hcases).
  destruct Hcases
    as [(E & _ & -> & e' & -> & Hwhy)|(_ & Hcred4 & E & Hcases)].
  { pose proof (extends_trans _ _ _ _ _ _ _ _ _ E
                  (extends_close (sessions st.2) st4)) as Eall.
    eexists e', _, _. split; [exact Hrun|].
    split; [exact (extends_log _ _ _ _ _ Eall)|].
    unfold sends. simpl. split; [lia|].
    destruct Hwhy as [Hraised|[-> Hmat]]; [congruence|by right]. }
  destruct Hcases as [[-> Hend]|Hretry].
  { pose proof (extends_trans _ _ _ _ _ _ _ _ _ E
                  (extends_close (sessions st.2) st4)) as Eall.
    destruct Hend as [(e' & -> & Hwhy)|(response' & _ & Hans & Hno)].
    - eexists e', _, _. split; [exact Hrun|].
      split; [exact (extends_log _ _ _ _ _ Eall)|].
      unfold sends. simpl. split; [lia|].
      destruct Hwhy as [Hans|[-> Hmat]]; [|by right].
      rewrite Hanswer in Hans. discriminate.
    - rewrite Hanswer in Hans. injection Hans as <-. congruence. }
  destruct Hretry
    as (response' & st5 & rem & budget & _ & _ & E5 & _ & _ & [Hbudget _]
        & Hrest).
  pose proof (extends_trans _ _ _ _ _ _ _ _ _ E E5) as E05.
  rewrite Hcred4 in Hrest.
  destruct Hrest as [(-> & e' & -> & Hwhy)|(st6 & Hnone & _)].
  2:{ rewrite Hrefresh in Hnone. discriminate. }
  pose proof (extends_trans _ _ _ _ _ _ _ _ _ E05
                (extends_close (sessions st.2) st5)) as Eall.
  eexists e', _, _. split; [exact Hrun|].
  split; [exact (extends_log _ _ _ _ _ Eall)|].
  unfold sends, refreshes. simpl. split; [lia|].
  destruct Hwhy as [Hraised|[-> Hb]]; [|right; auto].
  left. rewrite Hrefresh in Hraised. split; [congruence|]. by split.
Qed.
End transport_passes.

Section transport_more_examples.
Import aiohttp_requests AuthorizedSession trace.

Lemma adapter_keeps_one_session_witness :
  let net := samples.failing (ClientError "Connection reset") 1 in
  samples.three_calls <> [] /\
  exists rs w',
    caller.calls net (Request.__init__ (Some 7%nat)) samples.three_calls
      samples.empty_world
    = (rs, ({| Request.session := Some 0%nat |}, w')) /\
    length rs = 3%nat /\ sessions w' = 1%nat /\ issued w' = 3%nat /\
    created (log w') = [0%nat] /\ closed (log w') = [] /\
    Forall (fun c => call_session c = 0%nat) (sent (log w')).
Proof.
  intros net. split; [discriminate|].
  destruct (adapter_keeps_one_session net (Some 7%nat) samples.three_calls
              samples.empty_world)
    as (rs & w' & Hrun & Hlen & Hs & Hi & Hl); [discriminate|].
  exists rs, w'. split; [exact Hrun|]. split; [exact Hlen|].
  split; [exact Hs|]. split; [exact Hi|].
  rewrite Hl. simpl. split; [reflexivity|]. split; [reflexivity|].
  repeat constructor.
Defined.

Lemma request_ignores_unused_attributes_witness :
  let st1 := samples.authorized (samples.stub_with 0 0) samples.empty_world in
  let st2 :=
    AuthorizedSession.__init__ (samples.stub_with 0 0) [401] 2 (Some 30)
      (Some {| Request.session := Some 5%nat |}) samples.empty_world in
  same_settings st1.1 st2.1 /\ st2.2 = st1.2 /\
  exists r s1' s2' w',
    samples.get (samples.scripted [401; 200] 1) None None (st1.1, st1.2)
    = Some (r, (s1', w')) /\
    samples.get (samples.scripted [401; 200] 1) None None (st2.1, st1.2)
    = Some (r, (s2', w')) /\
    credentials s1' = credentials s2'.
Proof.
  intros st1 st2. unfold samples.get.
  assert (Hs : same_settings st1.1 st2.1) by (by repeat split).
  split; [exact Hs|]. split; [reflexivity|].
  set (s1 := st1.1) in *. set (s2 := st2.1) in *. set (w := st1.2).
  clearbody s1 s2 w. clear st1 st2.
  destruct (request_ignores_unused_attributes (H := samples.stub)
              (samples.scripted [401; 200] 1) "GET" "http://example.com/"
              None None None (Some _DEFAULT_TIMEOUT) 0 s1 s2 w Hs)
    as (r & s1' & s2' & w' & Hrun1 & Hrun2 & (_ & Hcred)).
  exists r, s1', s2', w'. split; [exact Hrun1|]. split; [exact Hrun2|].
  symmetry. exact Hcred.
Defined.

Lemma request_without_attempts_left_witness :
  let st :=
    AuthorizedSession.__init__ (samples.stub_with 0 0) [401] 0 None None
      samples.empty_world in
  let net := samples.scripted [401; 200] 1 in
  _max_refresh_attempts st.1 <= 0 /\
  exists st' evs,
    samples.get net None None st
    = Some (Return {| status := 401; headers := ∅; content := "" |}, st') /\
    log st'.2 = log st.2 ++ evs /\
    refreshes evs = 0%nat /\ sends evs = 1%nat.
Proof.
  intros st net. unfold samples.get.
  assert (Hmax : _max_refresh_attempts st.1 <= 0) by (simpl; lia).
  assert (Hrun : exists st',
            request net "GET" "http://example.com/" None None None
              (Some _DEFAULT_TIMEOUT) 0 st
            = Some (Return {| status := 401; headers := ∅; content := "" |},
                    st'))
    by (eexists; vm_compute; reflexivity).
  clearbody st net. split; [exact Hmax|].
  destruct Hrun as [st' Hrun].
  destruct (request_without_attempts_left (H := samples.stub) net "GET"
              "http://example.com/" None None None (Some _DEFAULT_TIMEOUT) 0
              st _ st' (or_introl Hmax) Hrun)
    as (evs & Hlog & Hrefreshes & _ & _ & Hreturned).
  exists st', evs. split; [exact Hrun|]. split; [exact Hlog|].
  split; [exact Hrefreshes|]. exact (proj1 (Hreturned _ eq_refl)).
Defined.

Lemma failed_request_is_not_retried_witness :
  let st := samples.authorized (samples.stub_with 0 0) samples.empty_world in
  let net := samples.failing (ClientError "Connection reset") 1 in
  (forall call,
     answer net (issued st.2) call = Raise (ClientError "Connection reset")) /\
  exists st' evs,
    samples.get net None None st
    = Some (Raise (ClientError "Connection reset"), st') /\
    log st'.2 = log st.2 ++ evs /\
    refreshes evs = 0%nat /\ sends evs = 1%nat.
Proof.
  intros st net. unfold samples.get.
  assert (Hfails : forall call,
            answer net (issued st.2) call
            = Raise (ClientError "Connection reset")) by reflexivity.
  clearbody st net. split; [exact Hfails|].
  destruct (failed_request_is_not_retried (H := samples.stub) net "GET"
              "http://example.com/" None None None (Some _DEFAULT_TIMEOUT) 0
              st (ClientError "Connection reset") Hfails)
    as (e' & st' & evs & Hrun & Hlog & Hrefreshes & _ & Hwhy).
  destruct Hwhy as [[-> Hsends]|[[_ Hmat]|[_ Hraised]]].
  - exists st', evs. split; [exact Hrun|]. split; [exact Hlog|].
    split; [exact Hrefreshes|exact Hsends].
  - destruct Hmat as [b Hb]. discriminate Hb.
  - discriminate Hraised.
Defined.

Lemma sent_requests_repeat_the_arguments_witness :
  let st :=
    samples.authorized (samples.stub_with 0 0) samples.caller_world in
  let net := samples.scripted [401; 200] 1 in
  is_Some (heap st.2 !! (0%nat : loc)) /\
  exists r st' evs,
    samples.get net (Some 0%nat) None st = Some (r, st') /\
    log st'.2 = log st.2 ++ evs /\
    Forall
      (fun c =>
         call_session c = client_session st.1 /\
         call_method c = "GET" /\ call_url c = "http://example.com/" /\
         call_data c = None /\ call_timeout c = Some _DEFAULT_TIMEOUT /\
         exists tok,
           call_headers c
           = Some (<["authorization" := tok]> {["x-test-header" := "value"]}))
      (sent evs).
Proof.
  intros st net. unfold samples.get.
  assert (Hheld : heap st.2 !! (0%nat : loc)
                  = Some {["x-test-header" := "value"]})
    by (vm_compute; reflexivity).
  clearbody st net.
  split; [eexists; exact Hheld|].
  destruct (request_total (H := samples.stub) net "GET" "http://example.com/"
              None (Some 0%nat) None (Some _DEFAULT_TIMEOUT) 0 st)
    as [[r st'] Hrun].
  destruct (sent_requests_repeat_the_arguments (H := samples.stub) net "GET"
              "http://example.com/" None (Some 0%nat) None
              (Some _DEFAULT_TIMEOUT) 0 st r st')
    as (evs & Hlog & Hsent).
  - intros l Hl. injection Hl as Hl. subst l. eexists; exact Hheld.
  - exact Hrun.
  - exists r, st', evs. split; [exact Hrun|]. split; [exact Hlog|].
    eapply Forall_impl; [exact Hsent|].
    intros c (Hc & Hm & Hu & Hd & Ht & creds & now & Hh).
    repeat (split; [assumption|]).
    exists (samples.token creds). etransitivity; [exact Hh|].
    change (Some (<["authorization" := samples.token creds]>
                    (default ∅ (heap st.2 !! (0%nat : loc))))
            = Some (<["authorization" := samples.token creds]>
                      {["x-test-header" := "value"]})).
    exact (f_equal
             (fun o => Some (<["authorization" := samples.token creds]>
                               (default ∅ o))) Hheld).
Defined.
Lemma retry_uses_refreshed_credentials_witness :
  let st :=
    samples.authorized (samples.stub_with 0 0) samples.caller_world in
  let net := samples.scripted [401; 200] 1 in
  is_Some (heap st.2 !! (0%nat : loc)) /\
  exists r st' evs c1 c2,
    samples.get net (Some 0%nat) None st = Some (r, st') /\
    log st'.2 = log st.2 ++ evs /\
    sent evs = [c1; c2] /\
    call_headers c1
    = Some (<["authorization" := "token"]> {["x-test-header" := "value"]}) /\
    call_headers c2
    = Some (<["authorization" := "token1"]> {["x-test-header" := "value"]}).
Proof.
  intros st net. unfold samples.get.
  assert (Hheld : heap st.2 !! (0%nat : loc)
                  = Some {["x-test-header" := "value"]})
    by (vm_compute; reflexivity).
  assert (Hcred : credentials st.1 = samples.stub_with 0 0) by reflexivity.
  assert (Hfacts : exists r st',
            request net "GET" "http://example.com/" None (Some 0%nat) None
              (Some _DEFAULT_TIMEOUT) 0 st = Some (r, st') /\
            length (sent (log st'.2)) = 2%nat /\ sent (log st.2) = []).
  { eexists _, _. split; [vm_compute; reflexivity|].
    split; vm_compute; reflexivity. }
  clearbody st net.
  split; [eexists; exact Hheld|].
  destruct Hfacts as (r & st' & Hrun & Hlen & Hnone).
  destruct (retry_uses_refreshed_credentials (H := samples.stub) net "GET"
              "http://example.com/" None (Some 0%nat) None
              (Some _DEFAULT_TIMEOUT) 0 st r st')
    as (evs & Hlog & Hheaders).
  - intros l Hl. injection Hl as Hl. subst l. eexists; exact Hheld.
  - exact Hrun.
  - rewrite Hlog, sent_app, Hnone in Hlen. simpl in Hlen.
    destruct (sent evs) as [|c1 [|c2 [|c3 rest]]] eqn:Hsent;
      try discriminate Hlen.
    destruct (Hheaders c1 c2 [] eq_refl) as (now2 & now3 & Hh1 & Hh2).
    exists r, st', evs, c1, c2.
    split; [exact Hrun|]. split; [exact Hlog|]. split; [exact Hsent|].
    cbn in Hh1, Hh2. rewrite Hcred, Hheld in Hh1, Hh2.
    split; [exact Hh1|exact Hh2].
Defined.

Lemma failed_refresh_ends_the_call_witness :
  let st :=
    AuthorizedSession.__init__ {| samples.revoked_token := "token" |} [401] 2
      None None samples.empty_world in
  let net := samples.scripted [401; 200] 1 in
  let unauthorized := {| status := 401; headers := ∅; content := "" |} in
  (forall call, answer net (issued st.2) call = Return unauthorized) /\
  retries st.1 unauthorized 0 = true /\
  exists st' evs,
    request net "GET" "http://example.com/" None None None
      (Some _DEFAULT_TIMEOUT) 0 st
    = Some (Raise (RefreshError "invalid_grant"), st') /\
    log st'.2 = log st.2 ++ evs /\
    sends evs = 1%nat /\ refreshes evs = 1%nat.
Proof.
  intros st net unauthorized.
  assert (Hanswer : forall call,
            answer net (issued st.2) call = Return unauthorized)
    by reflexivity.
  assert (Hyes : retries st.1 unauthorized 0 = true) by reflexivity.
  clearbody st net.
  split; [exact Hanswer|]. split; [exact Hyes|].
  destruct (failed_refresh_ends_the_call (H := samples.revoked) net "GET"
              "http://example.com/" None None None (Some _DEFAULT_TIMEOUT) 0
              st unauthorized (RefreshError "invalid_grant")
              eq_refl Hanswer Hyes (fun _ => eq_refl))
    as (e' & st' & evs & Hrun & Hlog & _ & Hwhy).
  destruct Hwhy as [(-> & Hsends & Hrefreshes)|[_ Hmat]].
  - exists st', evs. split; [exact Hrun|]. split; [exact Hlog|].
    split; [exact Hsends|exact Hrefreshes].
  - destruct Hmat as [b Hb]. discriminate Hb.
Defined.
End transport_more_examples.
